(** * Verification of the e-commerce dataset scripts

    Shallow embedding of [scripts/run_queries.py] (statement splitting),
    [scripts/ingest_to_sqlite.py] (loader and reconciler) and
    [scripts/generate_data.py] (dataset generator). *)

From Stdlib Require Import String Ascii List Permutation ZArith QArith Qround Qabs Lia Lqa.
From stdpp Require Import base gmap.
Import ListNotations.
Open Scope string_scope.

(* ===================================================================== *)
(** ** Python string helpers (ASCII text)                                 *)
(* ===================================================================== *)

Module PyStr.

(** [str.isspace] on ASCII: tab, LF, VT, FF, CR, the separators 0x1c-0x1f
    and space. *)
Definition is_space (c : ascii) : bool :=
  let n := nat_of_ascii c in
  (((9 <=? n) && (n <=? 13)) || ((28 <=? n) && (n <=? 31)) || (n =? 32))%nat.

Fixpoint lstrip_by (p : ascii -> bool) (s : string) : string :=
  match s with
  | EmptyString => EmptyString
  | String c s' => if p c then lstrip_by p s' else s
  end.

Definition rev_str (s : string) : string :=
  string_of_list_ascii (rev (list_ascii_of_string s)).

Definition rstrip_by (p : ascii -> bool) (s : string) : string :=
  rev_str (lstrip_by p (rev_str s)).

(** [s.strip()], [s.rstrip()], [s.rstrip(';')] *)
Definition strip (s : string) : string := rstrip_by is_space (lstrip_by is_space s).
Definition rstrip (s : string) : string := rstrip_by is_space s.
Definition rstrip_semi (s : string) : string :=
  rstrip_by (fun c => Ascii.eqb c ";"%char) s.

(** [s.startswith(p)] *)
Definition startswith (p s : string) : bool := String.prefix p s.

(** [s.endswith(c)] for a single character *)
Definition endswith_char (c : ascii) (s : string) : bool :=
  match rev (list_ascii_of_string s) with
  | c' :: _ => Ascii.eqb c c'
  | [] => false
  end.

(** [sub in s] *)
Fixpoint contains (sub s : string) : bool :=
  String.prefix sub s ||
  match s with
  | EmptyString => false
  | String _ s' => contains sub s'
  end.

(** [s.upper()] on ASCII letters *)
Definition upper_char (c : ascii) : ascii :=
  let n := nat_of_ascii c in
  if ((97 <=? n) && (n <=? 122))%nat then ascii_of_nat (n - 32)%nat else c.

Fixpoint upper (s : string) : string :=
  match s with
  | EmptyString => EmptyString
  | String c s' => String (upper_char c) (upper s')
  end.

(** [s.lower()] on ASCII letters *)
Definition lower_char (c : ascii) : ascii :=
  let n := nat_of_ascii c in
  if ((65 <=? n) && (n <=? 90))%nat then ascii_of_nat (n + 32)%nat else c.

Fixpoint lower (s : string) : string :=
  match s with
  | EmptyString => EmptyString
  | String c s' => String (lower_char c) (lower s')
  end.

(** [s.split(c)] for a single-character separator: always at least one
    piece, empty pieces kept. *)
Fixpoint split_on (c : ascii) (s : string) : list string :=
  match s with
  | EmptyString => [EmptyString]
  | String c' s' =>
      if Ascii.eqb c c' then EmptyString :: split_on c s'
      else match split_on c s' with
           | p :: ps => String c' p :: ps
           | [] => [String c' EmptyString]
           end
  end.

(** [sep.join(xs)] *)
Fixpoint join (sep : string) (xs : list string) : string :=
  match xs with
  | [] => EmptyString
  | [x] => x
  | x :: xs' => x ++ sep ++ join sep xs'
  end.

Definition is_empty (s : string) : bool :=
  match s with EmptyString => true | _ => false end.

Definition nl : string := String (ascii_of_nat 10%nat) EmptyString.

End PyStr.

(* ===================================================================== *)
(** ** [run_queries.py]: splitting a query batch into statements          *)
(* ===================================================================== *)

Module RunQueries.
Import PyStr.

(** Local variables of the splitting loop of [run_queries]. *)
Record split_state := mk_split {
  queries : list string;
  current_query : list string;
  in_explain : bool
}.

Definition split_init : split_state := mk_split [] [] false.

(** One iteration of [for line in content.split('\n')]. *)
Definition split_step (st : split_state) (line : string) : split_state :=
  let stripped := strip line in
  if is_empty stripped || startswith "--" stripped then
    (* Skip comments and empty lines *)
    if startswith "--" stripped && contains "Query" stripped then
      match current_query st with
      | [] => st
      | cq => mk_split (app (queries st) [join nl cq]) [] (in_explain st)
      end
    else st
  else if contains "EXPLAIN QUERY PLAN" (upper line) then
    mk_split (queries st) (current_query st) true
  else
    let cq := app (current_query st) [line] in
    if endswith_char ";" (rstrip line) && negb (in_explain st) then
      let query_text := strip (join nl cq) in
      if negb (is_empty query_text)
      then mk_split (app (queries st) [query_text]) [] false
      else mk_split (queries st) cq false
    else mk_split (queries st) cq (in_explain st).

(** The list [queries] after the loop and the flush of the remainder. *)
Definition split_queries (content : string) : list string :=
  let st := fold_left split_step (split_on (ascii_of_nat 10%nat) content) split_init in
  match current_query st with
  | [] => queries st
  | cq => app (queries st) [join nl cq]
  end.

(** The text handed to [cursor.execute] for one entry of [queries], or
    [None] when the entry is skipped by [continue]. *)
Definition prepare (q : string) : option string :=
  let q1 := strip q in
  let q2 := if is_empty q1 || endswith_char ";" q1 then rstrip_semi q1 else q1 in
  if is_empty q2 then None else Some q2.

(** The executable statements of a batch, in execution order. *)
Definition executable_statements (content : string) : list string :=
  flat_map (fun q => match prepare q with Some s => [s] | None => [] end)
           (split_queries content).

End RunQueries.

(* ===================================================================== *)
(** ** Statement splitting: claims                                        *)
(* ===================================================================== *)

Module RunQueriesClaims.
Import PyStr RunQueries.

(** A text made of the given lines. *)
Definition lines (ls : list string) : string := join nl ls.

(** The directive first, then three statements. *)
Definition batch_explain_first : string :=
  lines ["EXPLAIN QUERY PLAN"; "SELECT * FROM orders;"; "SELECT 1;"; "SELECT 2;"].

(** Two statements, then the directive before a third one. *)
Definition batch_explain_last : string :=
  lines ["SELECT 1;"; "SELECT 2;"; "EXPLAIN QUERY PLAN";
         "SELECT * FROM orders WHERE status = 'paid';"].

(** C3 (as the code does it): the assignment [in_explain = False] sits in
    the branch taken only when [in_explain] is already false, so once a
    line holds [EXPLAIN QUERY PLAN] the flag stays set for the rest of the
    text and no later semicolon ends a statement; only a [-- ... Query]
    comment line or the end of the text flushes the lines gathered so far.
    With the directive first, three statements come out as one; with the
    directive before the last statement, the batch splits into three. *)
Theorem C3_explain_flag_never_resets :
  (forall st line, in_explain st = true -> in_explain (split_step st line) = true) /\
  executable_statements batch_explain_first =
    [lines ["SELECT * FROM orders;"; "SELECT 1;"; "SELECT 2"]] /\
  executable_statements batch_explain_last =
    ["SELECT 1"; "SELECT 2"; "SELECT * FROM orders WHERE status = 'paid'"].
Proof.
  split; [|split; vm_compute; reflexivity].
  intros st line H. unfold split_step.
  destruct (is_empty (strip line) || startswith "--" (strip line)).
  - destruct (startswith "--" (strip line) && contains "Query" (strip line));
      [destruct (current_query st)|]; simpl; auto.
  - destruct (contains "EXPLAIN QUERY PLAN" (upper line)); simpl; auto.
    rewrite H, andb_false_r. reflexivity.
Qed.

End RunQueriesClaims.


(* ===================================================================== *)
(** ** IEEE 754 binary64 ([double]), by value                            *)
(* ===================================================================== *)

(** A double other than NaN is a finite value, kept as the exact rational
    it denotes, or an infinity. The sign of a zero is not kept: no
    computation modelled here depends on it. The result of a floating
    point operation, which may be NaN, is an [option real] with [None]
    for NaN. *)
Module Binary64.
Local Open Scope Z_scope.

Inductive real := Fin (q : Q) | Inf (neg : bool).
Definition float := option real.

(** [floor (log2 (n / d))] for [n > 0] *)
Definition flog2 (n : Z) (d : positive) : Z :=
  let k := Z.log2 n - Z.log2 (Zpos d) in
  if (if 0 <=? k then Zpos d * 2 ^ k <=? n else Zpos d <=? n * 2 ^ (- k)) then k else k - 1.

(** [N / D] rounded to an integer, ties to even ([N >= 0], [D > 0]). *)
Definition rne (N D : Z) : Z :=
  let q := N / D in
  match Z.compare (2 * (N mod D)) D with
  | Lt => q
  | Gt => q + 1
  | Eq => if Z.even q then q else q + 1
  end.

(** Rounding of an exact value to the nearest double, ties to even: 53
    significant bits, subnormals below [2^-1022], an infinity from
    [2^1024] on. *)
Definition round64 (x : Q) : real :=
  let n := Qnum x in
  let d := Qden x in
  if n =? 0 then Fin 0 else
  let a := Z.abs n in
  let e := Z.max (flog2 a d - 52) (-1074) in
  let m := if 0 <=? e then rne a (Zpos d * 2 ^ e) else rne (a * 2 ^ (- e)) (Zpos d) in
  let sm := if n <? 0 then - m else m in
  if m =? 0 then Fin 0
  else if (0 <=? e) && (2 ^ 1024 <=? m * 2 ^ e) then Inf (n <? 0)
  else Fin (if 0 <=? e then inject_Z (sm * 2 ^ e) else Qmake sm (Z.to_pos (2 ^ (- e)))).

(** [(double)i] *)
Definition of_Z (z : Z) : real := round64 (inject_Z z).

Definition fneg (x : real) : real :=
  match x with Fin q => Fin (- q) | Inf s => Inf (negb s) end.

(** [fabs] *)
Definition fabs (x : real) : real :=
  match x with Fin q => Fin (Qabs q) | Inf _ => Inf false end.

(** [x + y]: the exact sum rounded; [inf - inf] is NaN. *)
Definition fadd (x y : float) : float :=
  match x, y with
  | Some (Fin p), Some (Fin q) => Some (round64 (p + q))
  | Some (Inf s), Some (Inf t) => if Bool.eqb s t then Some (Inf s) else None
  | Some (Inf s), Some (Fin _) | Some (Fin _), Some (Inf s) => Some (Inf s)
  | _, _ => None
  end.

(** [x - y] *)
Definition fsub (x y : float) : float := fadd x (option_map fneg y).

(** [x * y]: the exact product rounded; [inf * 0] is NaN. *)
Definition fmul (x y : float) : float :=
  match x, y with
  | Some (Fin p), Some (Fin q) => Some (round64 (p * q))
  | Some (Inf s), Some (Inf t) => Some (Inf (xorb s t))
  | Some (Inf s), Some (Fin q) | Some (Fin q), Some (Inf s) =>
      if Qeq_bool q 0 then None else Some (Inf (xorb s (negb (Qle_bool 0 q))))
  | _, _ => None
  end.

(** [x < y] on doubles other than NaN *)
Definition rlt (x y : real) : bool :=
  match x, y with
  | Fin p, Fin q => negb (Qle_bool q p)
  | Inf true, Inf false => true
  | Inf _, Inf _ => false
  | Inf s, Fin _ => s
  | Fin _, Inf s => negb s
  end.

Definition rle (x y : real) : bool := negb (rlt y x).

(** [x == y] *)
Definition reqb (x y : real) : bool :=
  match x, y with
  | Fin p, Fin q => Qeq_bool p q
  | Inf s, Inf t => Bool.eqb s t
  | _, _ => false
  end.

(** [x < y] on the results of operations: false when either is NaN. *)
Definition flt (x y : float) : bool :=
  match x, y with Some a, Some b => rlt a b | _, _ => false end.

(** [x] is NaN or an infinity *)
Definition is_overflow (x : float) : bool :=
  match x with Some (Fin _) => false | _ => true end.

End Binary64.

(* ===================================================================== *)
(** ** [ingest_to_sqlite.py]: the store and the SQL it runs              *)
(* ===================================================================== *)

Module Ingest.
Import PyStr Binary64.

(** *** SQLite values

    The storage classes: NULL, a 64-bit signed integer, a double (never
    NaN: SQLite stores NULL in its place) and text. *)
Inductive sqlval := VNull | VInt (z : Z) | VReal (r : real) | VText (s : string).

Definition int64_min : Z := (- 2 ^ 63)%Z.
Definition int64_max : Z := (2 ^ 63 - 1)%Z.
Definition in_int64 (z : Z) : bool := (int64_min <=? z)%Z && (z <=? int64_max)%Z.

(** *** Text to number: [sqlite3AtoF] and [sqlite3Atoi64] on UTF-8 text *)

(** [sqlite3Isspace]: space, tab, LF, VT, FF, CR *)
Definition sqlite_isspace (c : ascii) : bool :=
  let n := nat_of_ascii c in ((n =? 32) || ((9 <=? n) && (n <=? 13)))%nat.

Definition digit (c : ascii) : option Z :=
  let n := Z.of_nat (nat_of_ascii c) in
  if (48 <=? n)%Z && (n <=? 57)%Z then Some (n - 48)%Z else None.

Fixpoint skip_spaces (s : string) : string :=
  match s with
  | String c s' => if sqlite_isspace c then skip_spaces s' else s
  | EmptyString => EmptyString
  end.

(** An optional sign, [true] for '-'. *)
Definition take_sign (s : string) : bool * string :=
  match s with
  | String "-" r => (true, r)
  | String "+" r => (false, r)
  | _ => (false, s)
  end.

(** The significand of [sqlite3AtoF] stops taking digits once it reaches
    [(LARGEST_INT64 - 9) / 10]. *)
Definition sig_limit : Z := ((int64_max - 9) / 10)%Z.

(** The digits before the point: significand [s], decimal shift [d] (one
    per integer digit dropped), digit count [nd] and the rest of the text. *)
Fixpoint atof_int (z : string) (s d : Z) (nd : nat) (full : bool) : Z * Z * nat * string :=
  match z with
  | String c r =>
      match digit c with
      | Some k =>
          if full then atof_int r s (d + 1)%Z nd true
          else let s' := (s * 10 + k)%Z in atof_int r s' d (S nd) (sig_limit <=? s')%Z
      | None => (s, d, nd, z)
      end
  | EmptyString => (s, d, nd, EmptyString)
  end.

(** The digits after the point, kept while the significand is below the
    limit. *)
Fixpoint atof_frac (z : string) (s d : Z) (nd : nat) : Z * Z * nat * string :=
  match z with
  | String c r =>
      match digit c with
      | Some k =>
          if (s <? sig_limit)%Z then atof_frac r (s * 10 + k)%Z (d - 1)%Z (S nd)
          else atof_frac r s d nd
      | None => (s, d, nd, z)
      end
  | EmptyString => (s, d, nd, EmptyString)
  end.

(** The exponent digits, the exponent capped at 10000; [valid] records
    that there was one. *)
Fixpoint atof_exp (z : string) (e : Z) (valid : bool) : Z * bool * string :=
  match z with
  | String c r =>
      match digit c with
      | Some k => atof_exp r (if (e <? 10000)%Z then e * 10 + k else 10000)%Z true
      | None => (e, valid, z)
      end
  | EmptyString => (e, valid, EmptyString)
  end.

(** [sqlite3AtoF(z, &r, n, SQLITE_UTF8)]: the return code and [r]. The
    code is positive for a number with nothing but spaces around it (1 for
    an integer literal, 2 or 3 with a point or an exponent), -1 for a
    number with a point or an exponent followed by other text, 0
    otherwise. [r] is [s * 10^e] rounded to the nearest double (SQLite
    computes the product in double-double steps; the model takes the exact
    product). *)
Definition atof (z : string) : Z * real :=
  match skip_spaces z with
  | EmptyString => (0%Z, Fin 0)
  | z1 =>
      let '(neg, z2) := take_sign z1 in
      let '(s, d, nd, z3) := atof_int z2 0 0 0 false in
      let '(s, d, nd, etype, z4) :=
        match z3 with
        | String "." r => let '(s, d, nd, r') := atof_frac r s d nd in (s, d, nd, 2%Z, r')
        | _ => (s, d, nd, 1%Z, z3)
        end in
      let '(e, evalid, etype, z5) :=
        match z4 with
        | String c r =>
            if Ascii.eqb c "e" || Ascii.eqb c "E" then
              match r with
              | EmptyString => (0%Z, false, (etype + 1)%Z, EmptyString)
              | _ => let '(eneg, r1) := take_sign r in
                     let '(e, ev, r2) := atof_exp r1 0 false in
                     ((if eneg then - e else e)%Z, ev, (etype + 1)%Z, skip_spaces r2)
              end
            else (0%Z, true, etype, skip_spaces z4)
        | EmptyString => (0%Z, true, etype, EmptyString)
        end in
      let x := (e + d)%Z in
      let m := if neg then (- s)%Z else s in
      let r := if (s =? 0)%Z then Fin 0
               else round64 (if (0 <=? x)%Z then inject_Z (m * 10 ^ x)
                             else Qmake m (Z.to_pos (10 ^ (- x)))) in
      let rc := if is_empty z5 && (0 <? nd)%nat && evalid then etype
                else if (2 <=? etype)%Z && ((etype =? 3)%Z || evalid) && (0 <? nd)%nat
                then (-1)%Z else 0%Z in
      (rc, r)
  end.

Fixpoint skip_zeros (s : string) (skipped : bool) : bool * string :=
  match s with
  | String "0" r => skip_zeros r true
  | _ => (skipped, s)
  end.

Fixpoint int_digits (s : string) (u : Z) (i : nat) : Z * nat * string :=
  match s with
  | String c r =>
      match digit c with
      | Some k => int_digits r (u * 10 + k)%Z (S i)
      | None => (u, i, s)
      end
  | EmptyString => (u, i, EmptyString)
  end.

(** [sqlite3Atoi64(z, &v, n, SQLITE_UTF8)]: the return code and [v]. 0:
    an integer that fits, with only spaces after it; 1: the same followed
    by other text; -1: no digit; 2: too large, [v] clamped; 3: exactly
    9223372036854775808 without a minus sign. *)
Definition atoi64 (z : string) : Z * Z :=
  let '(neg, z1) := take_sign (skip_spaces z) in
  let '(lead, z2) := skip_zeros z1 false in
  let '(u, i, z3) := int_digits z2 0 0 in
  let v := if (int64_max <? u)%Z then (if neg then int64_min else int64_max)
           else if neg then (- u)%Z else u in
  let rc := if (i =? 0)%nat && negb lead then (-1)%Z
            else if is_empty (skip_spaces z3) then 0%Z else 1%Z in
  if (i <? 19)%nat then (rc, v)
  else match (if (19 <? i)%nat then Gt else Z.compare u (2 ^ 63)) with
       | Lt => (rc, v)
       | Gt => (2%Z, v)
       | Eq => if neg then (rc, v) else (3%Z, v)
       end.

(** *** Arithmetic *)

(** A number as arithmetic yields it. *)
Inductive num := NInt (z : Z) | NReal (r : real).

Definition val_of_num (n : num) : sqlval :=
  match n with NInt z => VInt z | NReal r => VReal r end.

(** [computeNumericType] of a text, as far as arithmetic uses it: the
    integer it counts as, if any; a text that is no number at all counts
    as the integer 0. *)
Definition text_int (s : string) : option Z :=
  let rc := fst (atof s) in
  let '(rci, ix) := atoi64 s in
  if (rc <=? 0)%Z then (if (rc =? 0)%Z && (rci <=? 1)%Z then Some ix else None)
  else if (rc =? 1)%Z && (rci =? 0)%Z then Some ix else None.

(** The operand as an integer, when the integer path applies to it. *)
Definition int_value (v : sqlval) : option Z :=
  match v with
  | VInt z => Some z
  | VText s => text_int s
  | _ => None
  end.

(** [sqlite3VdbeRealValue] *)
Definition real_value (v : sqlval) : real :=
  match v with
  | VInt z => of_Z z
  | VReal r => r
  | VText s => snd (atof s)
  | VNull => Fin 0
  end.

(** A double result: NaN becomes NULL. *)
Definition num_of_float (f : float) : option num := option_map NReal f.

(** [a + b], [a - b], [a * b] ([OP_Add], [OP_Subtract], [OP_Multiply]):
    NULL when an operand is NULL; 64-bit integer arithmetic when both
    operands are integers and the result fits, doubles otherwise. [None]
    is NULL. *)
Definition arith (iop : Z -> Z -> Z) (fop : float -> float -> float) (a b : sqlval)
    : option num :=
  match a, b with
  | VNull, _ | _, VNull => None
  | _, _ =>
      let fp := num_of_float (fop (Some (real_value a)) (Some (real_value b))) in
      match int_value a, int_value b with
      | Some x, Some y => let z := iop x y in if in_int64 z then Some (NInt z) else fp
      | _, _ => fp
      end
  end.

(** Equality in a join or a WHERE clause between values of numeric or
    text columns: NULL equals nothing, integers and doubles compare by
    value, a number never equals a text. *)
Definition sql_eqb (a b : sqlval) : bool :=
  match a, b with
  | VInt x, VInt y => Z.eqb x y
  | VInt x, VReal r | VReal r, VInt x => reqb (Fin (inject_Z x)) r
  | VReal r, VReal s => reqb r s
  | VText s, VText t => String.eqb s t
  | _, _ => false
  end.

(** Equality of GROUP BY keys: as [sql_eqb], and NULLs form one group. *)
Definition group_eqb (a b : sqlval) : bool :=
  match a, b with
  | VNull, VNull => true
  | _, _ => sql_eqb a b
  end.

(** *** Schema *)
Inductive affinity := TEXT | NUMERIC | INTEGER.

Record column := mk_col {
  cname : string;
  caff : affinity;
  cnotnull : bool;
  cpk : bool;           (* PRIMARY KEY *)
  cunique : bool;       (* UNIQUE *)
  cfk : option (string * string);  (* FOREIGN KEY ... REFERENCES t(c) *)
  crating : bool        (* CHECK (rating >= 1 AND rating <= 5) *)
}.

Definition col (n : string) (a : affinity) : column := mk_col n a true false false None false.
Definition pkcol (n : string) (a : affinity) (notnull : bool) : column :=
  mk_col n a notnull true false None false.
Definition fkcol (n : string) (a : affinity) (t c : string) : column :=
  mk_col n a true false false (Some (t, c)) false.

(** The five CREATE TABLE statements of [create_schema]. *)
Definition schema : list (string * list column) := [
  ("customers", [pkcol "customer_id" TEXT false; col "name" TEXT; col "email" TEXT;
                 col "signup_date" TEXT; col "country" TEXT; col "is_premium" TEXT]);
  ("products", [pkcol "product_id" INTEGER false;
                mk_col "sku" TEXT true false true None false;
                col "name" TEXT; col "category" TEXT; col "price" NUMERIC;
                col "cost" NUMERIC; col "created_at" TEXT]);
  ("orders", [pkcol "order_id" INTEGER false; fkcol "customer_id" TEXT "customers" "customer_id";
              col "order_date" TEXT; col "status" TEXT; col "total_amount" NUMERIC;
              col "shipping_country" TEXT]);
  ("order_items", [pkcol "order_item_id" INTEGER false;
                   fkcol "order_id" INTEGER "orders" "order_id";
                   fkcol "product_id" INTEGER "products" "product_id";
                   col "quantity" INTEGER; col "unit_price" NUMERIC]);
  ("reviews", [pkcol "review_id" INTEGER false;
               fkcol "product_id" INTEGER "products" "product_id";
               fkcol "customer_id" TEXT "customers" "customer_id";
               mk_col "rating" INTEGER true false false None true;
               col "review_text" TEXT; col "created_at" TEXT])
].

Definition table_columns (t : string) : option (list column) :=
  option_map snd (find (fun e => String.eqb (fst e) t) schema).

(** *** Database contents

    A row maps column names to values; a database lists the existing
    tables with their rows in insertion order. *)
Definition row := list (string * sqlval).
Definition db := list (string * list row).

Definition get (c : string) (r : row) : sqlval :=
  match find (fun e => String.eqb (fst e) c) r with
  | Some (_, v) => v
  | None => VNull
  end.

Definition set (c : string) (v : sqlval) (r : row) : row :=
  map (fun e => if String.eqb (fst e) c then (c, v) else e) r.

Definition table (t : string) (d : db) : option (list row) :=
  option_map snd (find (fun e => String.eqb (fst e) t) d).

Definition rows_of (t : string) (d : db) : list row :=
  match table t d with Some rs => rs | None => [] end.

Definition put_table (t : string) (rs : list row) (d : db) : db :=
  map (fun e => if String.eqb (fst e) t then (t, rs) else e) d.

Definition drop_table (t : string) (d : db) : db :=
  List.filter (fun e => negb (String.eqb (fst e) t)) d.

(** [sqlite3VdbeIntegerAffinity] on a double stored in a NUMERIC or
    INTEGER column: an integer strictly between the int64 bounds is stored
    as INTEGER. *)
Definition store_real (r : real) : sqlval :=
  match r with
  | Fin q =>
      if (Z.modulo (Qnum q) (Zpos (Qden q)) =? 0)%Z then
        let z := (Qnum q / Zpos (Qden q))%Z in
        if (int64_min <? z)%Z && (z <? int64_max)%Z then VInt z else VReal r
      else VReal r
  | Inf _ => VReal r
  end.

(** [sqlite3RealSameAsInt(r, sqlite3RealToI64(r))]: [r] is 0 or an
    integer in [[-2^51, 2^51)]. *)
Definition real_same_as_int (r : real) : option Z :=
  match r with
  | Fin q =>
      if (Z.modulo (Qnum q) (Zpos (Qden q)) =? 0)%Z then
        let z := (Qnum q / Zpos (Qden q))%Z in
        if (- 2 ^ 51 <=? z)%Z && (z <? 2 ^ 51)%Z then Some z else None
      else None
  | Inf _ => None
  end.

(** [applyNumericAffinity(pRec, 1)] on a text: it stays text unless
    [sqlite3AtoF] reads all of it as a number; an integer literal that
    fits is stored exactly, anything else as the double, made an integer
    when it is one. *)
Definition numeric_affinity (s : string) : sqlval :=
  let '(rc, r) := atof s in
  if (rc <=? 0)%Z then VText s
  else if (rc =? 1)%Z then
    match real_same_as_int r with
    | Some i => VInt i
    | None => let '(rci, ix) := atoi64 s in if (rci =? 0)%Z then VInt ix else store_real r
    end
  else store_real r.

(** Value stored for a bound text parameter, after column affinity. *)
Definition apply_affinity (a : affinity) (v : option string) : sqlval :=
  match v with
  | None => VNull
  | Some s =>
      match a with
      | TEXT => VText s
      | NUMERIC | INTEGER => numeric_affinity s
      end
  end.

Inductive error :=
  | FileNotFoundError (path : string)
  | MissingColumns (cols : list string)
  | ExtraColumns (cols : list string)
  | TypeError          (* set(None): the file has no header line *)
  | KeyError (c : string)
  | IntegrityError
  | DatatypeMismatch
  | OperationalError
  | IntegerOverflow.   (* sqlite3.OperationalError: integer overflow *)

(** The INTEGER values of column [c]. *)
Definition int_keys (c : string) (rs : list row) : list Z :=
  flat_map (fun r => match get c r with VInt z => [z] | _ => [] end) rs.

Fixpoint first_unused (ks : list Z) (k : Z) (fuel : nat) : Z :=
  match fuel with
  | O => k
  | S f => if existsb (Z.eqb k) ks then first_unused ks (k + 1)%Z f else k
  end.

(** [OP_NewRowid]: one more than the largest rowid, 1 in an empty table.
    After the largest possible rowid SQLite tries random ones; the model
    takes the smallest unused positive one. *)
Definition new_rowid (c : string) (rs : list row) : Z :=
  match int_keys c rs with
  | [] => 1%Z
  | k :: ks =>
      let m := fold_left Z.max ks k in
      if (m <? int64_max)%Z then (m + 1)%Z else first_unused (k :: ks) 1 (S (length (k :: ks)))
  end.

(** [CHECK (rating >= 1 AND rating <= 5)]: NULL passes, a text is greater
    than every number. *)
Definition rating_ok (v : sqlval) : bool :=
  match v with
  | VNull => true
  | VInt z => (1 <=? z)%Z && (z <=? 5)%Z
  | VReal r => rle (Fin 1) r && rle r (Fin 5)
  | VText _ => false
  end.

(** The checks SQLite makes when one row is inserted: an INTEGER PRIMARY
    KEY receives the next rowid when NULL and must be an integer, then NOT
    NULL, PRIMARY KEY / UNIQUE, the rating CHECK and the foreign keys
    ([PRAGMA foreign_keys = ON]). *)
Definition check_column (d : db) (rs : list row) (r : row) (c : column) : bool :=
  let v := get (cname c) r in
  (negb (cnotnull c) || match v with VNull => false | _ => true end) &&
  (negb (cpk c || cunique c) ||
     forallb (fun r' => negb (sql_eqb (get (cname c) r') v)) rs) &&
  (negb (crating c) || rating_ok v) &&
  match cfk c with
  | None => true
  | Some (pt, pc) =>
      match v with
      | VNull => true
      | _ => existsb (fun pr => sql_eqb (get pc pr) v) (rows_of pt d)
      end
  end.

(** [INSERT INTO t (cols) VALUES (?, ...)] with one tuple of parameters. *)
Definition insert_row (d : db) (t : string) (cols : list string)
    (vals : list (option string)) : error + db :=
  match table_columns t, table t d with
  | Some tcols, Some rs =>
      let bound := combine cols vals in
      let raw := map (fun c => (cname c,
                       match find (fun e => String.eqb (fst e) (cname c)) bound with
                       | Some (_, v) => apply_affinity (caff c) v
                       | None => VNull
                       end)) tcols in
      (* INTEGER PRIMARY KEY: rowid alias ([OP_MustBeInt]) *)
      let fix_pk r c :=
        if cpk c && match caff c with INTEGER => true | _ => false end then
          match get (cname c) r with
          | VNull => inr (set (cname c) (VInt (new_rowid (cname c) rs)) r)
          | VInt _ => inr r
          | _ => inl DatatypeMismatch
          end
        else inr r in
      match fold_left (fun acc c => match acc with inl e => inl e | inr r => fix_pk r c end)
                      tcols (inr raw) with
      | inl e => inl e
      | inr r =>
          if forallb (check_column d rs r) tcols
          then inr (put_table t (app rs [r]) d)
          else inl IntegrityError
      end
  | _, _ => inl OperationalError
  end.

(** *** The connection: an error-and-state monad

    [work] is what the connection sees (committed data plus the open
    transaction), [committed] the last committed state; [disk] is the
    database file at [DB_PATH] ([None] when there is no file). *)
Inductive target := OnDisk | InMemory.

Record world := mk_world {
  disk : option db;
  committed : db;
  work : db;
  tgt : target
}.

Definition M (A : Type) : Type := world -> (error + A) * world.

Definition ret {A} (a : A) : M A := fun w => (inr a, w).
Definition raise {A} (e : error) : M A := fun w => (inl e, w).
Definition bind {A B} (m : M A) (f : A -> M B) : M B :=
  fun w => match m w with
           | (inl e, w') => (inl e, w')
           | (inr a, w') => f a w'
           end.

Notation "'let*' x ':=' m 'in' k" := (bind m (fun x => k))
  (at level 200, x name, m at level 100, k at level 200).

Definition read : M db := fun w => (inr (work w), w).
Definition write (d : db) : M unit :=
  fun w => (inr tt, mk_world (disk w) (committed w) d (tgt w)).

(** [conn.commit()]: on a file connection the data reaches the file. *)
Definition commit : M unit :=
  fun w => (inr tt, mk_world (match tgt w with OnDisk => Some (work w) | InMemory => disk w end)
                             (work w) (work w) (tgt w)).

(** [conn.rollback()] *)
Definition rollback : M unit :=
  fun w => (inr tt, mk_world (disk w) (committed w) (committed w) (tgt w)).

(** *** [create_schema] *)
Definition drop_order : list string :=
  ["reviews"; "order_items"; "orders"; "products"; "customers"].
Definition create_order : list string :=
  ["customers"; "products"; "orders"; "order_items"; "reviews"].

Definition create_table_if_not_exists (t : string) (d : db) : db :=
  match table t d with Some _ => d | None => app d [(t, [])] end.

(** DDL runs outside a transaction, so each statement is committed at
    once; the final [conn.commit()] covers them all. Indexes have no
    effect on the data and are not modelled. [main] calls [create_schema]
    only on the connection it has just opened, to a new file or to
    [:memory:], so the database is empty: none of the DROP and CREATE
    statements can meet a view, an index or a table of another shape of
    the same name, the cases in which SQLite would fail them. [db] holds
    tables only, and no failure is modelled. *)
Definition create_schema (DRY_RUN : bool) : M unit :=
  let* d := read in
  let d1 := if DRY_RUN then d else fold_left (fun d t => drop_table t d) drop_order d in
  let d2 := fold_left (fun d t => create_table_if_not_exists t d) create_order d1 in
  let* _ := write d2 in
  commit.

(** *** [csv.DictReader] *)

(** The records of each existing file, one list of fields per line of
    the file (a blank line is the empty record). *)
Definition files := string -> option (list (list string)).

Definition pydict := list (string * option string).

Fixpoint dict_set (k : string) (v : option string) (d : pydict) : pydict :=
  match d with
  | [] => [(k, v)]
  | (k', v') :: d' => if String.eqb k k' then (k, v) :: d' else (k', v') :: dict_set k v d'
  end.

Definition dict_get (k : string) (d : pydict) : option (option string) :=
  option_map snd (find (fun e => String.eqb (fst e) k) d).

(** One row of [DictReader]: [dict(zip(fieldnames, row))], then
    [restval = None] for the missing trailing fields (the [restkey] entry
    of a long row has key [None] and is never looked up here). *)
Definition dict_row (fieldnames : list string) (r : list string) : pydict :=
  let d := fold_left (fun d kv => dict_set (fst kv) (Some (snd kv)) d) (combine fieldnames r) [] in
  if (length fieldnames <=? length r)%nat then d
  else fold_left (fun d k => dict_set k None d) (skipn (length r) fieldnames) d.

Fixpoint map_err {A B} (f : A -> error + B) (l : list A) : error + list B :=
  match l with
  | [] => inr []
  | x :: l' => match f x with
               | inl e => inl e
               | inr y => match map_err f l' with inl e => inl e | inr ys => inr (y :: ys) end
               end
  end.

(** [[row[col] for col in expected_columns]] *)
Definition row_values (fieldnames expected : list string) (r : list string)
    : error + list (option string) :=
  let d := dict_row fieldnames r in
  map_err (fun c => match dict_get c d with Some v => inr v | None => inl (KeyError c) end)
          expected.

Definition mem (x : string) (l : list string) : bool := existsb (String.eqb x) l.
Definition set_eqb (a b : list string) : bool :=
  forallb (fun x => mem x b) a && forallb (fun x => mem x a) b.
Definition set_diff (a b : list string) : list string := List.filter (fun x => negb (mem x b)) a.

(** [cursor.executemany(insert_sql, rows)]: rows are inserted one by one
    inside the open transaction; the first failing row raises. *)
Fixpoint executemany (t : string) (cols : list string) (rows : list (list (option string)))
    : M unit :=
  match rows with
  | [] => ret tt
  | vals :: rest =>
      let* d := read in
      match insert_row d t cols vals with
      | inl e => raise e
      | inr d' => let* _ := write d' in executemany t cols rest
      end
  end.

(** [load_csv_to_table] *)
Definition load_csv_to_table (DRY_RUN : bool) (fs : files) (csv_path table_name : string)
    (expected_columns : list string) : M nat :=
  match fs csv_path with
  | None => raise (FileNotFoundError csv_path)
  | Some [] => raise TypeError
  | Some (fieldnames :: body) =>
      let* _ := (if set_eqb fieldnames expected_columns then ret tt
                 else let missing := set_diff expected_columns fieldnames in
                      let extra := set_diff fieldnames expected_columns in
                      match missing, extra with
                      | _ :: _, _ => raise (MissingColumns missing)
                      | [], _ :: _ => raise (ExtraColumns extra)
                      | [], [] => ret tt
                      end) in
      let data := List.filter (fun r => match r with [] => false | _ => true end) body in
      match map_err (row_values fieldnames expected_columns) data with
      | inl e => raise e
      | inr rows_to_insert =>
          let* _ := (if DRY_RUN then ret tt
                     else let* _ := executemany table_name expected_columns rows_to_insert in
                          commit) in
          ret (length rows_to_insert)
      end
  end.

(** *** [fix_order_totals] *)

(** [oi.quantity * oi.unit_price] of one joined item ([None] is NULL). *)
Definition item_amount (oi : row) : option num :=
  arith Z.mul fmul (get "quantity" oi) (get "unit_price" oi).

(** The state of the [SUM] aggregate ([SumCtx] of SQLite's [func.c]). *)
Record sum_ctx := mk_sum_ctx {
  rSum : float;      (* running double sum *)
  rErr : float;      (* its compensation *)
  iSum : Z;          (* exact integer sum while [approx] is false *)
  cnt : nat;         (* non-NULL values seen *)
  approx : bool;     (* the sum is kept in doubles *)
  ovrfl : bool       (* the integer sum overflowed *)
}.

Definition sum_ctx0 : sum_ctx := mk_sum_ctx (Some (Fin 0)) (Some (Fin 0)) 0 0 false false.

(** [kahanBabuskaNeumaierStep] *)
Definition kbn_step (p : sum_ctx) (r : float) : sum_ctx :=
  let s := rSum p in
  let t := fadd s r in
  let err := if flt (option_map fabs r) (option_map fabs s)
             then fadd (rErr p) (fadd (fsub s t) r)
             else fadd (rErr p) (fadd (fsub r t) s) in
  mk_sum_ctx t err (iSum p) (cnt p) (approx p) (ovrfl p).

Definition big_int (i : Z) : bool :=
  (i <=? - 4503599627370496)%Z || (4503599627370496 <=? i)%Z.

(** [kahanBabuskaNeumaierStepInt64]: an integer of [2^52] or more in
    magnitude is added in two parts. *)
Definition kbn_step_int (p : sum_ctx) (i : Z) : sum_ctx :=
  if big_int i then
    let iSm := Z.rem i 16384 in
    kbn_step (kbn_step p (Some (of_Z (i - iSm)))) (Some (of_Z iSm))
  else kbn_step p (Some (of_Z i)).

(** [kahanBabuskaNeumaierInit(p, p->iSum)] followed by [p->approx = 1]. *)
Definition kbn_init (p : sum_ctx) (ov : bool) : sum_ctx :=
  let i := iSum p in
  if big_int i then
    let iSm := Z.rem i 16384 in
    mk_sum_ctx (Some (of_Z (i - iSm))) (Some (of_Z iSm)) i (cnt p) true ov
  else mk_sum_ctx (Some (of_Z i)) (Some (Fin 0)) i (cnt p) true ov.

(** [sumStep] *)
Definition sum_step (p : sum_ctx) (x : option num) : sum_ctx :=
  match x with
  | None => p
  | Some v =>
      let p := mk_sum_ctx (rSum p) (rErr p) (iSum p) (S (cnt p)) (approx p) (ovrfl p) in
      if approx p then
        match v with
        | NInt z => kbn_step_int p z
        | NReal r => kbn_step (mk_sum_ctx (rSum p) (rErr p) (iSum p) (cnt p) true false) (Some r)
        end
      else
        match v with
        | NReal r => kbn_step (kbn_init p (ovrfl p)) (Some r)
        | NInt z =>
            let x := (iSum p + z)%Z in
            if in_int64 x then mk_sum_ctx (rSum p) (rErr p) x (cnt p) false (ovrfl p)
            else kbn_step_int (kbn_init p true) z
        end
  end.

(** [sumFinalize]: NULL for no value; "integer overflow" when the
    integers overflowed and no double came after; the compensated double
    sum, or the exact integer sum. *)
Definition sum_final (p : sum_ctx) : error + option num :=
  if (cnt p =? 0)%nat then inr None
  else if approx p then
    if ovrfl p then inl IntegerOverflow
    else inr (num_of_float (if is_overflow (rErr p) then rSum p else fadd (rSum p) (rErr p)))
  else inr (Some (NInt (iSum p))).

(** [SUM(...)] over the values of one group, in order. *)
Definition sql_sum (xs : list (option num)) : error + option num :=
  sum_final (fold_left sum_step xs sum_ctx0).

(** [ABS(x)]: the integer -2^63 has no absolute value. *)
Definition sql_abs (x : option num) : error + option num :=
  match x with
  | None => inr None
  | Some (NInt z) =>
      if (z =? int64_min)%Z then inl IntegerOverflow else inr (Some (NInt (Z.abs z)))
  | Some (NReal r) => inr (Some (NReal (fabs r)))
  end.

(** [x > y] for a number and a double, by value. *)
Definition num_gt (x : num) (y : real) : bool :=
  match x with
  | NInt z => rlt y (Fin (inject_Z z))
  | NReal r => rlt y r
  end.

Definition order_key (o : row) : sqlval * sqlval := (get "order_id" o, get "total_amount" o).

Definition key_eqb (k k' : sqlval * sqlval) : bool :=
  group_eqb (fst k) (fst k') && group_eqb (snd k) (snd k').

(** The groups of [GROUP BY o.order_id, o.total_amount]. *)
Definition group_keys (orders : list row) : list (sqlval * sqlval) :=
  fold_left (fun acc o => if existsb (key_eqb (order_key o)) acc then acc
                          else app acc [order_key o]) orders [].

Definition rowid_of (oi : row) : Z :=
  match get "order_item_id" oi with VInt z => z | _ => 0%Z end.

Fixpoint insert_by_rowid (r : row) (rs : list row) : list row :=
  match rs with
  | [] => [r]
  | r' :: rs' => if (rowid_of r <=? rowid_of r')%Z then r :: rs else r' :: insert_by_rowid r rs'
  end.

(** The items of an order as the join reads them through
    [idx_order_items_order_id]: in rowid order. *)
Definition order_items_of (items : list row) (o : row) : list row :=
  fold_right insert_by_rowid []
    (List.filter (fun oi => sql_eqb (get "order_id" o) (get "order_id" oi)) items).

(** [COALESCE(SUM(oi.quantity * oi.unit_price), 0)] over the rows of
    [orders o LEFT JOIN order_items oi ON o.order_id = oi.order_id] in
    one group; an order with no item joins one all-NULL item row. *)
Definition calculated_total (orders items : list row) (k : sqlval * sqlval) : error + num :=
  let group := List.filter (fun o => key_eqb (order_key o) k) orders in
  let joined := flat_map (fun o => match order_items_of items o with
                                   | [] => [None]
                                   | ms => map item_amount ms
                                   end) group in
  match sql_sum joined with
  | inl e => inl e
  | inr (Some c) => inr c
  | inr None => inr (NInt 0)
  end.

(** The literal [0.01] *)
Definition tolerance : real := snd (atof "0.01").

(** [HAVING ABS(o.total_amount - calculated) > 0.01]; a NULL comparison
    rejects the group. *)
Definition having (current : sqlval) (calc : num) : error + bool :=
  match sql_abs (arith Z.sub fsub current (val_of_num calc)) with
  | inl e => inl e
  | inr None => inr false
  | inr (Some a) => inr (num_gt a tolerance)
  end.

(** The SELECT row of one group, if the group passes the HAVING clause. *)
Definition group_row (orders items : list row) (k : sqlval * sqlval)
    : error + list (sqlval * sqlval * num) :=
  match calculated_total orders items k with
  | inl e => inl e
  | inr c =>
      match having (snd k) c with
      | inl e => inl e
      | inr true => inr [(fst k, snd k, c)]
      | inr false => inr []
      end
  end.

(** The rows [(order_id, current_total, calculated_total)] of the SELECT;
    an error in any group fails the statement. *)
Definition select_mismatches (d : db) : error + list (sqlval * sqlval * num) :=
  let orders := rows_of "orders" d in
  match map_err (group_row orders (rows_of "order_items" d)) (group_keys orders) with
  | inl e => inl e
  | inr rows => inr (concat rows)
  end.

(** [float(calculated_total)] *)
Definition py_float (c : num) : real :=
  match c with NInt z => of_Z z | NReal r => r end.

(** [ROUND(x, 2)] on a double ([roundFunc]): unchanged beyond [2^52] in
    magnitude; otherwise printed with two decimals, halves away from zero,
    and read back. (SQLite prints from the leading 17 to 19 decimal digits
    of [x]; only a double that close to a half-cent boundary could round
    the other way.) *)
Definition round_half_away2 (q : Q) : Q :=
  if Qle_bool 0 q then Qmake (Qfloor (q * 100 + (1 # 2))) 100
  else Qmake (- Qfloor (- q * 100 + (1 # 2))) 100.

Definition sql_round2 (x : real) : real :=
  match x with
  | Fin q => if Qle_bool (Qabs q) (inject_Z (2 ^ 52)) then round64 (round_half_away2 q) else x
  | Inf _ => x
  end.

(** [UPDATE orders SET total_amount = ROUND(?, 2) WHERE order_id = ?] with
    the parameters [(float(calculated_total), order_id)]. *)
Definition update_total (order_id : sqlval) (calculated_total : real) (d : db) : db :=
  put_table "orders"
    (map (fun o => if sql_eqb (get "order_id" o) order_id
                   then set "total_amount" (store_real (sql_round2 calculated_total)) o else o)
         (rows_of "orders" d)) d.

Definition fix_order_totals (DRY_RUN : bool) : M (nat * nat) :=
  let* d := read in
  match select_mismatches d with
  | inl e => raise e
  | inr mismatches =>
      match mismatches with
      | _ :: _ =>
          if negb DRY_RUN then
            let '(d', fix_count) :=
              fold_left (fun acc m => let '(order_id, _, calculated_total) := m in
                                      (update_total order_id (py_float calculated_total) (fst acc),
                                       S (snd acc)))
                        mismatches (d, 0%nat) in
            let* _ := write d' in
            let* _ := commit in
            ret (length mismatches, fix_count)
          else ret (length mismatches, 0%nat)
      | [] => ret (0%nat, 0%nat)
      end
  end.

(** *** [validate_foreign_keys] *)

(** [SELECT COUNT( * ) FROM child LEFT JOIN parent ON child.fk = parent.pk
    WHERE parent.pk IS NULL] *)
Definition orphan_count (child fk parent pk : string) (d : db) : nat :=
  length (List.filter (fun r => negb (existsb (fun p => sql_eqb (get pk p) (get fk r))
                                              (rows_of parent d)))
                      (rows_of child d)).

Definition fk_checks : list (string * (string * string * string * string)) := [
  ("orders.customer_id", ("orders", "customer_id", "customers", "customer_id"));
  ("order_items.order_id", ("order_items", "order_id", "orders", "order_id"));
  ("order_items.product_id", ("order_items", "product_id", "products", "product_id"));
  ("reviews.product_id", ("reviews", "product_id", "products", "product_id"));
  ("reviews.customer_id", ("reviews", "customer_id", "customers", "customer_id"))
].

Definition validate_foreign_keys : M (list (string * nat)) :=
  let* d := read in
  ret (flat_map (fun e => let '(name, (c, fk, p, pk)) := e in
                          let n := orphan_count c fk p pk d in
                          if (0 <? n)%nat then [(name, n)] else [])
                fk_checks).

(** *** [generate_integrity_report]: what it prints, as a record *)
Record report := mk_report {
  row_counts : list (string * nat);
  null_order_customer : nat;
  null_order_items : nat;
  null_reviews : nat;
  violations : list (string * nat);
  mismatch_count : nat;
  fixed_count : nat
}.

Definition is_null (v : sqlval) : bool := match v with VNull => true | _ => false end.

Definition count_rows (p : row -> bool) (t : string) (d : db) : nat :=
  length (List.filter p (rows_of t d)).

Definition generate_integrity_report (DRY_RUN : bool) : M report :=
  let* d := read in
  let counts := map (fun t => (t, length (rows_of t d))) create_order in
  let n1 := count_rows (fun r => is_null (get "customer_id" r)) "orders" d in
  let n2 := count_rows (fun r => is_null (get "order_id" r) || is_null (get "product_id" r))
                       "order_items" d in
  let n3 := count_rows (fun r => is_null (get "product_id" r) || is_null (get "customer_id" r))
                       "reviews" d in
  let* v := validate_foreign_keys in
  let* mf := fix_order_totals DRY_RUN in
  ret (mk_report counts n1 n2 n3 v (fst mf) (snd mf)).

(** *** [main] *)
Definition load_steps : list (string * string * list string) := [
  ("data/customers.csv", "customers",
     ["customer_id"; "name"; "email"; "signup_date"; "country"; "is_premium"]);
  ("data/products.csv", "products",
     ["product_id"; "sku"; "name"; "category"; "price"; "cost"; "created_at"]);
  ("data/orders.csv", "orders",
     ["order_id"; "customer_id"; "order_date"; "status"; "total_amount"; "shipping_country"]);
  ("data/order_items.csv", "order_items",
     ["order_item_id"; "order_id"; "product_id"; "quantity"; "unit_price"]);
  ("data/reviews.csv", "reviews",
     ["review_id"; "product_id"; "customer_id"; "rating"; "review_text"; "created_at"])
].

Fixpoint load_all (DRY_RUN : bool) (fs : files) (steps : list (string * string * list string))
    : M unit :=
  match steps with
  | [] => ret tt
  | (path, t, cols) :: rest =>
      let* _ := load_csv_to_table DRY_RUN fs path t cols in
      load_all DRY_RUN fs rest
  end.

Definition main_body (DRY_RUN : bool) (fs : files) : M report :=
  let* _ := create_schema DRY_RUN in
  let* _ := load_all DRY_RUN fs load_steps in
  generate_integrity_report DRY_RUN.

(** [main]: the dry run connects to [:memory:]; the real run removes the
    file at [DB_PATH] and connects to a new one. On an exception the
    connection is rolled back and the exception re-raised; [close] drops
    nothing that was committed. Result: the outcome and the file at
    [DB_PATH] afterwards. *)
Definition connect (DRY_RUN : bool) (disk0 : option db) : world :=
  if DRY_RUN then mk_world disk0 [] [] InMemory
  else mk_world (Some []) [] [] OnDisk.

Definition main (DRY_RUN : bool) (fs : files) (disk0 : option db)
    : (error + report) * option db :=
  match main_body DRY_RUN fs (connect DRY_RUN disk0) with
  | (inl e, w) => let '(_, w') := rollback w in (inl e, disk w')
  | (inr r, w) => (inr r, disk w)
  end.

End Ingest.

(* ===================================================================== *)
(** ** Loader: lemmas                                                     *)
(* ===================================================================== *)

Module IngestFacts.
Import PyStr Binary64 Ingest.

Lemma mem_In (x : string) (l : list string) : mem x l = true <-> In x l.
Proof.
  unfold mem. rewrite existsb_exists. split.
  - intros [y [Hy Heq]]. apply String.eqb_eq in Heq. subst. exact Hy.
  - intros H. exists x. split; [exact H | apply String.eqb_refl].
Qed.

Lemma set_eqb_spec (a b : list string) :
  set_eqb a b = true <-> (forall c, In c a <-> In c b).
Proof.
  unfold set_eqb. rewrite andb_true_iff, !forallb_forall. split.
  - intros [H1 H2] c. split; intros Hc.
    + apply mem_In. now apply H1.
    + apply mem_In. now apply H2.
  - intros H. split; intros c Hc; apply mem_In, H; auto; now apply H.
Qed.

Lemma set_diff_nil (a b : list string) :
  set_diff a b = [] -> forall c, In c a -> In c b.
Proof.
  unfold set_diff. intros H c Hc.
  destruct (in_dec String.string_dec c b) as [Hin | Hout]; [exact Hin |].
  assert (In c (List.filter (fun x => negb (mem x b)) a)) as Hf.
  { apply filter_In. split; [exact Hc |].
    destruct (mem c b) eqn:E; [apply mem_In in E; contradiction | reflexivity]. }
  rewrite H in Hf. destruct Hf.
Qed.

(** Errors raised by the field-set check of [load_csv_to_table]. *)
Definition schema_error (e : error) : Prop :=
  match e with MissingColumns _ | ExtraColumns _ => True | _ => False end.

Definition not_schema {A} (s : error + A) : Prop :=
  match s with inl e => ~ schema_error e | inr _ => True end.

Lemma fold_left_not_schema {A B} (f : error + A -> B -> error + A) (l : list B) s :
  (forall s b, not_schema s -> not_schema (f s b)) ->
  not_schema s -> not_schema (fold_left f l s).
Proof.
  intros Hf. revert s. induction l as [|b l IH]; intros s Hs; simpl; auto.
Qed.

Lemma insert_row_no_schema_error d t cols vals :
  not_schema (insert_row d t cols vals).
Proof.
  unfold insert_row.
  destruct (table_columns t) as [tcols|]; destruct (table t d) as [rs|];
    simpl; auto.
  match goal with |- context [fold_left ?f tcols ?i] =>
    assert (Hn : not_schema (fold_left f tcols i)) end.
  { apply fold_left_not_schema; [| exact I].
    intros [e|r] c Hs; simpl; auto.
    repeat match goal with |- context [match ?x with _ => _ end] => destruct x end;
      simpl; auto. }
  revert Hn.
  match goal with |- context [fold_left ?f tcols ?i] => destruct (fold_left f tcols i) end;
    simpl; auto.
  intros _. destruct (forallb _ _); simpl; auto.
Qed.

Lemma executemany_no_schema_error t cols rows w e w' :
  executemany t cols rows w = (inl e, w') -> ~ schema_error e.
Proof.
  revert w. induction rows as [|vals rest IH]; intros w H; simpl in H.
  - inversion H.
  - unfold bind, read in H.
    pose proof (insert_row_no_schema_error (work w) t cols vals) as Hn.
    destruct (insert_row (work w) t cols vals) as [e0|d']; simpl in Hn.
    + unfold raise in H. inversion H; subst. exact Hn.
    + unfold write in H. simpl in H. eapply IH. exact H.
Qed.

Lemma row_values_error h ex r e :
  row_values h ex r = inl e -> ~ schema_error e.
Proof.
  unfold row_values. generalize (dict_row h r) as d. intros d.
  induction ex as [|c ex IHex]; simpl; [discriminate|].
  destruct (dict_get c d); [|intros H; inversion H; subst; simpl; tauto].
  destruct (map_err _ ex) eqn:E2; intros H; inversion H; subst.
  apply IHex. reflexivity.
Qed.

Lemma map_err_row_values_error h ex data e :
  map_err (row_values h ex) data = inl e -> ~ schema_error e.
Proof.
  induction data as [|r data IH]; simpl; [discriminate|].
  destruct (row_values h ex r) as [e0|vs] eqn:Er.
  - intros H. inversion H; subst. eapply row_values_error. exact Er.
  - destruct (map_err (row_values h ex) data); [|discriminate]. exact IH.
Qed.

Lemma dict_get_set (k k' : string) (v : option string) (d : pydict) :
  dict_get k (dict_set k' v d) = if String.eqb k' k then Some v else dict_get k d.
Proof.
  unfold dict_get. induction d as [|[k0 v0] d IH]; simpl.
  - destruct (String.eqb k' k); reflexivity.
  - destruct (String.eqb k' k0) eqn:E1.
    + apply String.eqb_eq in E1. subst k0. simpl.
      destruct (String.eqb k' k); reflexivity.
    + simpl. destruct (String.eqb k0 k) eqn:E2.
      * apply String.eqb_eq in E2. subst k0.
        destruct (String.eqb k' k) eqn:E3; [|reflexivity].
        apply String.eqb_eq in E3. subst. rewrite ?String.eqb_refl in E1. discriminate.
      * exact IH.
Qed.

(** The value of field [c] in record [r] read with header [h]: the
    column of the first occurrence of [c]. *)
Fixpoint field_of (h r : list string) (c : string) : string :=
  match h, r with
  | x :: h', v :: r' => if String.eqb x c then v else field_of h' r' c
  | _, _ => ""
  end.

Lemma mem_cons (c x : string) (l : list string) :
  mem c (x :: l) = String.eqb x c || mem c l.
Proof.
  unfold mem. simpl. f_equal. destruct (String.eqb c x) eqn:E1, (String.eqb x c) eqn:E2;
    auto; [apply String.eqb_eq in E1 | apply String.eqb_eq in E2]; subst;
    rewrite String.eqb_refl in *; discriminate.
Qed.

Lemma dict_fold_combine (h r : list string) (c : string) (d : pydict) :
  List.NoDup h -> length r = length h ->
  dict_get c (fold_left (fun d kv => dict_set (fst kv) (Some (snd kv)) d) (combine h r) d) =
  if mem c h then Some (Some (field_of h r c)) else dict_get c d.
Proof.
  revert r d. induction h as [|x h IH]; intros r d Hnd Hlen.
  - reflexivity.
  - destruct r as [|v r]; [discriminate|]. simpl in Hlen. injection Hlen as Hlen.
    inversion Hnd as [|? ? Hx Hnd']; subst. simpl.
    rewrite (IH r _ Hnd' Hlen), dict_get_set, (String.eqb_sym c x).
    destruct (String.eqb x c) eqn:E; simpl.
    + apply String.eqb_eq in E. subst x.
      destruct (mem c h) eqn:Em; [apply mem_In in Em; contradiction | reflexivity].
    + reflexivity.
Qed.

Lemma dict_row_get (h r : list string) (c : string) :
  List.NoDup h -> length r = length h -> In c h ->
  dict_get c (dict_row h r) = Some (Some (field_of h r c)).
Proof.
  intros Hnd Hlen Hc. unfold dict_row.
  assert (Hle : (length h <=? length r)%nat = true) by (apply Nat.leb_le; lia).
  rewrite Hle, dict_fold_combine by assumption.
  apply mem_In in Hc. rewrite Hc. reflexivity.
Qed.

Lemma field_of_map (l : list string) (f : string -> string) (c : string) :
  In c l -> field_of l (map f l) c = f c.
Proof.
  induction l as [|x l IH]; simpl; [tauto|].
  intros Hc. destruct (String.eqb x c) eqn:E.
  - apply String.eqb_eq in E. subst. reflexivity.
  - destruct Hc as [Hc|Hc]; [subst; rewrite String.eqb_refl in E; discriminate|].
    apply IH, Hc.
Qed.

Lemma map_err_dict_ok (d : pydict) (g : string -> string) (ex : list string) :
  (forall c, In c ex -> dict_get c d = Some (Some (g c))) ->
  map_err (fun c => match dict_get c d with Some v => inr v | None => inl (KeyError c) end) ex =
  inr (map (fun c => Some (g c)) ex).
Proof.
  induction ex as [|c ex IH]; intros H; simpl; [reflexivity|].
  rewrite (H c (or_introl eq_refl)), IH; [reflexivity|].
  intros c' Hc'. apply H. right. exact Hc'.
Qed.

(** *** Reconciliation: lemmas about values and rows *)

Lemma Qeq_bool_sym (p q : Q) : Qeq_bool p q = Qeq_bool q p.
Proof.
  destruct (Qeq_bool p q) eqn:E1, (Qeq_bool q p) eqn:E2; auto.
  - apply Qeq_bool_iff in E1. apply Qeq_bool_neq in E2. exfalso. apply E2. symmetry. exact E1.
  - apply Qeq_bool_iff in E2. apply Qeq_bool_neq in E1. exfalso. apply E1. symmetry. exact E2.
Qed.

Lemma reqb_sym (x y : real) : reqb x y = reqb y x.
Proof.
  destruct x as [p|s], y as [q|t]; simpl; auto using Qeq_bool_sym.
  destruct s, t; reflexivity.
Qed.

Lemma reqb_refl (x : real) : reqb x x = true.
Proof. destruct x as [q|[]]; simpl; auto using Qeq_bool_refl. Qed.

Lemma sql_eqb_sym (a b : sqlval) : sql_eqb a b = sql_eqb b a.
Proof.
  destruct a as [|x|r|s], b as [|y|r'|t]; simpl; auto.
  - apply Z.eqb_sym.
  - apply reqb_sym.
  - apply String.eqb_sym.
Qed.

Lemma sql_eqb_refl (a : sqlval) : a <> VNull -> sql_eqb a a = true.
Proof.
  destruct a as [|x|r|s]; simpl; intros H;
    [congruence | apply Z.eqb_refl | apply reqb_refl | apply String.eqb_refl].
Qed.

Lemma group_eqb_refl (a : sqlval) : group_eqb a a = true.
Proof.
  destruct a as [|x|r|s]; simpl; auto using Z.eqb_refl, reqb_refl, String.eqb_refl.
Qed.

Lemma group_eqb_nonnull (a b : sqlval) : a <> VNull -> group_eqb b a = sql_eqb a b.
Proof.
  intros H. destruct a, b; try congruence; unfold group_eqb; apply sql_eqb_sym.
Qed.

Lemma get_set_other (c c' : string) (v : sqlval) (r : row) :
  c <> c' -> get c (set c' v r) = get c r.
Proof.
  intros Hne. unfold get, set. induction r as [|[k x] r IH]; simpl; auto.
  destruct (String.eqb k c') eqn:E1; simpl.
  - apply String.eqb_eq in E1. subst k.
    destruct (String.eqb c' c) eqn:E2.
    + apply String.eqb_eq in E2. congruence.
    + exact IH.
  - destruct (String.eqb k c); auto.
Qed.

Lemma rows_of_put_table (t : string) (g : row -> row) (d : db) :
  rows_of t (put_table t (map g (rows_of t d)) d) = map g (rows_of t d).
Proof.
  unfold rows_of, table, put_table. induction d as [|[k rs] d IH]; simpl; auto.
  destruct (String.eqb k t) eqn:E; simpl.
  - rewrite String.eqb_refl. reflexivity.
  - rewrite E. exact IH.
Qed.

(** No order id is NULL and no two order rows have equal ids. *)
Fixpoint distinct_ids (os : list row) : bool :=
  match os with
  | [] => true
  | o :: os' =>
      negb (is_null (get "order_id" o)) &&
      forallb (fun o' => negb (sql_eqb (get "order_id" o) (get "order_id" o'))) os' &&
      distinct_ids os'
  end.

Lemma distinct_ids_cons (o : row) (os : list row) :
  distinct_ids (o :: os) = true <->
  get "order_id" o <> VNull /\
  (forall o', In o' os -> sql_eqb (get "order_id" o) (get "order_id" o') = false) /\
  distinct_ids os = true.
Proof.
  simpl. rewrite !andb_true_iff, forallb_forall. split.
  - intros [[H1 H2] H3]. repeat split; auto.
    + destruct (get "order_id" o); simpl in H1; discriminate.
    + intros o' Ho'. apply negb_true_iff, H2, Ho'.
  - intros [H1 [H2 H3]]. repeat split; auto.
    + destruct (get "order_id" o); simpl; congruence.
    + intros o' Ho'. apply negb_true_iff, H2, Ho'.
Qed.

Lemma distinct_ids_app (pre post : list row) :
  distinct_ids (pre ++ post)%list = true -> distinct_ids post = true.
Proof.
  induction pre as [|o pre IH]; simpl; auto.
  intros H. apply IH. apply andb_true_iff in H. tauto.
Qed.

Lemma distinct_ids_nonnull (os : list row) (o : row) :
  distinct_ids os = true -> In o os -> get "order_id" o <> VNull.
Proof.
  induction os as [|o1 os IH]; simpl; [tauto|].
  intros H [<-|Hin]; apply distinct_ids_cons in H; [tauto|].
  apply IH; tauto.
Qed.

(** Two rows of the table with equal ids are the same row, and it occurs
    once. *)
Lemma distinct_ids_split (os : list row) (o : row) :
  distinct_ids os = true -> In o os ->
  exists pre post, os = (pre ++ o :: post)%list /\
    (forall o', In o' pre \/ In o' post -> sql_eqb (get "order_id" o) (get "order_id" o') = false).
Proof.
  induction os as [|o1 os IH]; simpl; [tauto|].
  intros H Hin. pose proof H as H'. apply distinct_ids_cons in H as (Hn & Hne & Hd).
  destruct (sql_eqb (get "order_id" o1) (get "order_id" o)) eqn:E.
  - (* o is o1 *)
    assert (o1 = o) as <-.
    { destruct Hin as [->|Hin]; [reflexivity|]. rewrite Hne in E; [discriminate|exact Hin]. }
    exists [], os. split; [reflexivity|].
    intros o' [[]|Ho']. apply Hne, Ho'.
  - destruct Hin as [->|Hin].
    + rewrite sql_eqb_refl in E by exact Hn. discriminate.
    + destruct (IH Hd Hin) as (pre & post & Heq & Hout).
      exists (o1 :: pre), post. split; [simpl; congruence|].
      intros o' [[<-|Ho']|Ho']; auto.
      rewrite sql_eqb_sym. exact E.
Qed.

Lemma filter_all_false {A} (f : A -> bool) (l : list A) :
  (forall x, In x l -> f x = false) -> List.filter f l = [].
Proof.
  induction l as [|x l IH]; simpl; auto. intros H. rewrite H by auto. apply IH. auto.
Qed.

Lemma flat_map_ext_in {A B} (f g : A -> list B) (l : list A) :
  (forall x, In x l -> f x = g x) -> flat_map f l = flat_map g l.
Proof.
  induction l as [|x l IH]; simpl; auto. intros H. rewrite H, IH; auto.
Qed.

Lemma group_keys_distinct (os : list row) :
  distinct_ids os = true -> group_keys os = map order_key os.
Proof.
  unfold group_keys. intros H.
  enough (forall acc, (forall k o, In k acc -> In o os -> key_eqb (order_key o) k = false) ->
            fold_left (fun acc o => if existsb (key_eqb (order_key o)) acc then acc
                                    else app acc [order_key o]) os acc =
            app acc (map order_key os)) as Hg.
  { apply (Hg []). intros k o []. }
  induction os as [|o os IH]; intros acc Hacc; simpl.
  - rewrite app_nil_r. reflexivity.
  - apply distinct_ids_cons in H as (Hn & Hne & Hd).
    assert (Hex : existsb (key_eqb (order_key o)) acc = false).
    { apply not_true_iff_false. intros Hx. apply existsb_exists in Hx as (k & Hk & Hkk).
      rewrite (Hacc k o Hk (or_introl eq_refl)) in Hkk. discriminate. }
    rewrite Hex, IH; [rewrite <- app_assoc; reflexivity | exact Hd |].
    intros k o' Hk Ho'. apply in_app_or in Hk as [Hk|[<-|[]]].
    + apply Hacc; simpl; auto.
    + unfold key_eqb, order_key; simpl.
      rewrite (group_eqb_nonnull _ _ Hn), Hne by exact Ho'. reflexivity.
Qed.

Lemma filter_group (os : list row) (o : row) :
  distinct_ids os = true -> In o os ->
  List.filter (fun o' => key_eqb (order_key o') (order_key o)) os = [o].
Proof.
  intros Hd Hin. pose proof (distinct_ids_nonnull os o Hd Hin) as Hn.
  destruct (distinct_ids_split os o Hd Hin) as (pre & post & -> & Hout).
  assert (Hf : forall o', In o' pre \/ In o' post -> key_eqb (order_key o') (order_key o) = false).
  { intros o' Ho'. unfold key_eqb, order_key; simpl.
    rewrite (group_eqb_nonnull _ _ Hn), Hout by exact Ho'. reflexivity. }
  rewrite List.filter_app. simpl.
  rewrite (filter_all_false _ pre), (filter_all_false _ post) by (intros; apply Hf; auto).
  unfold key_eqb. rewrite !group_eqb_refl. reflexivity.
Qed.

Lemma map_err_map {A B C} (f : B -> error + C) (g : A -> B) (l : list A) :
  map_err f (map g l) = map_err (fun x => f (g x)) l.
Proof. induction l as [|x l IH]; simpl; [reflexivity|]. rewrite IH. reflexivity. Qed.

Lemma map_err_ext_in {A B} (f g : A -> error + B) (l : list A) :
  (forall x, In x l -> f x = g x) -> map_err f l = map_err g l.
Proof.
  induction l as [|x l IH]; intros H; simpl; [reflexivity|].
  rewrite H by (left; reflexivity). rewrite IH by (intros; apply H; right; assumption).
  reflexivity.
Qed.

(** An error of [map_err] is the error of one of the elements. *)
Lemma map_err_inl {A B} (f : A -> error + B) (l : list A) (e : error) :
  map_err f l = inl e -> exists x, In x l /\ f x = inl e.
Proof.
  induction l as [|x l IH]; simpl; [discriminate|].
  destruct (f x) as [e0|y] eqn:Ef.
  - intros H. inversion H; subst. exists x. auto.
  - destruct (map_err f l); [|discriminate]. intros H.
    destruct (IH H) as (x' & Hx' & Hf). exists x'. auto.
Qed.

Lemma sql_sum_error (xs : list (option num)) (e : error) :
  sql_sum xs = inl e -> e = IntegerOverflow.
Proof.
  unfold sql_sum, sum_final. destruct (fold_left sum_step xs sum_ctx0) as [rs re i n ap ov].
  simpl. destruct (n =? 0)%nat, ap, ov; intros H; inversion H; reflexivity.
Qed.

Lemma having_error (current : sqlval) (calc : num) (e : error) :
  having current calc = inl e -> e = IntegerOverflow.
Proof.
  unfold having, sql_abs.
  destruct (arith Z.sub fsub current (val_of_num calc)) as [[z|r]|]; [| discriminate | discriminate].
  destruct (z =? int64_min)%Z; intros H; inversion H; reflexivity.
Qed.

Lemma group_row_error (orders items : list row) (k : sqlval * sqlval) (e : error) :
  group_row orders items k = inl e -> e = IntegerOverflow.
Proof.
  unfold group_row, calculated_total.
  destruct (sql_sum _) as [e0|[c|]] eqn:Es.
  - intros H. inversion H; subst. exact (sql_sum_error _ _ Es).
  - destruct (having (snd k) c) as [e1|[]] eqn:Eh; intros H; inversion H; subst.
    exact (having_error _ _ _ Eh).
  - destruct (having (snd k) (NInt 0)) as [e1|[]] eqn:Eh; intros H; inversion H; subst.
    exact (having_error _ _ _ Eh).
Qed.

(** The only error the reconciliation query raises is SQLite's "integer
    overflow". *)
Lemma select_mismatches_error (d : db) (e : error) :
  select_mismatches d = inl e -> e = IntegerOverflow.
Proof.
  unfold select_mismatches.
  destruct (map_err _ _) as [e0|rows] eqn:Em; intros H; inversion H; subst.
  apply map_err_inl in Em as (k & _ & Hk). exact (group_row_error _ _ _ _ Hk).
Qed.

(** The order total recomputed from its items:
    [COALESCE(SUM(quantity * unit_price), 0)] over its items in rowid
    order. *)
Definition recomputed_total (items : list row) (o : row) : error + num :=
  match sql_sum (map item_amount (order_items_of items o)) with
  | inl e => inl e
  | inr (Some c) => inr c
  | inr None => inr (NInt 0)
  end.

(** The HAVING test of the group of order [o]: an error, [None] when the
    stored total passes within the tolerance, or [Some c] when the order
    is flagged, [c] being its recomputed total. *)
Definition order_check (items : list row) (o : row) : error + option num :=
  match recomputed_total items o with
  | inl e => inl e
  | inr c =>
      match having (get "total_amount" o) c with
      | inl e => inl e
      | inr true => inr (Some c)
      | inr false => inr None
      end
  end.

Definition flagged (items : list row) (o : row) : bool :=
  match order_check items o with inr (Some _) => true | _ => false end.

Lemma order_check_error (items : list row) (o : row) (e : error) :
  order_check items o = inl e -> e = IntegerOverflow.
Proof.
  unfold order_check, recomputed_total.
  destruct (sql_sum _) as [e0|[c|]] eqn:Es.
  - intros H. inversion H; subst. exact (sql_sum_error _ _ Es).
  - destruct (having _ c) as [e1|[]] eqn:Eh; intros H; inversion H; subst.
    exact (having_error _ _ _ Eh).
  - destruct (having _ (NInt 0)) as [e1|[]] eqn:Eh; intros H; inversion H; subst.
    exact (having_error _ _ _ Eh).
Qed.

Lemma calculated_total_distinct (os items : list row) (o : row) :
  distinct_ids os = true -> In o os ->
  calculated_total os items (order_key o) = recomputed_total items o.
Proof.
  intros Hd Hin. unfold calculated_total, recomputed_total.
  rewrite (filter_group os o Hd Hin). cbn [flat_map]. rewrite app_nil_r.
  destruct (order_items_of items o); reflexivity.
Qed.

(** The SELECT row of the group of order [o]. *)
Definition order_row (items : list row) (o : row) : error + list (sqlval * sqlval * num) :=
  match order_check items o with
  | inl e => inl e
  | inr (Some c) => inr [(get "order_id" o, get "total_amount" o, c)]
  | inr None => inr []
  end.

Lemma select_mismatches_distinct (d : db) :
  let os := rows_of "orders" d in
  let items := rows_of "order_items" d in
  distinct_ids os = true ->
  select_mismatches d =
  match map_err (order_row items) os with
  | inl e => inl e
  | inr rows => inr (concat rows)
  end.
Proof.
  intros os items Hd. unfold select_mismatches. fold os items.
  rewrite group_keys_distinct by exact Hd. rewrite map_err_map.
  rewrite (map_err_ext_in _ (order_row items)); [reflexivity|].
  intros o Hin. unfold group_row, order_row, order_check.
  rewrite (calculated_total_distinct os items o Hd Hin). cbn [fst snd order_key].
  destruct (recomputed_total items o) as [e|c]; [reflexivity|].
  destruct (having (get "total_amount" o) c) as [e|[]]; reflexivity.
Qed.

(** The mismatch rows of the orders [os'], as the SELECT lists them. *)
Definition mismatch_rows (items : list row) (os' : list row) : list (sqlval * sqlval * num) :=
  flat_map (fun o => match order_check items o with
                     | inr (Some c) => [(get "order_id" o, get "total_amount" o, c)]
                     | _ => []
                     end) os'.

Lemma map_err_order_row (items os : list row) :
  map_err (order_row items) os =
  match map_err (order_check items) os with
  | inl e => inl e
  | inr _ => inr (map (fun o => match order_check items o with
                                | inr (Some c) => [(get "order_id" o, get "total_amount" o, c)]
                                | _ => []
                                end) os)
  end.
Proof.
  induction os as [|o os IH]; simpl; [reflexivity|].
  unfold order_row at 1. rewrite IH.
  destruct (order_check items o) as [e|[c|]]; [reflexivity| |];
    destruct (map_err (order_check items) os); reflexivity.
Qed.

(** The effect of one [UPDATE ... WHERE order_id = ?] on a single row. *)
Definition apply_fix (m : sqlval * sqlval * num) (r : row) : row :=
  if sql_eqb (get "order_id" r) (fst (fst m))
  then set "total_amount" (store_real (sql_round2 (py_float (snd m)))) r else r.

Lemma fold_fix_rows (ms : list (sqlval * sqlval * num)) (d : db) (k : nat) :
  let res := fold_left (fun acc m => let '(order_id, _, calculated_total) := m in
                                     (update_total order_id (py_float calculated_total) (fst acc),
                                      S (snd acc)))
                       ms (d, k) in
  rows_of "orders" (fst res) =
    map (fun r => fold_left (fun r m => apply_fix m r) ms r) (rows_of "orders" d) /\
  snd res = (k + length ms)%nat.
Proof.
  revert d k. induction ms as [|[[i c0] c] ms IH]; intros d k; simpl.
  - split; [|lia]. symmetry. apply List.map_id.
  - destruct (IH (update_total i (py_float c) d) (S k)) as [H1 H2]. split; [|lia].
    rewrite H1. unfold update_total. rewrite rows_of_put_table, map_map. reflexivity.
Qed.

Lemma rows_of_put_table_other (t t' : string) (rs : list row) (d : db) :
  t <> t' -> rows_of t' (put_table t rs d) = rows_of t' d.
Proof.
  intros Hne. unfold rows_of, table, put_table. induction d as [|[k r] d IH]; simpl; auto.
  destruct (String.eqb k t) eqn:E; simpl.
  - apply String.eqb_eq in E. subst k.
    destruct (String.eqb t t') eqn:E2; [apply String.eqb_eq in E2; congruence|].
    exact IH.
  - destruct (String.eqb k t'); auto.
Qed.

Lemma fold_fix_items (ms : list (sqlval * sqlval * num)) (d : db) (k : nat) :
  rows_of "order_items"
    (fst (fold_left (fun acc m => let '(order_id, _, calculated_total) := m in
                                  (update_total order_id (py_float calculated_total) (fst acc),
                                   S (snd acc)))
                    ms (d, k))) = rows_of "order_items" d.
Proof.
  revert d k. induction ms as [|[[i c0] c] ms IH]; intros d k; simpl; auto.
  rewrite IH. unfold update_total. apply rows_of_put_table_other. discriminate.
Qed.

Lemma get_id_apply_fix (m : sqlval * sqlval * num) (r : row) :
  get "order_id" (apply_fix m r) = get "order_id" r.
Proof.
  unfold apply_fix. destruct (sql_eqb _ _); auto. apply get_set_other. discriminate.
Qed.

Lemma fold_fix_miss (ms : list (sqlval * sqlval * num)) (r : row) :
  (forall m, In m ms -> sql_eqb (get "order_id" r) (fst (fst m)) = false) ->
  fold_left (fun r m => apply_fix m r) ms r = r.
Proof.
  revert r. induction ms as [|m ms IH]; intros r H; simpl; auto.
  unfold apply_fix at 2. rewrite H by (left; reflexivity).
  apply IH. intros m' Hm'. apply H. right. exact Hm'.
Qed.

Lemma mismatch_rows_ids (items os' : list row) (m : sqlval * sqlval * num) :
  In m (mismatch_rows items os') -> exists o, In o os' /\ fst (fst m) = get "order_id" o.
Proof.
  unfold mismatch_rows. intros Hm. apply in_flat_map in Hm as (o & Ho & Hm).
  destruct (order_check items o) as [|[c|]]; [destruct Hm | | destruct Hm].
  destruct Hm as [<-|[]]. exists o. auto.
Qed.

Lemma mismatch_rows_length (items os' : list row) :
  length (mismatch_rows items os') = length (List.filter (flagged items) os').
Proof.
  unfold mismatch_rows, flagged. induction os' as [|o os' IH]; simpl; auto.
  destruct (order_check items o) as [|[c|]]; simpl; auto.
Qed.

(** Each order row goes through every UPDATE; only the one for its own id
    touches it. *)
Lemma fold_fix_row (os items : list row) (o : row) :
  distinct_ids os = true -> In o os ->
  fold_left (fun r m => apply_fix m r) (mismatch_rows items os) o =
  match order_check items o with
  | inr (Some c) => set "total_amount" (store_real (sql_round2 (py_float c))) o
  | _ => o
  end.
Proof.
  intros Hd Hin. pose proof (distinct_ids_nonnull os o Hd Hin) as Hn.
  destruct (distinct_ids_split os o Hd Hin) as (pre & post & Heq & Hout).
  assert (Hmiss : forall os', (forall o', In o' os' -> In o' pre \/ In o' post) ->
            forall r, get "order_id" r = get "order_id" o ->
            fold_left (fun r m => apply_fix m r) (mismatch_rows items os') r = r).
  { intros os' Hsub r Hr. apply fold_fix_miss. intros m Hm.
    apply mismatch_rows_ids in Hm as (o' & Ho' & ->). rewrite Hr. apply Hout, Hsub, Ho'. }
  rewrite Heq. unfold mismatch_rows at 1. rewrite flat_map_app. simpl.
  fold (mismatch_rows items pre). fold (mismatch_rows items post).
  rewrite fold_left_app.
  rewrite (Hmiss pre) by auto.
  destruct (order_check items o) as [e|[c|]]; simpl.
  - apply (Hmiss post); auto.
  - rewrite (Hmiss post).
    + unfold apply_fix; simpl. rewrite sql_eqb_refl by exact Hn. reflexivity.
    + auto.
    + rewrite get_id_apply_fix. reflexivity.
  - apply (Hmiss post); auto.
Qed.

(** *** Frames of the loader steps *)

(** The database file, the committed state and the target of a
    connection: only [commit] and [rollback] change them. *)
Definition frame (w : world) : option db * db * target := (disk w, committed w, tgt w).
(** The file holds what the connection sees, and nothing is pending. *)
Definition clean (w : world) : Prop :=
  tgt w = OnDisk /\ disk w = Some (work w) /\ committed w = work w.

Lemma executemany_frame (t : string) (cols : list string)
    (rows : list (list (option string))) (w : world) :
  frame (snd (executemany t cols rows w)) = frame w.
Proof.
  revert w. induction rows as [|vals rows IH]; intros w; simpl; auto.
  unfold bind, read. simpl. destruct (insert_row (work w) t cols vals) as [e|d']; simpl; auto.
  unfold bind, write. simpl. rewrite IH. reflexivity.
Qed.

(** The three ways one load step can end: an error before any insert
    with the connection untouched, an error of [executemany], or the
    inserts followed by [commit]. *)
Lemma load_step_cases (fs : files) (p t : string) (cols : list string) (w : world) :
  (exists e, load_csv_to_table false fs p t cols w = (inl e, w)) \/
  (exists rows e w1, load_csv_to_table false fs p t cols w = (inl e, w1) /\
                     executemany t cols rows w = (inl e, w1)) \/
  (exists rows n w1, load_csv_to_table false fs p t cols w = (inr n, snd (commit w1)) /\
                     executemany t cols rows w = (inr tt, w1)).
Proof.
  unfold load_csv_to_table.
  destruct (fs p) as [[|fieldnames body]|]; [left; eexists; reflexivity | | left; eexists; reflexivity].
  match goal with |- context [bind ?c _ w] => set (chk := c) end.
  assert (Hchk : exists r, chk w = (r, w)).
  { subst chk. destruct (set_eqb fieldnames cols); [eexists; reflexivity|].
    destruct (set_diff cols fieldnames), (set_diff fieldnames cols); eexists; reflexivity. }
  destruct Hchk as [[e|[]] Hchk]; unfold bind at 1; rewrite Hchk; [left; eexists; reflexivity|].
  cbv beta.
  destruct (map_err _ _) as [e|rows]; [left; eexists; reflexivity|].
  unfold bind in *. try rewrite Hchk. destruct (executemany t cols rows w) as [[e|[]] w1] eqn:Ex.
  - right; left. exists rows, e, w1. split; [reflexivity|exact Ex].
  - right; right. exists rows. unfold commit, ret. simpl. do 2 eexists. split; [reflexivity|exact Ex].
Qed.

Lemma load_step_error_frame (fs : files) (p t : string) (cols : list string)
    (w w1 : world) (e : error) :
  load_csv_to_table false fs p t cols w = (inl e, w1) -> frame w1 = frame w.
Proof.
  intros H.
  destruct (load_step_cases fs p t cols w) as [[e' H']|[(rows & e' & w' & H' & Hx)|(rows & n & w' & H' & Hx)]];
    rewrite H' in H; inversion H; subst.
  - reflexivity.
  - pose proof (executemany_frame t cols rows w) as Hf. rewrite Hx in Hf. exact Hf.
Qed.

Lemma load_step_ok_clean (fs : files) (p t : string) (cols : list string)
    (w w1 : world) (n : nat) :
  tgt w = OnDisk -> load_csv_to_table false fs p t cols w = (inr n, w1) -> clean w1.
Proof.
  intros Ht H.
  destruct (load_step_cases fs p t cols w) as [[e' H']|[(rows & e' & w' & H' & Hx)|(rows & m & w' & H' & Hx)]];
    rewrite H' in H; inversion H; subst.
  pose proof (executemany_frame t cols rows w) as Hf. rewrite Hx in Hf.
  unfold frame in Hf. simpl in Hf. inversion Hf as [[Hd Hc Htg]].
  unfold clean, commit. simpl. rewrite Htg, Ht. auto.
Qed.

Lemma load_all_ok_clean (fs : files) (steps : list (string * string * list string))
    (w w1 : world) (u : unit) :
  clean w -> load_all false fs steps w = (inr u, w1) -> clean w1.
Proof.
  revert w. induction steps as [|[[p t] cols] steps IH]; intros w Hc H; simpl in H.
  - unfold ret in H. inversion H; subst. exact Hc.
  - unfold bind in H. destruct (load_csv_to_table false fs p t cols w) as [[e|n] w'] eqn:E;
      [discriminate|].
    apply (IH w'); [|exact H]. apply (load_step_ok_clean fs p t cols w w' n); [apply Hc|exact E].
Qed.

(** A failing [load_all] failed at some step [k]: the steps before it
    ran to completion, and step [k] raised the error. *)
Lemma load_all_error (fs : files) (steps : list (string * string * list string))
    (w w1 : world) (e : error) :
  load_all false fs steps w = (inl e, w1) ->
  exists k w2, (k < length steps)%nat /\
    load_all false fs (firstn k steps) w = (inr tt, w2) /\
    match nth_error steps k with
    | Some (p, t, cols) => load_csv_to_table false fs p t cols w2 = (inl e, w1)
    | None => False
    end.
Proof.
  revert w. induction steps as [|[[p t] cols] steps IH]; intros w H; simpl in H.
  - discriminate.
  - unfold bind in H. destruct (load_csv_to_table false fs p t cols w) as [[e'|n] w'] eqn:E.
    + inversion H; subst. exists 0%nat, w. simpl. split; [lia|]. split; [reflexivity|exact E].
    + destruct (IH w' H) as (k & w2 & Hk & Hpre & Hstep).
      exists (S k), w2. simpl. split; [lia|]. split; [|exact Hstep].
      unfold bind. rewrite E. exact Hpre.
Qed.

Lemma create_schema_clean (w : world) :
  tgt w = OnDisk -> exists ws, create_schema false w = (inr tt, ws) /\ clean ws.
Proof.
  intros Ht. unfold create_schema, bind, read, write, commit. simpl.
  eexists. split; [reflexivity|].
  unfold clean. simpl. rewrite Ht. auto.
Qed.

Lemma fix_order_totals_error (DRY_RUN : bool) (w w' : world) (e : error) :
  fix_order_totals DRY_RUN w = (inl e, w') -> e = IntegerOverflow /\ w' = w.
Proof.
  unfold fix_order_totals, bind, read.
  destruct (select_mismatches (work w)) as [e0|ms] eqn:E.
  - unfold raise. intros H. inversion H; subst.
    split; [exact (select_mismatches_error _ _ E) | reflexivity].
  - destruct ms as [|m ms]; [unfold ret; discriminate|].
    destruct DRY_RUN; simpl; [unfold ret; discriminate|].
    match goal with |- context [fold_left ?f ?l ?a] => destruct (fold_left f l a) end.
    unfold write, commit, ret. simpl. discriminate.
Qed.

(** The report fails only on SQLite's "integer overflow" in the
    reconciliation query, and then it has changed nothing. *)
Lemma generate_integrity_report_error (DRY_RUN : bool) (w w' : world) (e : error) :
  generate_integrity_report DRY_RUN w = (inl e, w') -> e = IntegerOverflow /\ w' = w.
Proof.
  unfold generate_integrity_report, validate_foreign_keys, bind, read, ret.
  cbn beta iota.
  destruct (fix_order_totals DRY_RUN w) as [[e0|mf] w1] eqn:E; intros H; inversion H; subst.
  exact (fix_order_totals_error _ _ _ _ E).
Qed.

(** In the dry run a load step never changes the connection. *)
Lemma load_step_dry (fs : files) (p t : string) (cols : list string) (w : world) :
  snd (load_csv_to_table true fs p t cols w) = w.
Proof.
  unfold load_csv_to_table.
  destruct (fs p) as [[|fieldnames body]|]; [reflexivity | | reflexivity].
  match goal with |- context [bind ?c _ w] => set (chk := c) end.
  assert (Hchk : exists r, chk w = (r, w)).
  { subst chk. destruct (set_eqb fieldnames cols); [eexists; reflexivity|].
    destruct (set_diff cols fieldnames), (set_diff fieldnames cols); eexists; reflexivity. }
  destruct Hchk as [[e|[]] Hchk]; unfold bind; rewrite Hchk; [reflexivity|].
  destruct (map_err _ _); reflexivity.
Qed.

Lemma load_all_dry (fs : files) (steps : list (string * string * list string)) (w : world) :
  snd (load_all true fs steps w) = w.
Proof.
  revert w. induction steps as [|[[p t] cols] steps IH]; intros w; simpl; [reflexivity|].
  unfold bind. pose proof (load_step_dry fs p t cols w) as H.
  destruct (load_csv_to_table true fs p t cols w) as [[e|n] w']; simpl in H; subst; auto.
Qed.

(** The five empty tables [create_schema] makes on a new connection. *)
Definition empty_schema : db :=
  fold_left (fun d t => create_table_if_not_exists t d) create_order [].

(** The report of the dry run: the queries run on the empty tables. *)
Definition dry_report : report :=
  mk_report (map (fun t => (t, 0%nat)) create_order) 0 0 0 [] 0 0.

Lemma dry_run_report (disk0 : option db) :
  generate_integrity_report true (mk_world disk0 empty_schema empty_schema InMemory) =
  (inr dry_report, mk_world disk0 empty_schema empty_schema InMemory).
Proof. reflexivity. Qed.

(** A record of a file with header [h], rewritten in the column order
    [expected]. *)
Definition reorder (h expected r : list string) : list string :=
  map (field_of h r) expected.

Lemma rows_permuted (h expected : list string) (rows : list (list string)) :
  List.NoDup h -> List.NoDup expected -> (forall c, In c expected -> In c h) ->
  length h = length expected ->
  Forall (fun r => length r = length h) rows ->
  map_err (row_values h expected)
          (List.filter (fun r => match r with [] => false | _ => true end) rows) =
  map_err (row_values expected expected)
          (List.filter (fun r => match r with [] => false | _ => true end)
                       (map (reorder h expected) rows)).
Proof.
  intros Hh He Hin Hlen. induction rows as [|r rows IH]; intros Hall; [reflexivity|].
  inversion Hall as [|? ? Hr Hall']; subst. simpl.
  assert (Hrv : row_values h expected r = inr (map (fun c => Some (field_of h r c)) expected)).
  { unfold row_values. apply map_err_dict_ok. intros c Hc.
    apply dict_row_get; auto. }
  assert (Hrv' : row_values expected expected (reorder h expected r) =
                 inr (map (fun c => Some (field_of h r c)) expected)).
  { unfold row_values. apply map_err_dict_ok. intros c Hc.
    rewrite dict_row_get; auto.
    - unfold reorder. rewrite field_of_map; auto.
    - unfold reorder. rewrite length_map. reflexivity. }
  assert (Hnb : match r with [] => false | _ => true end =
                match reorder h expected r with [] => false | _ => true end).
  { unfold reorder. destruct r as [|x r'], expected as [|y e']; simpl in *; auto; lia. }
  rewrite <- Hnb. destruct r as [|x r'].
  - apply IH, Hall'.
  - simpl. rewrite Hrv, Hrv', IH by exact Hall'. reflexivity.
Qed.


(** The connection after [create_schema] and the first [k] load steps,
    in mutating mode, started from the file [disk0]. *)
Definition prefix_run (fs : files) (disk0 : option db) (k : nat) : (error + unit) * world :=
  (let* _ := create_schema false in load_all false fs (firstn k load_steps))
    (connect false disk0).

End IngestFacts.

(* ===================================================================== *)
(** ** Loader: concrete input files                                      *)
(* ===================================================================== *)

Module IngestScenarios.
Import Binary64 Ingest IngestFacts.

(** The files of a directory, given as (path, records) entries; the
    first record of each file is its header. *)
Definition csv_files (entries : list (string * list (list string))) : files :=
  fun p => option_map snd (find (fun e => String.eqb (fst e) p) entries).

Definition header (t : string) : list string :=
  match find (fun e => let '(_, t', _) := e in String.eqb t' t) load_steps with
  | Some (_, _, cols) => cols
  | None => []
  end.

Definition customers_csv : list (list string) :=
  [header "customers"; ["CUST-1"; "Ann Lee"; "ann@example.com"; "2024-01-05"; "US"; "True"]].

Definition products_csv (price : string) : list (list string) :=
  [header "products"; ["1"; "SKU-00001-AB-0001"; "Desk Lamp"; "Home"; price; "20.00"; "2024-01-02"]].

Definition orders_csv (total : string) : list (list string) :=
  [header "orders"; ["1"; "CUST-1"; "2024-02-01"; "paid"; total; "US"]].

Definition order_items_csv (price : string) : list (list string) :=
  [header "order_items"; ["1"; "1"; "1"; "1"; price]].

Definition reviews_csv : list (list string) :=
  [header "reviews"; ["1"; "1"; "CUST-1"; "5"; "Great"; "2024-03-01"]].

(** One order stored with total 99.99 whose single item is 1 x 50.00. *)
Definition fs_mismatch : files :=
  csv_files [("data/customers.csv", customers_csv);
             ("data/products.csv", products_csv "50.00");
             ("data/orders.csv", orders_csv "99.99");
             ("data/order_items.csv", order_items_csv "50.00");
             ("data/reviews.csv", reviews_csv)].

(** One order stored with total 1.00 whose single item is 1 x 0.123. *)
Definition fs_fine_price : files :=
  csv_files [("data/customers.csv", customers_csv);
             ("data/products.csv", products_csv "0.123");
             ("data/orders.csv", orders_csv "1.00");
             ("data/order_items.csv", order_items_csv "0.123");
             ("data/reviews.csv", reviews_csv)].

(** One order stored with total 1.00 whose single item is 1 x 0.99. *)
Definition fs_one_cent : files :=
  csv_files [("data/customers.csv", customers_csv);
             ("data/products.csv", products_csv "0.99");
             ("data/orders.csv", orders_csv "1.00");
             ("data/order_items.csv", order_items_csv "0.99");
             ("data/reviews.csv", reviews_csv)].

(** One order stored with total -9223372036854775808 and no item. *)
Definition fs_overflow : files :=
  csv_files [("data/customers.csv", customers_csv);
             ("data/products.csv", products_csv "50.00");
             ("data/orders.csv", orders_csv "-9223372036854775808");
             ("data/order_items.csv", [header "order_items"]);
             ("data/reviews.csv", reviews_csv)].

(** A valid customers file, and no products file. *)
Definition fs_no_products : files :=
  csv_files [("data/customers.csv", customers_csv)].

(** The orders file lacks the [shipping_country] column. *)
Definition fs_orders_no_country : files :=
  csv_files [("data/customers.csv", customers_csv);
             ("data/products.csv", products_csv "50.00");
             ("data/orders.csv",
                [["order_id"; "customer_id"; "order_date"; "status"; "total_amount"];
                 ["1"; "CUST-1"; "2024-02-01"; "paid"; "99.99"]])].

(** The orders file with its columns in another order. *)
Definition orders_permuted_header : list string :=
  ["shipping_country"; "total_amount"; "status"; "order_date"; "customer_id"; "order_id"].

Definition fs_orders_permuted : files :=
  csv_files [("data/orders.csv",
                [orders_permuted_header; ["US"; "99.99"; "paid"; "2024-02-01"; "CUST-1"; "1"]])].

(** The same orders file with the canonical header. *)
Definition fs_orders_canonical : files :=
  csv_files [("data/orders.csv",
                [header "orders"; ["1"; "CUST-1"; "2024-02-01"; "paid"; "99.99"; "US"]])].

(** The connection after the schema is created and the five files are
    loaded, in mutating mode. *)
Definition loaded_world (fs : files) : world :=
  snd ((let* _ := create_schema false in load_all false fs load_steps) (connect false None)).

End IngestScenarios.

(* ===================================================================== *)
(** ** Loader: claims                                                     *)
(* ===================================================================== *)

Module IngestClaims.
Import PyStr Binary64 Ingest IngestFacts IngestScenarios.

(** C5: in [load_csv_to_table], a header whose field set differs from the
    expected one raises [ValueError] (missing columns first, else extra
    columns) and leaves the store exactly as it was, so no row of that
    table is persisted; a header with exactly the expected field set never
    raises that error. *)
Theorem C5_field_set_mismatch_is_fatal (DRY_RUN : bool) (fs : files)
    (path tname : string) (expected fieldnames : list string)
    (body : list (list string)) (w : world) :
  fs path = Some (fieldnames :: body) ->
  ((~ forall c, In c fieldnames <-> In c expected) ->
     load_csv_to_table DRY_RUN fs path tname expected w =
       (inl (match set_diff expected fieldnames with
             | [] => ExtraColumns (set_diff fieldnames expected)
             | m => MissingColumns m
             end), w)) /\
  ((forall c, In c fieldnames <-> In c expected) ->
     forall e w', load_csv_to_table DRY_RUN fs path tname expected w = (inl e, w') ->
                  ~ schema_error e).
Proof.
  intros Hfs. unfold load_csv_to_table. rewrite Hfs. split.
  - intros Hne.
    destruct (set_eqb fieldnames expected) eqn:E.
    { exfalso. apply Hne. exact (proj1 (set_eqb_spec _ _) E). }
    destruct (set_diff expected fieldnames) as [|m ms] eqn:Em;
      destruct (set_diff fieldnames expected) as [|x xs] eqn:Ex;
      try reflexivity.
    exfalso. apply Hne. intros c. split.
    + apply set_diff_nil. exact Ex.
    + apply set_diff_nil. exact Em.
  - intros Heq e w' H.
    rewrite (proj2 (set_eqb_spec fieldnames expected) Heq) in H.
    simpl in H.
    destruct (map_err _ _) as [e0|rows] eqn:Emap.
    + unfold raise in H. inversion H; subst. eapply map_err_row_values_error. exact Emap.
    + destruct DRY_RUN; simpl in H.
      * discriminate.
      * unfold bind, ret, commit in H. simpl in H.
        destruct (executemany tname expected rows w) as [[e1|u] w1] eqn:Ex;
          simpl in H; inversion H; subst.
        eapply executemany_no_schema_error. exact Ex.
Qed.

(** C10: the field-set check ignores column order. A file whose header is
    a permutation of the expected columns passes the check, and loading it
    has exactly the effect and result of loading the same records written
    with the canonical header: each value is taken by field name. *)
Theorem C10_permuted_header_loads_same_rows (DRY_RUN : bool) (fs fs' : files)
    (path tname : string) (expected h : list string) (rows : list (list string))
    (w : world) :
  List.NoDup expected -> Permutation h expected ->
  Forall (fun r => length r = length h) rows ->
  fs path = Some (h :: rows) ->
  fs' path = Some (expected :: map (reorder h expected) rows) ->
  set_eqb h expected = true /\
  load_csv_to_table DRY_RUN fs path tname expected w =
  load_csv_to_table DRY_RUN fs' path tname expected w.
Proof.
  intros He Hp Hall Hfs Hfs'.
  assert (Hh : List.NoDup h) by (apply (Permutation_NoDup (Permutation_sym Hp)); exact He).
  assert (Hs : set_eqb h expected = true).
  { apply set_eqb_spec. intros c. split; intros Hc.
    - exact (Permutation_in _ Hp Hc).
    - exact (Permutation_in _ (Permutation_sym Hp) Hc). }
  assert (Hs' : set_eqb expected expected = true) by (apply set_eqb_spec; tauto).
  split; [exact Hs|].
  unfold load_csv_to_table. rewrite Hfs, Hfs', Hs, Hs'. simpl.
  rewrite (rows_permuted h expected rows Hh He); auto.
  - intros c Hc. exact (Permutation_in _ (Permutation_sym Hp) Hc).
  - apply Permutation_length, Hp.
Qed.

(** C6 (as the code does it): when the order ids are distinct and not
    NULL, the reconciler in mutating mode evaluates, for each order, the
    HAVING test [ABS(total_amount - COALESCE(SUM(quantity * unit_price),
    0)) > 0.01] in SQLite arithmetic (64-bit integers, else doubles). If
    that raises "integer overflow" for some order, the call fails and
    changes nothing. Otherwise it rewrites the total of exactly the flagged
    orders to [ROUND(float(sum), 2)] as stored by the NUMERIC column, counts
    one fix per flagged order and commits; the other orders and the items
    are unchanged. *)
Theorem C6_reconciler_stores_rounded_total (w : world) :
  let os := rows_of "orders" (work w) in
  let items := rows_of "order_items" (work w) in
  distinct_ids os = true ->
  match map_err (order_check items) os with
  | inl e => e = IntegerOverflow /\ fix_order_totals false w = (inl e, w)
  | inr _ =>
      let n := length (List.filter (flagged items) os) in
      exists w', fix_order_totals false w = (inr (n, n), w') /\
        rows_of "orders" (work w') =
          map (fun o => match order_check items o with
                        | inr (Some c) => set "total_amount" (store_real (sql_round2 (py_float c))) o
                        | _ => o
                        end) os /\
        rows_of "order_items" (work w') = items /\
        (n <> 0%nat -> committed w' = work w')
  end.
Proof.
  intros os items Hd.
  assert (Hsel : select_mismatches (work w) =
                 match map_err (order_check items) os with
                 | inl e => inl e
                 | inr _ => inr (mismatch_rows items os)
                 end).
  { rewrite (select_mismatches_distinct (work w) Hd). fold os items.
    rewrite map_err_order_row. destruct (map_err (order_check items) os); [reflexivity|].
    unfold mismatch_rows. rewrite flat_map_concat_map. reflexivity. }
  unfold fix_order_totals, bind, read. rewrite Hsel.
  destruct (map_err (order_check items) os) as [e|checks] eqn:Ec.
  - apply map_err_inl in Ec as (o & _ & Ho).
    split; [exact (order_check_error _ _ _ Ho) | reflexivity].
  - cbv zeta.
    assert (Hrow : forall o, In o os ->
              fold_left (fun r m => apply_fix m r) (mismatch_rows items os) o =
              match order_check items o with
              | inr (Some c) => set "total_amount" (store_real (sql_round2 (py_float c))) o
              | _ => o
              end)
      by (intros o Ho; apply fold_fix_row; assumption).
    pose proof (mismatch_rows_length items os) as Hlen.
    destruct (mismatch_rows items os) as [|m ms] eqn:Em.
    + simpl in Hlen. exists w. unfold ret. repeat split.
      * rewrite <- Hlen. reflexivity.
      * fold os. symmetry. rewrite <- (List.map_id os) at 2. apply map_ext_in.
        intros o Ho. rewrite <- (Hrow o Ho). reflexivity.
      * intros H0. exfalso. apply H0. symmetry. exact Hlen.
    + cbn [negb].
      pose proof (fold_fix_rows (m :: ms) (work w) 0%nat) as [Hr Hc].
      pose proof (fold_fix_items (m :: ms) (work w) 0%nat) as Hi.
      destruct (fold_left _ (m :: ms) (work w, 0%nat)) as [d' k] eqn:Ef.
      simpl in Hr, Hc, Hi. unfold write, commit, ret. simpl.
      eexists. split; [rewrite Hc, <- Hlen; reflexivity|].
      simpl. repeat split.
      * rewrite Hr. fold os. apply map_ext_in. intros o Ho.
        etransitivity; [|apply Hrow, Ho]. reflexivity.
      * exact Hi.
Qed.

(** C4 (as the code does it): in mutating mode each load step commits its
    own rows, and on a fatal error [main] only rolls back the open
    transaction. So a failed run either failed at some load step [k], the
    schema and the steps before [k] completed and the database file holding
    exactly what they committed, only the rows of the failing step being
    discarded; or all five load steps completed and the reconciliation
    query of the report raised SQLite's "integer overflow", the file then
    holding all five loaded tables. *)
Theorem C4_failed_run_keeps_committed_steps (fs : files) (disk0 : option db)
    (e : error) (d : option db) :
  main false fs disk0 = (inl e, d) ->
  (exists k, (k < length load_steps)%nat /\
     fst (prefix_run fs disk0 k) = inr tt /\
     d = Some (work (snd (prefix_run fs disk0 k))) /\
     match nth_error load_steps k with
     | Some (p, t, cols) =>
         fst (load_csv_to_table false fs p t cols (snd (prefix_run fs disk0 k))) = inl e
     | None => False
     end) \/
  (e = IntegerOverflow /\
   fst (prefix_run fs disk0 (length load_steps)) = inr tt /\
   d = Some (work (snd (prefix_run fs disk0 (length load_steps)))) /\
   fst (generate_integrity_report false (snd (prefix_run fs disk0 (length load_steps)))) = inl e).
Proof.
  intros H.
  destruct (create_schema_clean (connect false disk0) eq_refl) as (ws & Hcs & Hclean).
  unfold main, main_body in H. unfold bind at 1 in H. rewrite Hcs in H.
  unfold bind at 1 in H.
  destruct (load_all false fs load_steps ws) as [[e'|u] w1] eqn:Hl.
  - left. simpl in H. inversion H; subst e' d. clear H.
    destruct (load_all_error fs load_steps ws w1 e Hl) as (k & w2 & Hk & Hpre & Hstep).
    assert (Hrun : prefix_run fs disk0 k = (inr tt, w2)).
    { unfold prefix_run, bind. rewrite Hcs. exact Hpre. }
    exists k. rewrite Hrun. simpl. split; [exact Hk|]. split; [reflexivity|].
    destruct (nth_error load_steps k) as [[[p t] cols]|]; [|contradiction].
    split; [|rewrite Hstep; reflexivity].
    pose proof (load_step_error_frame fs p t cols w2 w1 e Hstep) as Hf.
    pose proof (load_all_ok_clean fs (firstn k load_steps) ws w2 tt Hclean Hpre) as (_ & Hd2 & _).
    unfold frame in Hf. inversion Hf as [[Hd Hc Ht]]. rewrite Hd. exact Hd2.
  - right. destruct u.
    assert (Hrun : prefix_run fs disk0 (length load_steps) = (inr tt, w1)).
    { unfold prefix_run, bind. rewrite Hcs, firstn_all. exact Hl. }
    rewrite Hrun. simpl.
    pose proof (load_all_ok_clean fs load_steps ws w1 tt Hclean Hl) as (_ & Hd1 & _).
    destruct (generate_integrity_report false w1) as [[e'|r] w2] eqn:Hg;
      simpl in H; inversion H; subst e' d.
    destruct (generate_integrity_report_error false w1 w2 e Hg) as [He ->].
    repeat split; [exact He | exact Hd1].
Qed.

(** C4, the original claim fails: with a valid customers file and no
    products file, the mutating run fails and the database file still
    holds the loaded customer. *)
Lemma C4_counterexample_customers_persist :
  match main false fs_no_products None with
  | (inl (FileNotFoundError p), Some d) => p = "data/products.csv" /\ rows_of "customers" d <> []
  | _ => False
  end.
Proof. vm_compute. split; [reflexivity | discriminate]. Qed.

Lemma C4_witness :
  let d := snd (main false fs_no_products None) in
  main false fs_no_products None = (inl (FileNotFoundError "data/products.csv"), d) /\
  ((exists k, (k < length load_steps)%nat /\
      fst (prefix_run fs_no_products None k) = inr tt /\
      d = Some (work (snd (prefix_run fs_no_products None k))) /\
      match nth_error load_steps k with
      | Some (p, t, cols) =>
          fst (load_csv_to_table false fs_no_products p t cols
                 (snd (prefix_run fs_no_products None k))) = inl (FileNotFoundError "data/products.csv")
      | None => False
      end) \/
   (FileNotFoundError "data/products.csv" = IntegerOverflow /\
    fst (prefix_run fs_no_products None (length load_steps)) = inr tt /\
    d = Some (work (snd (prefix_run fs_no_products None (length load_steps)))) /\
    fst (generate_integrity_report false (snd (prefix_run fs_no_products None (length load_steps)))) =
      inl (FileNotFoundError "data/products.csv"))).
Proof.
  intros d.
  assert (H : main false fs_no_products None = (inl (FileNotFoundError "data/products.csv"), d))
    by (vm_compute; reflexivity).
  exact (conj H (C4_failed_run_keeps_committed_steps fs_no_products None _ _ H)).
Defined.

(** A run that fails after the five loads: the order stored at
    -9223372036854775808 has no item, so the reconciliation query computes
    [ABS(-9223372036854775808 - 0)], which overflows. The file keeps the
    loaded customer, product, order and review. *)
Lemma overflow_run_keeps_all_tables :
  match main false fs_overflow None with
  | (inl IntegerOverflow, Some d) =>
      map (fun t => length (rows_of t d)) create_order = [1; 1; 1; 0; 1]%nat
  | _ => False
  end.
Proof. vm_compute. reflexivity. Qed.

Lemma C5_witness :
  load_csv_to_table false fs_orders_no_country "data/orders.csv" "orders" (header "orders")
    (snd (prefix_run fs_orders_no_country None 2)) =
  (inl (MissingColumns ["shipping_country"]), snd (prefix_run fs_orders_no_country None 2)).
Proof.
  rewrite (proj1 (C5_field_set_mismatch_is_fatal false fs_orders_no_country "data/orders.csv" "orders"
                   (header "orders")
                   ["order_id"; "customer_id"; "order_date"; "status"; "total_amount"]
                   [["1"; "CUST-1"; "2024-02-01"; "paid"; "99.99"]]
                   (snd (prefix_run fs_orders_no_country None 2)) eq_refl)).
  - reflexivity.
  - intros H. apply (proj2 (set_eqb_spec _ _)) in H. vm_compute in H. discriminate.
Defined.

Lemma C6_witness :
  distinct_ids (rows_of "orders" (work (loaded_world fs_mismatch))) = true /\
  exists w', fix_order_totals false (loaded_world fs_mismatch) = (inr (1%nat, 1%nat), w') /\
    map (get "total_amount") (rows_of "orders" (work w')) = [VInt 50].
Proof.
  assert (Hd : distinct_ids (rows_of "orders" (work (loaded_world fs_mismatch))) = true)
    by (vm_compute; reflexivity).
  split; [exact Hd|].
  pose proof (C6_reconciler_stores_rounded_total (loaded_world fs_mismatch) Hd) as H.
  assert (Hc : map_err (order_check (rows_of "order_items" (work (loaded_world fs_mismatch))))
                       (rows_of "orders" (work (loaded_world fs_mismatch))) =
               inr [Some (NInt 50)]) by (vm_compute; reflexivity).
  cbv zeta in H. rewrite Hc in H.
  destruct H as (w' & H1 & H2 & _ & _).
  exists w'. split.
  - rewrite H1. vm_compute. reflexivity.
  - rewrite H2. vm_compute. reflexivity.
Defined.

(** C6, the original claim fails: the stored total is the recomputed sum
    rounded to two decimals, not the recomputed sum. An order stored at
    1.00 with one item 1 x 0.123 is fixed to the double nearest 0.12,
    while its items sum to the double nearest 0.123. *)
Lemma C6_counterexample_total_is_rounded :
  match main false fs_fine_price None with
  | (inr r, Some d) =>
      mismatch_count r = 1%nat /\ fixed_count r = 1%nat /\
      map (get "total_amount") (rows_of "orders" d) = [VReal (round64 (12 # 100))] /\
      map (recomputed_total (rows_of "order_items" d)) (rows_of "orders" d) =
        [inr (NReal (round64 (123 # 1000)))]
  | _ => False
  end.
Proof. vm_compute. repeat split. Qed.

(** C6: the tolerance test runs on doubles. An order stored at 1.00 with
    one item 1 x 0.99 (the NUMERIC column keeps 1.00 as the integer 1)
    differs from it by exactly 0.01 in decimal, yet the difference of the
    doubles, 1.0 - 0.99, exceeds the double 0.01: the order is
    flagged and its total set to 0.99. *)
Lemma one_cent_difference_is_flagged :
  apply_affinity NUMERIC (Some "1.00") = VInt 1 /\
  having (VInt 1) (NReal (snd (atof "0.99"))) = inr true /\
  match main false fs_one_cent None with
  | (inr r, Some d) =>
      mismatch_count r = 1%nat /\ fixed_count r = 1%nat /\
      map (get "total_amount") (rows_of "orders" d) = [VReal (round64 (99 # 100))]
  | _ => False
  end.
Proof. vm_compute. repeat split. Qed.

(** C7 (as the code does it): the dry run leaves the database file as it
    was, but it connects to a new in-memory database and skips every
    insert, so the foreign-key and total checks run on five empty tables:
    whatever the input files, a dry run that completes reports no row, no
    violation and no mismatch. *)
Theorem C7_dry_run_checks_empty_tables (fs : files) (disk0 : option db) :
  snd (main true fs disk0) = disk0 /\
  match fst (main true fs disk0) with
  | inr r => r = dry_report
  | inl _ => True
  end.
Proof.
  assert (Hcs : create_schema true (connect true disk0) =
                (inr tt, mk_world disk0 empty_schema empty_schema InMemory)) by reflexivity.
  pose proof (load_all_dry fs load_steps (mk_world disk0 empty_schema empty_schema InMemory)) as Hl.
  assert (Hm : exists res, main true fs disk0 = (res, disk0) /\
                          match res with inr r => r = dry_report | inl _ => True end).
  { unfold main, main_body, bind at 1. rewrite Hcs. unfold bind at 1.
    destruct (load_all true fs load_steps _) as [[e|u] w1]; simpl in Hl; subst w1.
    - eexists. split; [reflexivity|exact I].
    - rewrite dry_run_report. eexists. split; reflexivity. }
  destruct Hm as (res & -> & H). split; [reflexivity|exact H].
Qed.

(** C7, the checks of the dry run detect nothing: on the files with one
    order stored at 99.99 and items summing to 50.00, the mutating run
    reports one mismatch and the dry run none. *)
Lemma C7_counterexample_dry_run_misses_mismatch :
  match main true fs_mismatch None, main false fs_mismatch None with
  | (inr r1, _), (inr r2, _) => mismatch_count r1 = 0%nat /\ mismatch_count r2 = 1%nat
  | _, _ => False
  end.
Proof. vm_compute. split; reflexivity. Qed.

Lemma C10_witness :
  set_eqb orders_permuted_header (header "orders") = true /\
  load_csv_to_table false fs_orders_permuted "data/orders.csv" "orders" (header "orders")
    (snd (prefix_run fs_mismatch None 1)) =
  load_csv_to_table false fs_orders_canonical "data/orders.csv" "orders" (header "orders")
    (snd (prefix_run fs_mismatch None 1)).
Proof.
  apply (C10_permuted_header_loads_same_rows false fs_orders_permuted fs_orders_canonical
           "data/orders.csv" "orders" (header "orders") orders_permuted_header
           [["US"; "99.99"; "paid"; "2024-02-01"; "CUST-1"; "1"]]).
  - vm_compute. repeat constructor; simpl; intros Hin; repeat destruct Hin as [Hin|Hin]; discriminate || contradiction.
  - exact (Permutation_sym (Permutation_rev (header "orders"))).
  - repeat constructor.
  - reflexivity.
  - vm_compute. reflexivity.
Defined.

End IngestClaims.

(* ===================================================================== *)
(** ** Number, date and uuid formatting                                   *)
(* ===================================================================== *)

Module PyFormat.
Import PyStr.
Local Open Scope Z_scope.

Definition digit_char (d : Z) : ascii := ascii_of_nat (48 + Z.to_nat d).

(** The last [w] decimal digits of [n], with leading zeros. *)
Fixpoint pad_digits (w : nat) (n : Z) : string :=
  match w with
  | O => EmptyString
  | S w' => pad_digits w' (n / 10) ++ String (digit_char (n mod 10)) EmptyString
  end.

Fixpoint ndigits_fuel (fuel : nat) (n : Z) : nat :=
  match fuel with
  | O => 1
  | S f => if (n <? 10)%Z then 1 else S (ndigits_fuel f (n / 10))
  end.

(** Number of decimal digits of [n >= 0] (one for zero). *)
Definition ndigits (n : Z) : nat := ndigits_fuel (S (Z.to_nat (Z.log2 n))) n.

(** [str(n)] for [n >= 0] *)
Definition str_int (n : Z) : string := pad_digits (ndigits n) n.

(** [f"{n:0wd}"] for [n >= 0]: at least [w] digits, zero-padded. *)
Definition fmt_0d (w : nat) (n : Z) : string := pad_digits (Nat.max w (ndigits n)) n.

Definition digit_val (c : ascii) : option Z :=
  let n := nat_of_ascii c in
  if ((48 <=? n) && (n <=? 57))%nat then Some (Z.of_nat (n - 48)) else None.

(** Reads decimal digits: the value accumulated from [acc], their number
    and the characters after them. *)
Fixpoint read_digits (cs : list ascii) (acc : Z) (k : nat) : Z * nat * list ascii :=
  match cs with
  | c :: cs' =>
      match digit_val c with
      | Some d => read_digits cs' (acc * 10 + d) (S k)
      | None => (acc, k, cs)
      end
  | [] => (acc, k, [])
  end.

(** *** [decimal.Decimal] *)

(** A finite decimal [coef * 10 ^ (- scale)], with its exponent: [Decimal]
    keeps trailing zeros ([Decimal('0.00')] has scale 2). *)
Record dec := mk_dec { coef : Z; scale : nat }.

Definition dec0 : dec := mk_dec 0 2.

Definition dec_Q (a : dec) : Q := (coef a # 1) / inject_Z (10 ^ Z.of_nat (scale a)).

(** [a + b]: exact, at the larger scale *)
Definition dadd (a b : dec) : dec :=
  let s := Nat.max (scale a) (scale b) in
  mk_dec (coef a * 10 ^ Z.of_nat (s - scale a) + coef b * 10 ^ Z.of_nat (s - scale b)) s.

(** [a * k] for an [int] [k] *)
Definition dmul_int (a : dec) (k : Z) : dec := mk_dec (coef a * k) (scale a).

(** [n / d] rounded to an integer, halves away from zero ([d > 0]). *)
Definition round_half_up (n d : Z) : Z :=
  if (0 <=? n)%Z then (n + d / 2) / d else - ((- n + d / 2) / d).

(** [a.quantize(Decimal('0.01'), rounding=ROUND_HALF_UP)] *)
Definition quantize2 (a : dec) : dec :=
  if (scale a <=? 2)%nat then mk_dec (coef a * 10 ^ Z.of_nat (2 - scale a)) 2
  else mk_dec (round_half_up (coef a) (10 ^ Z.of_nat (scale a - 2))) 2.

(** [Decimal(x).quantize(Decimal('0.01'), rounding=ROUND_HALF_UP)] for a
    float [x], taken as the exact rational it denotes. *)
Definition quantize2_Q (x : Q) : dec :=
  mk_dec (if Qle_bool 0 x then Qfloor (x * 100 + (1 # 2))
          else - Qfloor (- x * 100 + (1 # 2))) 2.

(** [str(a)] in fixed-point form (the form [Decimal] uses for the scales
    and sizes met here). *)
Definition str_dec (a : dec) : string :=
  let m := Z.abs (coef a) in
  let p := (10 ^ Z.of_nat (scale a))%Z in
  (if (coef a <? 0)%Z then "-" else "") ++ str_int (m / p) ++
  match scale a with
  | O => ""
  | s => "." ++ pad_digits s (m mod p)
  end.

(** [Decimal(s)] for a string [[-]digits[.digits]]; [None] is
    [InvalidOperation]. *)
Definition parse_dec (s : string) : option dec :=
  let '(neg, cs) := match list_ascii_of_string s with
                    | "-"%char :: cs => (true, cs)
                    | cs => (false, cs)
                    end in
  let sgn (v : Z) := if neg then (- v)%Z else v in
  match read_digits cs 0 0 with
  | (ip, ni, []) => if (0 <? ni)%nat then Some (mk_dec (sgn ip) 0) else None
  | (ip, ni, "."%char :: rest) =>
      match read_digits rest ip 0 with
      | (v, nf, []) => if (0 <? ni + nf)%nat then Some (mk_dec (sgn v) nf) else None
      | _ => None
      end
  | _ => None
  end.

(** *** [datetime] *)

(** A naive [datetime] as microseconds since 0001-01-01T00:00:00. *)
Definition datetime := Z.

Definition us_per_day : Z := 86400 * 1000000.

(** [dt - timedelta(days=d)] *)
Definition minus_days (t : datetime) (d : Z) : datetime := t - d * us_per_day.

(** The proleptic Gregorian date of a day number counted from
    1970-01-01. *)
Definition civil_from_days (z0 : Z) : Z * Z * Z :=
  let z := z0 + 719468 in
  let era := z / 146097 in
  let doe := z - era * 146097 in
  let yoe := (doe - doe / 1460 + doe / 36524 - doe / 146096) / 365 in
  let y := yoe + era * 400 in
  let doy := doe - (365 * yoe + yoe / 4 - yoe / 100) in
  let mp := (5 * doy + 2) / 153 in
  let d := doy - (153 * mp + 2) / 5 + 1 in
  let m := if (mp <? 10)%Z then mp + 3 else mp - 9 in
  (if (m <=? 2)%Z then y + 1 else y, m, d).

(** [dt.isoformat()]: [YYYY-MM-DDTHH:MM:SS], then [.ffffff] when the
    microseconds are not zero. *)
Definition isoformat (t : datetime) : string :=
  let us := t mod 1000000 in
  let secs := t / 1000000 in
  let days := secs / 86400 in
  let sod := secs mod 86400 in
  let '(y, m, d) := civil_from_days (days - 719162) in
  pad_digits 4 y ++ "-" ++ pad_digits 2 m ++ "-" ++ pad_digits 2 d ++ "T" ++
  pad_digits 2 (sod / 3600) ++ ":" ++ pad_digits 2 ((sod mod 3600) / 60) ++ ":" ++
  pad_digits 2 (sod mod 60) ++
  (if (us =? 0)%Z then "" else "." ++ pad_digits 6 us).

(** *** [uuid] *)

Definition hex_char (d : Z) : ascii :=
  if (d <? 10)%Z then ascii_of_nat (48 + Z.to_nat d) else ascii_of_nat (87 + Z.to_nat d).

Fixpoint hex_pad (w : nat) (n : Z) : string :=
  match w with
  | O => EmptyString
  | S w' => hex_pad w' (Z.shiftr n 4) ++ String (hex_char (Z.land n 15)) EmptyString
  end.

(** [UUID(bytes=b, version=4)]: the 128-bit integer of the 16 bytes with
    the variant and version bits set. *)
Definition uuid4_int (b : list Z) : Z :=
  let i := fold_left (fun acc x => acc * 256 + x) b 0 in
  let i := Z.land i (Z.lnot (Z.shiftl 49152 48)) in
  let i := Z.lor i (Z.shiftl 32768 48) in
  let i := Z.land i (Z.lnot (Z.shiftl 61440 64)) in
  Z.lor i (Z.shiftl 4 76).

(** [str(u)]: 32 hex digits in groups 8-4-4-4-12. *)
Definition uuid_str (i : Z) : string :=
  let h := hex_pad 32 i in
  substring 0 8 h ++ "-" ++ substring 8 4 h ++ "-" ++ substring 12 4 h ++ "-" ++
  substring 16 4 h ++ "-" ++ substring 20 12 h.

(** *** [str] methods *)

(** [s.capitalize()] on ASCII *)
Definition capitalize (s : string) : string :=
  match s with
  | EmptyString => EmptyString
  | String c s' => String (upper_char c) (lower s')
  end.

Definition is_letter (c : ascii) : bool :=
  let n := nat_of_ascii c in (((65 <=? n) && (n <=? 90)) || ((97 <=? n) && (n <=? 122)))%nat.

(** [s.title()] on ASCII: a letter after a letter is lowered, any other
    letter raised. *)
Fixpoint title_from (prev : bool) (s : string) : string :=
  match s with
  | EmptyString => EmptyString
  | String c s' =>
      String (if is_letter c then (if prev then lower_char c else upper_char c) else c)
             (title_from (is_letter c) s')
  end.

Definition title (s : string) : string := title_from false s.

(** [s.replace(a, b)] for single characters *)
Fixpoint replace_char (a b : ascii) (s : string) : string :=
  match s with
  | EmptyString => EmptyString
  | String c s' => String (if Ascii.eqb c a then b else c) (replace_char a b s')
  end.

Definition str_bool (b : bool) : string := if b then "True" else "False".

End PyFormat.

(* ===================================================================== *)
(** ** The dataset generator                                              *)
(* ===================================================================== *)

(** The generated records: the dicts of [generate_data.py], one field per
    key, with the Python type of each value. *)
Module Customer.
Record t := mk {
  customer_id : string; name : string; email : string;
  signup_date : string; country : string; is_premium : string
}.
End Customer.

Module Product.
Record t := mk {
  product_id : nat; sku : string; name : string; category : string;
  price : string; cost : string; created_at : string
}.
End Product.

Module Order.
Record t := mk {
  order_id : nat; customer_id : string; order_date : string; status : string;
  total_amount : string; shipping_country : string
}.
(** [order['total_amount'] = v] *)
Definition set_total_amount (v : string) (o : t) : t :=
  mk (order_id o) (customer_id o) (order_date o) (status o) v (shipping_country o).
End Order.

Module OrderItem.
Record t := mk {
  order_item_id : nat; order_id : nat; product_id : nat; quantity : Z; unit_price : string
}.
End OrderItem.

Module Review.
Record t := mk {
  review_id : nat; product_id : nat; customer_id : string; rating : nat;
  review_text : string; created_at : string
}.
End Review.

Module Generator.
Import PyStr PyFormat.

(** The [random] module: the generator's state after [random.seed(42)]
    and the primitives the script's calls rest on, [_randbelow(n)],
    [random()] and [sample(population, k)]. Floats are taken as exact
    rationals. *)
Record PyRandom := mk_random {
  rstate : Type;
  randbelow : Z -> rstate -> Z * rstate;
  random : rstate -> Q * rstate;
  sample : forall A : Type, list A -> nat -> rstate -> list A * rstate
}.

(** What the [random] module guarantees: [_randbelow(n)] is below [n],
    [random()] is in [[0, 1)], and [sample(pop, k)] for [k <= len(pop)]
    returns [k] members of [pop]. *)
Definition random_contract (R : PyRandom) : Prop :=
  (forall n s, (0 < n)%Z -> (0 <= fst (randbelow R n s) < n)%Z) /\
  (forall s, 0 <= fst (random R s) /\ fst (random R s) < 1)%Q /\
  (forall A (pop : list A) k s, (k <= length pop)%nat ->
     length (fst (sample R A pop k s)) = k /\
     forall x, In x (fst (sample R A pop k s)) -> In x pop).

(** The [Faker] methods the script calls, on the state of the instance
    seeded by [Faker.seed_instance(42)]. *)
Record FakerLib := mk_faker {
  fstate : Type;
  fake_name : fstate -> string * fstate;
  fake_email : fstate -> string * fstate;
  fake_country : fstate -> string * fstate;
  fake_text : nat -> fstate -> string * fstate;
  fake_catch_phrase : fstate -> string * fstate
}.

(** What the script reads from the machine besides [random]: the clock
    at the [i]-th call of [datetime.now()], and the 16 bytes of the
    [i]-th call of [os.urandom(16)] made by [uuid.uuid4()]. *)
Record env := mk_env {
  clock : nat -> datetime;
  urandom16 : nat -> list Z
}.

Section Generate.
Variable R : PyRandom.
Variable F : FakerLib.
Variable E : env.

(** The state the script threads: the [random] generator, the [Faker]
    instance ([None] when [faker] is not installed) and the number of
    clock and entropy reads so far. *)
Record gstate := mk_g {
  rng : rstate R;
  fake : option (fstate F);
  n_now : nat;
  n_urandom : nat
}.

(** A step of the script: [None] is an uncaught exception. *)
Definition Gen (A : Type) : Type := gstate -> option (A * gstate).

Definition gret {A} (a : A) : Gen A := fun g => Some (a, g).
Definition gbind {A B} (m : Gen A) (f : A -> Gen B) : Gen B :=
  fun g => match m g with Some (a, g') => f a g' | None => None end.
Definition gfail {A} : Gen A := fun _ => None.
Definition glift {A} (o : option A) : Gen A :=
  fun g => match o with Some a => Some (a, g) | None => None end.

Local Notation "'let!' x ':=' m 'in' k" := (gbind m (fun x => k))
  (at level 200, x name, m at level 100, k at level 200).

Definition set_rng (g : gstate) (s : rstate R) : gstate :=
  mk_g s (fake g) (n_now g) (n_urandom g).
Definition set_fake (g : gstate) (f : fstate F) : gstate :=
  mk_g (rng g) (Some f) (n_now g) (n_urandom g).

(** *** [random] calls *)

Definition rand_below (n : Z) : Gen Z :=
  fun g => let '(r, s) := randbelow R n (rng g) in Some (r, set_rng g s).

Definition random01 : Gen Q :=
  fun g => let '(r, s) := random R (rng g) in Some (r, set_rng g s).

Definition sampleM {A} (pop : list A) (k : nat) : Gen (list A) :=
  fun g => let '(r, s) := sample R A pop k (rng g) in Some (r, set_rng g s).

(** [random.randint(a, b)] *)
Definition randint (a b : Z) : Gen Z :=
  let! r := rand_below (b + 1 - a) in gret (a + r)%Z.

(** [seq[i]], negative indices counting from the end *)
Definition py_index {A} (xs : list A) (i : Z) : option A :=
  if (i <? 0)%Z then
    if (Z.of_nat (length xs) + i <? 0)%Z then None
    else nth_error xs (Z.to_nat (Z.of_nat (length xs) + i))
  else nth_error xs (Z.to_nat i).

(** [random.choice(seq)] *)
Definition choice {A} (xs : list A) : Gen A :=
  match xs with
  | [] => gfail
  | _ => let! i := rand_below (Z.of_nat (length xs)) in glift (nth_error xs (Z.to_nat i))
  end.

Fixpoint repeatM {A} (k : nat) (m : Gen A) : Gen (list A) :=
  match k with
  | O => gret []
  | S k' => let! x := m in let! xs := repeatM k' m in gret (x :: xs)
  end.

(** [random.choices(population, k=k)] *)
Definition choices {A} (xs : list A) (k : nat) : Gen (list A) :=
  repeatM k (let! r := random01 in
             glift (py_index xs (Qfloor (r * inject_Z (Z.of_nat (length xs)))))).

Fixpoint accumulate (acc : Z) (ws : list Z) : list Z :=
  match ws with [] => [] | w :: ws' => (acc + w)%Z :: accumulate (acc + w) ws' end.

(** [bisect(a, x, 0, hi)] on a sorted [a] *)
Definition bisect (a : list Z) (x : Q) (hi : nat) : nat :=
  length (List.filter (fun c => Qle_bool (inject_Z c) x) (firstn hi a)).

(** [random.choices(population, weights=ws)[0]] *)
Definition choices_weighted {A} (xs : list A) (ws : list Z) : Gen A :=
  let cum := accumulate 0 ws in
  let total := inject_Z (List.last cum 0%Z) in
  let! r := random01 in
  glift (nth_error xs (bisect cum (r * total) (length xs - 1))).

(** [random.uniform(a, b)] *)
Definition uniform (a b : Q) : Gen Q := let! r := random01 in gret (a + (b - a) * r)%Q.

(** *** Clock, entropy and [Faker] *)

(** [datetime.now()] *)
Definition now : Gen datetime :=
  fun g => Some (clock E (n_now g), mk_g (rng g) (fake g) (S (n_now g)) (n_urandom g)).

(** [str(uuid.uuid4())] *)
Definition uuid4 : Gen string :=
  fun g => Some (uuid_str (uuid4_int (urandom16 E (n_urandom g))),
                 mk_g (rng g) (fake g) (n_now g) (S (n_urandom g))).

(** [if fake: return fake.m() ... else ...] *)
Definition with_fake (m : fstate F -> string * fstate F) (fallback : Gen string) : Gen string :=
  fun g => match fake g with
           | Some f => let '(s, f') := m f in Some (s, set_fake g f')
           | None => fallback g
           end.

(** *** The helper functions *)

Definition generate_email (name : string) : Gen string :=
  with_fake (fake_email F)
    (let name_clean := replace_char " "%char "."%char (lower name) in
     let! d := choice ["gmail.com"; "yahoo.com"; "outlook.com"; "hotmail.com"] in
     gret (name_clean ++ "@" ++ d)).

Definition generate_name : Gen string :=
  with_fake (fake_name F)
    (let! f := choice ["John"; "Jane"; "Michael"; "Sarah"; "David"; "Emily"; "James"; "Emma"] in
     let! l := choice ["Smith"; "Johnson"; "Williams"; "Brown"; "Jones"; "Garcia"; "Miller"; "Davis"] in
     gret (f ++ " " ++ l)).

Definition generate_country : Gen string :=
  with_fake (fake_country F)
    (choice ["USA"; "UK"; "Canada"; "Australia"; "Germany"; "France"; "Japan"; "India"]).

Definition generate_text : Gen string :=
  with_fake (fake_text F 200)
    (let! num_words := randint 5 20 in
     let! ws := choices ["great"; "good"; "excellent"; "amazing"; "love"; "nice"; "quality";
                    "fast"; "recommend"] (Z.to_nat num_words) in
     gret (capitalize (join " " ws) ++ ".")).

(** [prefixes.get(category, ['Premium'])] *)
Definition prefixes_get (category : string) : list string :=
  if String.eqb category "electronics" then ["Smart"; "Digital"; "Wireless"; "Pro"]
  else if String.eqb category "home" then ["Premium"; "Classic"; "Modern"; "Elegant"]
  else if String.eqb category "beauty" then ["Luxury"; "Natural"; "Organic"; "Professional"]
  else if String.eqb category "books" then ["The"; "Complete Guide to"; "Advanced"; "Introduction to"]
  else if String.eqb category "clothing" then ["Designer"; "Classic"; "Sport"; "Casual"]
  else if String.eqb category "sports" then ["Professional"; "Elite"; "Training"; "Competition"]
  else if String.eqb category "toys" then ["Fun"; "Educational"; "Interactive"; "Creative"]
  else if String.eqb category "automotive" then ["Heavy Duty"; "Premium"; "Performance"; "Classic"]
  else ["Premium"].

Definition generate_product_name (category : string) : Gen string :=
  with_fake (fake_catch_phrase F)
    (let suffix := title category in
     let! p := choice (prefixes_get category) in
     let! n := randint 1 1000 in
     gret (p ++ " " ++ suffix ++ " Item " ++ str_int n)).

Definition CATEGORIES : list string :=
  ["electronics"; "home"; "beauty"; "books"; "clothing"; "sports"; "toys"; "automotive"].
Definition ORDER_STATUSES : list string := ["pending"; "paid"; "shipped"; "cancelled"; "returned"].

(** [for i in range(k)] collecting one value per iteration *)
Fixpoint for_range_from {A} (i k : nat) (body : nat -> Gen A) : Gen (list A) :=
  match k with
  | O => gret []
  | S k' => let! x := body i in let! xs := for_range_from (S i) k' body in gret (x :: xs)
  end.

Definition for_range {A} (k : nat) (body : nat -> Gen A) : Gen (list A) :=
  for_range_from 0 k body.

(** *** customers.csv *)
Definition gen_customer (i : nat) : Gen Customer.t :=
  let! customer_id := uuid4 in
  let! name := generate_name in
  let! email := generate_email name in
  let! t := now in
  let! days := randint 0 1095 in
  let signup_date := isoformat (minus_days t days) in
  let! country := generate_country in
  let! is_premium := choice [true; false; false; false] in
  gret (Customer.mk customer_id name email signup_date country (str_bool is_premium)).

(** *** products.csv *)
Definition gen_product (i : nat) : Gen Product.t :=
  let product_id := S i in
  let! random_num := randint 10000 99999 in
  let! suffix := choice ["A"; "B"; "C"] in
  let sku := "SKU-" ++ fmt_0d 5 random_num ++ "-" ++ suffix ++ "-" ++
             fmt_0d 4 (Z.of_nat product_id) in
  let! category := choice CATEGORIES in
  let! name := generate_product_name category in
  let! u := uniform (999 # 100) (99999 # 100) in
  let price := quantize2_Q u in
  let! v := uniform (3 # 10) (7 # 10) in
  let cost := quantize2_Q (dec_Q price * v) in
  let! t := now in
  let! days := randint 0 730 in
  gret (Product.mk product_id sku name category (str_dec price) (str_dec cost)
          (isoformat (minus_days t days))).

(** *** orders.csv (totals still the placeholder) *)
Definition gen_order (customers : list Customer.t) (i : nat) : Gen Order.t :=
  let order_id := S i in
  let! customer_id := choice (map Customer.customer_id customers) in
  let! t := now in
  let! days := randint 0 730 in
  let! status := choices_weighted ORDER_STATUSES [5; 60; 25; 5; 5]%Z in
  let! shipping_country := choice (map Customer.country
                                (List.filter (fun c => String.eqb (Customer.customer_id c) customer_id)
                                             customers)) in
  let total_amount := dec0 in
  gret (Order.mk order_id customer_id (isoformat (minus_days t days)) status
                 (str_dec total_amount) shipping_country).

(** *** order_items.csv *)

(** The loop state: [order_items], [order_totals] and
    [order_item_id_counter]. *)
Definition items_state : Type := list OrderItem.t * gmap nat dec * nat.

(** [order_totals[order_id] += unit_price * quantity], after the
    [Decimal('0.00')] of a first item. *)
Definition add_total (order_id : nat) (amount : dec) (totals : gmap nat dec) : gmap nat dec :=
  let current := match totals !! order_id with Some v => v | None => dec0 end in
  <[order_id := dadd current amount]> totals.

(** The body of [for idx, product_id in enumerate(selected_products)]. *)
Definition gen_item (products : list Product.t) (order_id : nat) (product_id : nat)
    (st : list OrderItem.t * gmap nat dec * nat) : Gen (list OrderItem.t * gmap nat dec * nat) :=
  let '(items_for_order, totals, counter) := st in
  let order_item_id := counter in
  let! product := glift (find (fun p => Nat.eqb (Product.product_id p) product_id) products) in
  let! quantity := randint 1 5 in
  let! unit_price := glift (parse_dec (Product.price product)) in
  gret (app items_for_order [OrderItem.mk order_item_id order_id product_id quantity
                                           (str_dec unit_price)],
        add_total order_id (dmul_int unit_price quantity) totals,
        S counter).

Fixpoint foldM {A B} (f : A -> B -> Gen B) (xs : list A) (b : B) : Gen B :=
  match xs with
  | [] => gret b
  | x :: xs' => let! b' := f x b in foldM f xs' b'
  end.

(** The body of [for order in orders]. *)
Definition gen_items_for (products : list Product.t) (product_ids : list nat)
    (order : Order.t) (st : items_state) : Gen items_state :=
  let '(order_items, totals, counter) := st in
  let order_id := Order.order_id order in
  let! num_items := randint 1 6 in
  let! selected_products := sampleM product_ids (Nat.min (Z.to_nat num_items) (length product_ids)) in
  let! r := foldM (gen_item products order_id) selected_products ([], totals, counter) in
  let '(items_for_order, totals', counter') := r in
  gret (app order_items items_for_order, totals', counter').

(** [for order in orders: if order_id in order_totals: ...] *)
Definition update_totals (totals : gmap nat dec) (orders : list Order.t) : list Order.t :=
  map (fun o => match totals !! Order.order_id o with
                | Some t => Order.set_total_amount (str_dec (quantize2 t)) o
                | None => o
                end) orders.

(** *** reviews.csv *)
Definition gen_review (reviewing_customers : list string) (reviewed_products : list nat)
    (i : nat) : Gen Review.t :=
  let! product_id := choice reviewed_products in
  let! customer_id := choice reviewing_customers in
  let! rating := choices_weighted [5; 4; 3; 2; 1]%nat [40; 30; 15; 10; 5]%Z in
  let! review_text := generate_text in
  let! t := now in
  let! days := randint 0 600 in
  gret (Review.mk (S i) product_id customer_id rating review_text
                  (isoformat (minus_days t days))).

(** The five collections the script writes. *)
Record dataset := mk_dataset {
  customers : list Customer.t;
  products : list Product.t;
  orders : list Order.t;
  order_items : list OrderItem.t;
  reviews : list Review.t
}.

(** The loop bounds of the script, [range(500)], [range(200)],
    [range(1500)] and [range(800)], as parameters of the run. *)
Record sizes := mk_sizes {
  n_customers : nat; n_products : nat; n_orders : nat; n_reviews : nat
}.

Definition script_sizes : sizes := mk_sizes 500 200 1500 800.

Definition generate_all_sized (sz : sizes) : Gen dataset :=
  let! customers := for_range (n_customers sz) gen_customer in
  let! products := for_range (n_products sz) gen_product in
  let customer_ids := map Customer.customer_id customers in
  let product_ids := map Product.product_id products in
  let! orders := for_range (n_orders sz) (gen_order customers) in
  let! r := foldM (gen_items_for products product_ids) orders ([], ∅, 1%nat) in
  let '(order_items, order_totals, _) := r in
  let orders := update_totals order_totals orders in
  let! reviewing_customers := sampleM customer_ids (Nat.min 400 (length customer_ids)) in
  let! reviewed_products := sampleM product_ids (Nat.min 150 (length product_ids)) in
  let! reviews := for_range (n_reviews sz) (gen_review reviewing_customers reviewed_products) in
  gret (mk_dataset customers products orders order_items reviews).

(** A run of the script: [random.seed(42)] gives [seed_state], and
    [Faker.seed_instance(42)] the [Faker] state [faker0] when [faker] is
    installed. *)
Definition generate_data_sized (sz : sizes) (seed_state : rstate R) (faker0 : option (fstate F))
    : option dataset :=
  option_map fst (generate_all_sized sz (mk_g seed_state faker0 0 0)).

Definition generate_data (seed_state : rstate R) (faker0 : option (fstate F)) : option dataset :=
  generate_data_sized script_sizes seed_state faker0.

End Generate.

End Generator.

Module GeneratorRun.
Import PyFormat Generator.
Local Open Scope Z_scope.

(** A linear congruential generator standing in for the seeded
    Mersenne Twister: a concrete [PyRandom] to run the script on. *)
Definition lcg_next (s : Z) : Z := (s * 1103515245 + 12345) mod 2147483648.

Definition lcg_randbelow (n : Z) (s : Z) : Z * Z :=
  (if n <=? 0 then 0 else (s / 65536) mod n, lcg_next s).

Definition lcg_random (s : Z) : Q * Z := (Qmake ((s / 65536) mod 1000) 1000, lcg_next s).

Fixpoint rotate {A} (k : nat) (xs : list A) : list A :=
  match k, xs with
  | S k', x :: xs' => rotate k' (app xs' [x])
  | _, _ => xs
  end.

Definition lcg_sample (A : Type) (pop : list A) (k : nat) (s : Z) : list A * Z :=
  (firstn k (rotate (Z.to_nat ((s / 65536) mod Z.of_nat (S (length pop)))) pop), lcg_next s).

Definition lcg : PyRandom := mk_random Z lcg_randbelow lcg_random lcg_sample.

(** [faker] not installed: the fallback branches run. *)
Definition no_faker : FakerLib :=
  mk_faker unit (fun u => ("", u)) (fun u => ("", u)) (fun u => ("", u))
    (fun _ u => ("", u)) (fun u => ("", u)).

(** 2024-10-04T12:00:00 in microseconds since 0001-01-01. *)
Definition t_2024_10_04 : datetime := ((719162 + 20000) * 86400 + 12 * 3600) * 1000000.

Definition env_at (t0 : datetime) (seed_bytes : Z) : env :=
  mk_env (fun i => t0 + Z.of_nat i)
         (fun i => map (fun j => (seed_bytes + Z.of_nat i * 16 + j) mod 256) (map Z.of_nat (List.seq 0 16))).

Definition env_a : env := env_at t_2024_10_04 7.
Definition env_b : env := env_at t_2024_10_04 8.

(** A short run: 3 customers, 8 products, 4 orders, 2 reviews. *)
Definition small_sizes : sizes := mk_sizes 3 8 4 2.

Definition run_a : option dataset := generate_data_sized lcg no_faker env_a small_sizes 42 None.
Definition run_b : option dataset := generate_data_sized lcg no_faker env_b small_sizes 42 None.

Definition dataset_of (r : option dataset) : dataset :=
  match r with Some ds => ds | None => mk_dataset [] [] [] [] [] end.

Definition dataset_a : dataset := dataset_of run_a.
Definition dataset_b : dataset := dataset_of run_b.

Definition placeholder_order : Order.t := Order.mk 0 "" "" "" "" "".

End GeneratorRun.

(* ===================================================================== *)
(** ** [run_queries.py]: printing the result of a statement               *)
(* ===================================================================== *)

Module QueryOutput.
Import PyStr PyFormat.

(** A value of a fetched row after [str(val) if val is not None else
    'NULL']: [Some s] is a value whose [str] is [s], [None] is SQL NULL. *)
Definition show_value (v : option string) : string :=
  match v with Some s => s | None => "NULL" end.

(** ['-' * n]; a negative [n] gives the empty string. *)
Definition repeat_char (c : ascii) (n : Z) : string :=
  string_of_list_ascii (repeat c (Z.to_nat n)).

(** The lines printed for a statement that ran: [columns] are the names of
    [cursor.description], [rows] what [cursor.fetchall()] returned. *)
Definition result_lines (columns : list string) (rows : list (list (option string)))
    : list string :=
  match rows with
  | [] => ["(No rows returned)"]
  | _ =>
      let width := (fold_left (fun acc c => acc + Z.of_nat (String.length c)) columns 0
                    + 3 * (Z.of_nat (length columns) - 1))%Z in
      app (join " | " columns :: repeat_char "-"%char width ::
           map (fun row => join " | " (map show_value row)) (firstn 10 rows))
          (if (10 <? length rows)%nat
           then ["... (" ++ str_int (Z.of_nat (length rows - 10)) ++ " more rows)"]
           else [])
  end.

End QueryOutput.

(* ===================================================================== *)
(** ** [generate_data.py]: the checks at the end of the script            *)
(* ===================================================================== *)

Module GeneratorChecks.
Import PyStr PyFormat Generator.
Local Open Scope Z_scope.

(** [sum(1 for x in xs if p(x))] *)
Definition count_if {A} (p : A -> bool) (xs : list A) : nat := length (List.filter p xs).

(** The five counters of the foreign key validation. *)
Record fk_counts := mk_fk_counts {
  invalid_customer_refs : nat;
  invalid_order_refs : nat;
  invalid_product_refs : nat;
  invalid_review_product_refs : nat;
  invalid_review_customer_refs : nat
}.

(** [customer_id_set], [product_id_set] and [order_id_set] are the sets of
    the ids; [x not in s] is tested by membership. *)
Definition validate_foreign_keys (ds : dataset) : fk_counts :=
  let customer_id_set := map Customer.customer_id (customers ds) in
  let product_id_set := map Product.product_id (products ds) in
  let order_id_set := map Order.order_id (orders ds) in
  mk_fk_counts
    (count_if (fun o => negb (existsb (String.eqb (Order.customer_id o)) customer_id_set)) (orders ds))
    (count_if (fun oi => negb (existsb (Nat.eqb (OrderItem.order_id oi)) order_id_set)) (order_items ds))
    (count_if (fun oi => negb (existsb (Nat.eqb (OrderItem.product_id oi)) product_id_set)) (order_items ds))
    (count_if (fun r => negb (existsb (Nat.eqb (Review.product_id r)) product_id_set)) (reviews ds))
    (count_if (fun r => negb (existsb (String.eqb (Review.customer_id r)) customer_id_set)) (reviews ds)).

(** [Decimal(n)] for an [int] [n] *)
Definition dec_of_int (n : Z) : dec := mk_dec n 0.

(** [a * b] for two [Decimal]s: exact, the exponents added (the values
    met here stay far below the 28 digits of the default context). *)
Definition dmul (a b : dec) : dec := mk_dec (coef a * coef b) (scale a + scale b).

(** [Decimal(oi['quantity']) * Decimal(oi['unit_price'])]; [None] is
    [InvalidOperation]. *)
Definition item_term (oi : OrderItem.t) : option dec :=
  match parse_dec (OrderItem.unit_price oi) with
  | Some u => Some (dmul (dec_of_int (OrderItem.quantity oi)) u)
  | None => None
  end.

Fixpoint map_opt {A B} (f : A -> option B) (xs : list A) : option (list B) :=
  match xs with
  | [] => Some []
  | x :: xs' =>
      match f x with
      | Some y => match map_opt f xs' with Some ys => Some (y :: ys) | None => None end
      | None => None
      end
  end.

(** [sum(... for oi in order_items if oi['order_id'] == order_id)
    .quantize(Decimal('0.01'), rounding=ROUND_HALF_UP)]: [sum] starts from
    the [int] [0], so with no term it returns the [int] [0], which has no
    [quantize] ([AttributeError], [None] here). *)
Definition expected_total (order_items : list OrderItem.t) (order_id : nat) : option dec :=
  match map_opt item_term (List.filter (fun oi => Nat.eqb (OrderItem.order_id oi) order_id)
                                       order_items) with
  | Some (d :: ds) => Some (quantize2 (fold_left dadd (d :: ds) (dec_of_int 0)))
  | _ => None
  end.

(** [abs(expected_total - actual_total) > Decimal('0.01')] for one
    order; [None] is an exception. *)
Definition order_mismatch (order_items : list OrderItem.t) (order : Order.t) : option bool :=
  match expected_total order_items (Order.order_id order) with
  | Some expected =>
      match parse_dec (Order.total_amount order) with
      | Some actual => Some (negb (Qle_bool (Qabs (dec_Q expected - dec_Q actual)) (1 # 100)))
      | None => None
      end
  | None => None
  end.

(** The loop [for order in orders: ... mismatches += 1]: the final
    [mismatches], [None] when an exception ends the script. *)
Definition validate_totals (ds : dataset) : option nat :=
  fold_left (fun acc order =>
               match acc with
               | Some mismatches =>
                   match order_mismatch (order_items ds) order with
                   | Some true => Some (S mismatches)
                   | Some false => Some mismatches
                   | None => None
                   end
               | None => None
               end) (orders ds) (Some 0%nat).

End GeneratorChecks.

(** *** Top 3 categories by product count *)

Module GeneratorSummary.
Import Generator.

(** [category_counts[c] = category_counts.get(c, 0) + 1] on a dict kept in
    insertion order: a new key goes last, an existing one keeps its
    place. *)
Fixpoint counts_add (c : string) (cs : list (string * nat)) : list (string * nat) :=
  match cs with
  | [] => [(c, 1%nat)]
  | (k, n) :: cs' => if String.eqb k c then (k, S n) :: cs' else (k, n) :: counts_add c cs'
  end.

Definition category_counts (products : list Product.t) : list (string * nat) :=
  fold_left (fun cs p => counts_add (Product.category p) cs) products [].

(** Inserting [x] after every entry whose count is at least its own. *)
Fixpoint insert_desc (x : string * nat) (l : list (string * nat)) : list (string * nat) :=
  match l with
  | [] => [x]
  | y :: l' => if (snd y <? snd x)%nat then x :: l else y :: insert_desc x l'
  end.

(** [sorted(items, key=lambda x: x[1], reverse=True)]: a stable sort,
    largest count first, equal counts in their order in [items]; a stable
    sort has only one possible result, computed here by insertion. *)
Definition sort_by_count_desc (items : list (string * nat)) : list (string * nat) :=
  fold_left (fun acc x => insert_desc x acc) items [].

Definition top_categories (products : list Product.t) : list (string * nat) :=
  firstn 3 (sort_by_count_desc (category_counts products)).

End GeneratorSummary.

(* ===================================================================== *)
(** ** Facts about the formatting functions                               *)
(* ===================================================================== *)

Module PyFormatFacts.
Import PyStr PyFormat.
Local Open Scope Z_scope.

Lemma list_ascii_app (a b : string) :
  list_ascii_of_string (String.append a b) = app (list_ascii_of_string a) (list_ascii_of_string b).
Proof. induction a as [|c a IH]; simpl; [reflexivity | now rewrite IH]. Qed.

Lemma digit_val_char d : 0 <= d < 10 -> digit_val (digit_char d) = Some d.
Proof.
  intros Hd. unfold digit_val, digit_char.
  rewrite nat_ascii_embedding by lia.
  replace ((48 <=? 48 + Z.to_nat d)%nat && (48 + Z.to_nat d <=? 57)%nat) with true.
  - f_equal. lia.
  - symmetry. apply andb_true_intro; split; apply Nat.leb_le; lia.
Qed.

Lemma pad_digits_length w n : length (list_ascii_of_string (pad_digits w n)) = w.
Proof.
  revert n; induction w as [|w IH]; intros n; simpl; [reflexivity|].
  rewrite list_ascii_app, List.length_app, IH. simpl. lia.
Qed.

Lemma pad_digits_head w n :
  exists c l, list_ascii_of_string (pad_digits (S w) n) = c :: l /\ digit_val c <> None.
Proof.
  revert n; induction w as [|w IH]; intros n.
  - exists (digit_char (n mod 10)), []. split; [reflexivity|].
    rewrite digit_val_char by (apply Z.mod_pos_bound; lia). discriminate.
  - destruct (IH (n / 10)) as (c & l & Hl & Hc).
    exists c, (app l (list_ascii_of_string (String (digit_char (n mod 10)) EmptyString))).
    split; [|exact Hc].
    change (pad_digits (S (S w)) n) with
      (String.append (pad_digits (S w) (n / 10)) (String (digit_char (n mod 10)) EmptyString)).
    rewrite list_ascii_app, Hl. reflexivity.
Qed.

Lemma pow10_S w : 10 ^ Z.of_nat (S w) = 10 * 10 ^ Z.of_nat w.
Proof. rewrite Nat2Z.inj_succ, Z.pow_succ_r by lia. reflexivity. Qed.

Lemma pow10_pos w : 0 < 10 ^ Z.of_nat w.
Proof. apply Z.pow_pos_nonneg; lia. Qed.

Lemma mod_mul10 n P : 0 < P -> n mod (10 * P) = (n / 10) mod P * 10 + n mod 10.
Proof.
  intros HP. symmetry. apply Z.mod_unique with (q := n / 10 / P).
  - left. pose proof (Z.mod_pos_bound (n / 10) P HP). pose proof (Z.mod_pos_bound n 10). lia.
  - pose proof (Z.div_mod n 10). pose proof (Z.div_mod (n / 10) P). lia.
Qed.

Lemma read_pad w n rest acc k :
  read_digits (app (list_ascii_of_string (pad_digits w n)) rest) acc k =
  read_digits rest (acc * 10 ^ Z.of_nat w + n mod 10 ^ Z.of_nat w) (k + w).
Proof.
  revert n rest acc k; induction w as [|w IH]; intros n rest acc k.
  - simpl. rewrite Z.mul_1_r, Z.mod_1_r, Z.add_0_r, Nat.add_0_r. reflexivity.
  - change (pad_digits (S w) n) with
      (String.append (pad_digits w (n / 10)) (String (digit_char (n mod 10)) EmptyString)).
    rewrite list_ascii_app, <- app_assoc, IH. cbn [app list_ascii_of_string read_digits].
    rewrite digit_val_char by (apply Z.mod_pos_bound; lia).
    rewrite pow10_S. f_equal; [|lia].
    pose proof (pow10_pos w).
    rewrite mod_mul10 by lia. lia.
Qed.

Lemma read_stop c rest acc k :
  digit_val c = None -> read_digits (c :: rest) acc k = (acc, k, c :: rest).
Proof. intros H; simpl; rewrite H; reflexivity. Qed.

Lemma ndigits_fuel_pos f n : (1 <= ndigits_fuel f n)%nat.
Proof. destruct f; cbn [ndigits_fuel]; [lia|]. destruct (n <? 10); lia. Qed.

Lemma div10_lt n m : 0 <= n -> n / 10 < m -> n < 10 * m.
Proof.
  intros Hn H. pose proof (Z.div_mod n 10) as E. pose proof (Z.mod_pos_bound n 10) as B. lia.
Qed.

Lemma ndigits_fuel_bound f n :
  0 <= n < 10 ^ (Z.of_nat f + 1) -> n < 10 ^ Z.of_nat (ndigits_fuel f n).
Proof.
  revert n; induction f as [|f IH]; intros n Hn; cbn [ndigits_fuel].
  - simpl in Hn |- *. lia.
  - destruct (Z.ltb_spec n 10) as [Hlt|Hge].
    + simpl. lia.
    + rewrite pow10_S. apply div10_lt; [lia|]. apply IH. split.
      * apply Z.div_pos; lia.
      * apply Z.div_lt_upper_bound; [lia|].
        rewrite <- Z.pow_succ_r by lia.
        replace (Z.succ (Z.of_nat f + 1)) with (Z.of_nat (S f) + 1) by lia. lia.
Qed.

Lemma ndigits_bound n : 0 <= n -> n < 10 ^ Z.of_nat (ndigits n).
Proof.
  intros Hn. unfold ndigits. apply ndigits_fuel_bound. split; [lia|].
  destruct (Z.eq_dec n 0) as [->|Hn0].
  - apply Z.pow_pos_nonneg; lia.
  - rewrite Nat2Z.inj_succ, Z2Nat.id by apply Z.log2_nonneg.
    destruct (Z.log2_spec n) as [_ H2]; [lia|].
    eapply Z.lt_le_trans; [exact H2|].
    transitivity (10 ^ Z.succ (Z.log2 n)).
    + apply Z.pow_le_mono_l. pose proof (Z.log2_nonneg n). lia.
    + apply Z.pow_le_mono_r; lia.
Qed.

Lemma ndigits_fuel_le f n k :
  0 <= n < 10 ^ Z.of_nat (S k) -> (ndigits_fuel f n <= S k)%nat.
Proof.
  revert n k; induction f as [|f IH]; intros n k Hn; cbn [ndigits_fuel]; [lia|].
  destruct (Z.ltb_spec n 10); [lia|].
  destruct k as [|k].
  - simpl in Hn. lia.
  - assert (ndigits_fuel f (n / 10) <= S k)%nat; [|lia].
    apply IH. split; [apply Z.div_pos; lia|].
    apply Z.div_lt_upper_bound; [lia|]. rewrite <- pow10_S. lia.
Qed.

(** Below [10 ^ 4], [f"{n:04d}"] is exactly four digits. *)
Lemma fmt_0d_4 n : 0 <= n < 10000 -> fmt_0d 4 n = pad_digits 4 n.
Proof.
  intros Hn. unfold fmt_0d. rewrite Nat.max_l; [reflexivity|].
  apply (ndigits_fuel_le _ n 3). change (10 ^ Z.of_nat 4) with 10000. lia.
Qed.

Lemma pad_digits_inj w a b :
  pad_digits w a = pad_digits w b -> a mod 10 ^ Z.of_nat w = b mod 10 ^ Z.of_nat w.
Proof.
  intros H. pose proof (read_pad w a [] 0 0) as Ha. pose proof (read_pad w b [] 0 0) as Hb.
  rewrite H, Hb in Ha. simpl in Ha. injection Ha. lia.
Qed.

Lemma sign_match (s : string) :
  match list_ascii_of_string s with "-"%char :: cs => (true, cs) | cs => (false, cs) end =
  match list_ascii_of_string s with
  | c :: cs => if Ascii.eqb c "-" then (true, cs) else (false, list_ascii_of_string s)
  | [] => (false, [])
  end.
Proof.
  destruct (list_ascii_of_string s) as [|c l]; [reflexivity|].
  destruct c as [[] [] [] [] [] [] [] []]; reflexivity.
Qed.

Lemma sign_nonneg (l : list ascii) :
  (exists c0 l0, l = c0 :: l0 /\ digit_val c0 <> None) ->
  match l with c :: cs => if Ascii.eqb c "-" then (true, cs) else (false, l) | [] => (false, []) end
  = (false, l).
Proof.
  intros (c0 & l0 & -> & H).
  destruct (Ascii.eqb_spec c0 "-") as [->|]; [exfalso; apply H; reflexivity | reflexivity].
Qed.

(** [Decimal(str(d)) == d], exponent included. *)
Lemma parse_str_dec d : parse_dec (str_dec d) = Some d.
Proof.
  destruct d as [c s]. unfold parse_dec. rewrite sign_match.
  unfold str_dec, str_int. cbn [coef scale].
  set (m := Z.abs c). set (p := 10 ^ Z.of_nat s).
  assert (Hp : 0 < p) by apply pow10_pos.
  assert (Hm : 0 <= m) by (unfold m; lia).
  set (q := m / p).
  assert (Hq : 0 <= q) by (apply Z.div_pos; lia).
  pose proof (ndigits_bound q Hq) as Hnd.
  assert (Hnd1 : (1 <= ndigits q)%nat) by apply ndigits_fuel_pos.
  assert (Hpad : forall rest, read_digits (app (list_ascii_of_string (pad_digits (ndigits q) q)) rest) 0 0
                              = read_digits rest q (ndigits q)).
  { intros rest. rewrite read_pad. f_equal. rewrite Z.mod_small by lia. lia. }
  destruct (pad_digits_head (pred (ndigits q)) q) as (c0 & l0 & Hl0 & Hc0).
  replace (S (pred (ndigits q))) with (ndigits q) in Hl0 by lia.
  assert (Hsgn : (if (c <? 0)%Z then (- m)%Z else m) = c) by (unfold m; destruct (Z.ltb_spec c 0); lia).
  assert (Hm_qp : q * p + m mod p = m) by (unfold q; pose proof (Z.div_mod m p); lia).
  set (nd := ndigits q) in *. clearbody nd.
  rewrite !list_ascii_app.
  destruct (Z.ltb_spec c 0) as [Hc|Hc].
  - change (list_ascii_of_string "-") with ["-"%char]. cbn [app Ascii.eqb Bool.eqb].
    lazy beta iota zeta. rewrite Hpad.
    destruct s as [|s].
    + cbn. destruct nd as [|nd]; [lia|]. cbn. do 2 f_equal.
      unfold q, p in *. simpl in *. rewrite Z.div_1_r. lia.
    + change (list_ascii_of_string ("." ++ pad_digits (S s) (m mod p)))
        with ("."%char :: list_ascii_of_string (pad_digits (S s) (m mod p))).
      rewrite read_stop by reflexivity. lazy beta iota.
      rewrite <- (app_nil_r (list_ascii_of_string (pad_digits (S s) (m mod p)))), read_pad.
      cbn. destruct nd as [|nd]; [lia|]. cbn. do 2 f_equal.
      fold p. rewrite (Z.mod_small (m mod p)) by (apply Z.mod_pos_bound; lia). lia.
  - change (list_ascii_of_string "") with (@nil ascii). cbn [app].
    rewrite sign_nonneg by (rewrite Hl0; eexists _, _; split; [reflexivity | exact Hc0]).
    lazy beta iota zeta. rewrite Hpad.
    destruct s as [|s].
    + cbn. destruct nd as [|nd]; [lia|]. cbn. do 2 f_equal.
      unfold q, p in *. simpl in *. rewrite Z.div_1_r. lia.
    + change (list_ascii_of_string ("." ++ pad_digits (S s) (m mod p)))
        with ("."%char :: list_ascii_of_string (pad_digits (S s) (m mod p))).
      rewrite read_stop by reflexivity. lazy beta iota.
      rewrite <- (app_nil_r (list_ascii_of_string (pad_digits (S s) (m mod p)))), read_pad.
      cbn. destruct nd as [|nd]; [lia|]. cbn. do 2 f_equal.
      fold p. rewrite (Z.mod_small (m mod p)) by (apply Z.mod_pos_bound; lia). lia.
Qed.

End PyFormatFacts.

(* ===================================================================== *)
(** ** Facts about the generator                                          *)
(* ===================================================================== *)

Module GeneratorFacts.
Import PyStr PyFormat PyFormatFacts Generator.
Local Open Scope Z_scope.

(** What the validation at the end of the script sums for an order:
    [Decimal(oi['quantity']) * Decimal(oi['unit_price'])] over the items
    whose [order_id] is the order's. *)
Definition item_amount (it : OrderItem.t) : dec :=
  match parse_dec (OrderItem.unit_price it) with
  | Some u => dmul_int u (OrderItem.quantity it)
  | None => dec0
  end.

Definition items_of (oid : nat) (items : list OrderItem.t) : list OrderItem.t :=
  List.filter (fun it => Nat.eqb (OrderItem.order_id it) oid) items.

Definition order_sum (items : list OrderItem.t) (oid : nat) : dec :=
  fold_left dadd (map item_amount (items_of oid items)) dec0.

(** An item the script can write: quantity in [[1, 5]], and a unit price
    with two decimal places of at least [9.99]. *)
Definition good_item (it : OrderItem.t) : Prop :=
  1 <= OrderItem.quantity it <= 5 /\
  exists u, parse_dec (OrderItem.unit_price it) = Some u /\ scale u = 2%nat /\ 999 <= coef u.

Section Facts.
Variable R : PyRandom.
Variable F : FakerLib.
Variable E : env.

Lemma gbind_Some {A B} (m : Gen R F A) (f : A -> Gen R F B) g b g2 :
  gbind R F m f g = Some (b, g2) -> exists a g1, m g = Some (a, g1) /\ f a g1 = Some (b, g2).
Proof. unfold gbind. destruct (m g) as [[a g1]|]; [eauto | discriminate]. Qed.

Lemma gret_Some {A} (a b : A) g g' : gret R F a g = Some (b, g') -> a = b /\ g = g'.
Proof. unfold gret. intros H; injection H; auto. Qed.

Lemma glift_Some {A} (o : option A) a g g' : glift R F o g = Some (a, g') -> o = Some a /\ g' = g.
Proof. unfold glift. destruct o; intros H; [injection H; intros; subst; auto | discriminate]. Qed.

Ltac ginv :=
  repeat match goal with
  | H : gbind _ _ _ _ _ = Some _ |- _ =>
      let a := fresh "a" in let g := fresh "g" in let H1 := fresh "Hm" in
      apply gbind_Some in H; destruct H as (a & g & H1 & H); cbv beta zeta in H
  | H : glift _ _ _ _ = Some _ |- _ =>
      let E1 := fresh "Ho" in let E2 := fresh "Hg" in
      apply glift_Some in H; destruct H as [E1 E2]
  | H : gret _ _ _ _ = Some _ |- _ =>
      let E2 := fresh "Hg" in
      apply gret_Some in H; destruct H as [H E2]
  end.

Lemma rand_below_spec n g r g' :
  random_contract R -> 0 < n -> rand_below R F n g = Some (r, g') -> 0 <= r < n.
Proof.
  intros (HR & _ & _) Hn. unfold rand_below.
  pose proof (HR n (rng R F g) Hn) as H.
  destruct (randbelow R n (rng R F g)) as [r0 s]. intros Hs; injection Hs; intros; subst. exact H.
Qed.

Lemma randint_spec a b g r g' :
  random_contract R -> a <= b -> randint R F a b g = Some (r, g') -> a <= r <= b.
Proof.
  intros HR Hab H. unfold randint in H. ginv.
  apply rand_below_spec in Hm; [lia | exact HR | lia].
Qed.

Lemma random01_spec g r g' :
  random_contract R -> random01 R F g = Some (r, g') -> (0 <= r /\ r < 1)%Q.
Proof.
  intros (_ & HR & _). unfold random01.
  pose proof (HR (rng R F g)) as H.
  destruct (random R (rng R F g)) as [r0 s]. intros Hs; injection Hs; intros; subst. exact H.
Qed.

Lemma sampleM_spec {A} (pop : list A) k g xs g' :
  random_contract R -> (k <= length pop)%nat -> sampleM R F pop k g = Some (xs, g') ->
  length xs = k /\ forall x, In x xs -> In x pop.
Proof.
  intros (_ & _ & HR) Hk. unfold sampleM.
  pose proof (HR A pop k (rng R F g) Hk) as H.
  destruct (sample R A pop k (rng R F g)) as [r0 s]. intros Hs; injection Hs; intros; subst. exact H.
Qed.

(** The [i]-th iteration of [for i in range(k)] produced the [i]-th
    element. *)
Lemma for_range_from_spec {A} (Q : nat -> A -> Prop) (body : nat -> Gen R F A) :
  (forall j g x g', body j g = Some (x, g') -> Q j x) ->
  forall k i g xs g', for_range_from R F i k body g = Some (xs, g') ->
  length xs = k /\ forall j x, nth_error xs j = Some x -> Q (i + j)%nat x.
Proof.
  intros HQ k; induction k as [|k IH]; intros i g xs g' H; cbn [for_range_from] in H; ginv.
  - subst. split; [reflexivity|]. intros [|j] x Hx; discriminate.
  - subst. destruct (IH (S i) _ _ _ Hm0) as [Hl Hn].
    split; [simpl; lia|]. intros [|j] y Hy; simpl in Hy.
    + injection Hy as <-. rewrite Nat.add_0_r. eapply HQ; eauto.
    + replace (i + S j)%nat with (S i + j)%nat by lia. auto.
Qed.

Lemma for_range_spec {A} (Q : nat -> A -> Prop) (body : nat -> Gen R F A) k g xs g' :
  (forall j g x g', body j g = Some (x, g') -> Q j x) ->
  for_range R F k body g = Some (xs, g') ->
  length xs = k /\ forall j x, nth_error xs j = Some x -> Q j x.
Proof. intros HQ H. exact (for_range_from_spec Q body HQ k 0 g xs g' H). Qed.

Lemma for_range_Forall {A} (Q : A -> Prop) (body : nat -> Gen R F A) k g xs g' :
  (forall j g x g', body j g = Some (x, g') -> Q x) ->
  for_range R F k body g = Some (xs, g') -> forall x, In x xs -> Q x.
Proof.
  intros HQ H x Hx. destruct (for_range_spec (fun _ => Q) body k g xs g' HQ H) as [_ Hn].
  destruct (In_nth_error xs x Hx) as [j Hj]. exact (Hn j x Hj).
Qed.

(** An invariant of [for x in xs] over the part of [xs] already done. *)
Lemma foldM_prefix {A B} (f : A -> B -> Gen R F B) (xs : list A) (P : list A -> B -> Prop) :
  (forall pre x post b g b' g', xs = app pre (x :: post) -> P pre b ->
     f x b g = Some (b', g') -> P (app pre [x]) b') ->
  forall post pre b g b' g', xs = app pre post -> P pre b ->
  foldM R F f post b g = Some (b', g') -> P xs b'.
Proof.
  intros Hstep post; induction post as [|x post IH]; intros pre b g b' g' Hxs HP H;
    cbn [foldM] in H; ginv.
  - subst. rewrite app_nil_r. exact HP.
  - apply (IH (app pre [x]) a g0 b' g'); [rewrite <- app_assoc; exact Hxs | | exact H].
    eapply Hstep; eauto.
Qed.

Lemma foldM_inv {A B} (f : A -> B -> Gen R F B) (xs : list A) (P : B -> Prop) b g b' g' :
  (forall x b g b' g', P b -> f x b g = Some (b', g') -> P b') ->
  P b -> foldM R F f xs b g = Some (b', g') -> P b'.
Proof.
  intros Hstep HP H.
  exact (foldM_prefix f xs (fun _ => P) (fun _ x _ b g b' g' _ => Hstep x b g b' g') xs [] b g b' g'
           eq_refl HP H).
Qed.

(** The phases of a successful run. *)
Lemma generate_phases sz seed f0 ds :
  generate_data_sized R F E sz seed f0 = Some ds ->
  exists g1 g2 g3 g4 orders0 totals c,
    for_range R F (n_customers sz) (gen_customer R F E) (mk_g R F seed f0 0 0)
      = Some (customers ds, g1) /\
    for_range R F (n_products sz) (gen_product R F E) g1 = Some (products ds, g2) /\
    for_range R F (n_orders sz) (gen_order R F E (customers ds)) g2 = Some (orders0, g3) /\
    foldM R F (gen_items_for R F (products ds) (map Product.product_id (products ds))) orders0
      ([], ∅, 1%nat) g3 = Some ((order_items ds, totals, c), g4) /\
    orders ds = update_totals totals orders0.
Proof.
  unfold generate_data_sized. destruct (generate_all_sized R F E sz _) as [[ds' g']|] eqn:Hrun;
    [|discriminate].
  intros H; injection H as <-. unfold generate_all_sized in Hrun. ginv.
  destruct a2 as [[its tot] c]. ginv. subst. cbn.
  exists g, g0, g1, g2, a1, tot, c. repeat split; assumption.
Qed.

(** *** products *)

Lemma gen_product_sku j g p g' :
  gen_product R F E j g = Some (p, g') ->
  exists pre, list_ascii_of_string (Product.sku p) =
              app pre (list_ascii_of_string (fmt_0d 4 (Z.of_nat (S j)))).
Proof.
  intros H. unfold gen_product in H. cbv zeta in H. ginv. subst. cbn [Product.sku].
  rewrite !list_ascii_app. eexists. rewrite !app_assoc. reflexivity.
Qed.

Lemma gen_product_id j g p g' :
  gen_product R F E j g = Some (p, g') -> Product.product_id p = S j.
Proof. intros H. unfold gen_product in H. cbv zeta in H. ginv. subst. reflexivity. Qed.

Lemma quantize2_Q_ge x : (999 # 100 <= x)%Q -> scale (quantize2_Q x) = 2%nat /\ 999 <= coef (quantize2_Q x).
Proof.
  intros Hx. unfold quantize2_Q. cbn [coef scale]. split; [reflexivity|].
  replace (Qle_bool 0 x) with true by (symmetry; apply Qle_bool_iff; lra).
  assert (H : (Qfloor (999 # 1) <= Qfloor (x * 100 + (1 # 2)))%Z) by (apply Qfloor_resp_le; lra).
  exact H.
Qed.

Lemma gen_product_price j g p g' :
  random_contract R -> gen_product R F E j g = Some (p, g') ->
  exists d, Product.price p = str_dec d /\ scale d = 2%nat /\ 999 <= coef d.
Proof.
  intros HR H. unfold gen_product in H. cbv zeta in H. ginv. subst. cbn [Product.price].
  unfold uniform in *. ginv. subst.
  repeat match goal with
  | H : random01 _ _ _ = Some _ |- _ => apply random01_spec in H; [|exact HR]
  end.
  eexists; split; [reflexivity|]. apply quantize2_Q_ge. lra.
Qed.

Lemma app_eq_tail {A} (l1 l2 m1 m2 : list A) :
  length m1 = length m2 -> app l1 m1 = app l2 m2 -> m1 = m2.
Proof.
  intros Hm H. assert (Hl : length l1 = length l2).
  { apply (f_equal (@length A)) in H. rewrite !List.length_app in H. lia. }
  revert l2 Hl H; induction l1 as [|x l1 IH]; intros [|y l2] Hl H; simpl in *; try lia; auto.
  injection H as _ H. apply (IH l2); auto.
Qed.

(** *** order totals *)

Definition total_of (totals : gmap nat dec) (oid : nat) : dec :=
  match totals !! oid with Some t => t | None => dec0 end.

Lemma order_sum_snoc items it oid :
  order_sum (app items [it]) oid =
  if Nat.eqb (OrderItem.order_id it) oid then dadd (order_sum items oid) (item_amount it)
  else order_sum items oid.
Proof.
  unfold order_sum, items_of. rewrite List.filter_app. cbn [List.filter].
  destruct (Nat.eqb _ _); cbn [app]; rewrite ?app_nil_r, ?List.map_app, ?List.fold_left_app;
    reflexivity.
Qed.

Lemma gen_item_totals products oid pid items0 its t c g its' t' c' g' :
  (forall k, total_of t k = order_sum (app items0 its) k) ->
  gen_item R F products oid pid (its, t, c) g = Some ((its', t', c'), g') ->
  forall k, total_of t' k = order_sum (app items0 its') k.
Proof.
  intros Hinv H. unfold gen_item in H. ginv. injection H as <- <- <-. intros k.
  rewrite app_assoc, order_sum_snoc. cbn [OrderItem.order_id].
  unfold total_of, add_total. destruct (Nat.eqb_spec oid k) as [<-|Hne].
  - rewrite lookup_insert_eq. fold (total_of t oid). rewrite Hinv.
    unfold item_amount. cbn [OrderItem.unit_price OrderItem.quantity]. rewrite parse_str_dec.
    reflexivity.
  - rewrite lookup_insert_ne by exact Hne. apply Hinv.
Qed.

Lemma gen_items_for_totals products pids o its t c g its' t' c' g' :
  (forall k, total_of t k = order_sum its k) ->
  gen_items_for R F products pids o (its, t, c) g = Some ((its', t', c'), g') ->
  forall k, total_of t' k = order_sum its' k.
Proof.
  intros Hinv H. unfold gen_items_for in H. cbv zeta in H. ginv.
  destruct a1 as [[ifo t1] c1]. ginv. injection H as <- <- <-.
  refine (foldM_inv _ _ (fun '(ifo, t, _) => forall k, total_of t k = order_sum (app its ifo) k)
            _ _ _ _ _ _ Hm1).
  - intros pid [[ifo0 t0] c0] gx [[ifo1 t2] c2] gy Hi Hs. eapply gen_item_totals; eauto.
  - intros k. rewrite app_nil_r. apply Hinv.
Qed.

Lemma gen_order_placeholder customers j g o g' :
  gen_order R F E customers j g = Some (o, g') ->
  Order.order_id o = S j /\ Order.total_amount o = str_dec dec0.
Proof. intros H. unfold gen_order in H. cbv zeta in H. ginv. subst. split; reflexivity. Qed.

Lemma in_update_totals totals orders0 o :
  In o (update_totals totals orders0) ->
  exists o0, In o0 orders0 /\ Order.order_id o = Order.order_id o0 /\
    Order.total_amount o = match totals !! Order.order_id o0 with
                           | Some t => str_dec (quantize2 t)
                           | None => Order.total_amount o0
                           end.
Proof.
  unfold update_totals. intros Ho. apply in_map_iff in Ho as (o0 & <- & Ho0).
  exists o0. split; [exact Ho0|].
  destruct (totals !! Order.order_id o0); split; reflexivity.
Qed.

(** The totals the script writes: [ROUND_HALF_UP] of the exact sum of the
    order's items, the [0.00] placeholder when it has none. *)
Lemma generated_totals sz seed f0 ds :
  generate_data_sized R F E sz seed f0 = Some ds ->
  forall o, In o (orders ds) ->
    Order.total_amount o = str_dec (quantize2 (order_sum (order_items ds) (Order.order_id o))).
Proof.
  intros Hrun o Ho.
  destruct (generate_phases sz seed f0 ds Hrun) as (g1 & g2 & g3 & g4 & orders0 & totals & c &
    _ & _ & Hord & Hitems & Hds).
  assert (Htot : forall k, total_of totals k = order_sum (order_items ds) k).
  { refine (foldM_inv _ _ (fun '(its, t, _) => forall k, total_of t k = order_sum its k)
              _ _ _ _ _ _ Hitems).
    - intros o1 [[its0 t0] c0] gx [[its1 t1] c1] gy Hi Hs. eapply gen_items_for_totals; eauto.
    - intros k. reflexivity. }
  rewrite Hds in Ho. apply in_update_totals in Ho as (o0 & Ho0 & Hid & Ht).
  rewrite Ht, Hid, <- Htot. unfold total_of.
  destruct (totals !! Order.order_id o0); [reflexivity|].
  pose proof (for_range_Forall (fun o => Order.total_amount o = str_dec dec0) _ _ _ _ _
    (fun j g x g' H => proj2 (gen_order_placeholder _ j g x g' H)) Hord o0 Ho0) as Hp.
  rewrite Hp. reflexivity.
Qed.

(** *** line items *)

Lemma filter_none_kept {A} (f : A -> bool) l :
  (forall x, In x l -> f x = false) -> List.filter f l = [].
Proof.
  induction l as [|x l IH]; intros H; simpl; [reflexivity|].
  rewrite (H x (or_introl eq_refl)). apply IH. intros y Hy. apply H. right. exact Hy.
Qed.

Lemma filter_every_kept {A} (f : A -> bool) l :
  (forall x, In x l -> f x = true) -> List.filter f l = l.
Proof.
  induction l as [|x l IH]; intros H; simpl; [reflexivity|].
  rewrite (H x (or_introl eq_refl)). f_equal. apply IH. intros y Hy. apply H. right. exact Hy.
Qed.

Lemma NoDup_ids {A} (f : A -> nat) xs :
  (forall j x, nth_error xs j = Some x -> f x = S j) -> List.NoDup (map f xs).
Proof.
  intros H. apply List.NoDup_nth_error. rewrite List.length_map. intros i j Hi Hij.
  rewrite !List.nth_error_map in Hij.
  destruct (nth_error xs i) as [xi|] eqn:Ei; [|apply nth_error_None in Ei; lia].
  destruct (nth_error xs j) as [xj|] eqn:Ej; [|discriminate].
  injection Hij as Hf. rewrite (H i xi Ei), (H j xj Ej) in Hf. lia.
Qed.

Definition good_products (products : list Product.t) : Prop :=
  forall p, In p products -> exists d, Product.price p = str_dec d /\ scale d = 2%nat /\ 999 <= coef d.

Lemma gen_item_good products oid pid its t c g its' t' c' g' :
  random_contract R -> good_products products ->
  gen_item R F products oid pid (its, t, c) g = Some ((its', t', c'), g') ->
  exists it, its' = app its [it] /\ OrderItem.order_id it = oid /\ good_item it.
Proof.
  intros HR Hp H. unfold gen_item in H. ginv. injection H as <- _ _.
  eexists; split; [reflexivity|]. split; [reflexivity|]. split.
  - cbn [OrderItem.quantity]. eapply randint_spec; eauto. lia.
  - cbn [OrderItem.unit_price]. rewrite parse_str_dec.
    match goal with Hf : find _ _ = Some _ |- _ => apply find_some in Hf as [Hin _] end.
    destruct (Hp _ Hin) as (d & Hd & Hs & Hc).
    match goal with Hu : parse_dec _ = Some _ |- _ => rewrite Hd, parse_str_dec in Hu; injection Hu as <- end.
    eauto.
Qed.

Lemma gen_items_for_new products pids o its t c g its' t' c' g' :
  random_contract R -> good_products products -> (6 <= length pids)%nat ->
  gen_items_for R F products pids o (its, t, c) g = Some ((its', t', c'), g') ->
  exists new, its' = app its new /\ (1 <= length new <= 6)%nat /\
    forall it, In it new -> OrderItem.order_id it = Order.order_id o /\ good_item it.
Proof.
  intros HR Hp Hn H. unfold gen_items_for in H. cbv zeta in H. ginv.
  destruct a1 as [[ifo t1] c1]. ginv. injection H as <- _ _.
  apply randint_spec in Hm; [|exact HR|lia].
  apply sampleM_spec in Hm0 as [Hlen _]; [|exact HR|lia].
  pose proof (foldM_prefix (gen_item R F products (Order.order_id o)) a0
    (fun pre (b : list OrderItem.t * gmap nat dec * nat) => let '(ifo, _, _) := b in
       length ifo = length pre /\
       forall it, In it ifo -> OrderItem.order_id it = Order.order_id o /\ good_item it))
    as Hf.
  refine ((fun HP => _) (Hf _ a0 [] _ _ _ _ eq_refl _ Hm1)).
  - destruct HP as [Hl Hall]. exists ifo. split; [reflexivity|]. split; [|exact Hall].
    rewrite Hl, Hlen. lia.
  - intros pre pid post [[ifo0 t0] c0] gx [[ifo1 t2] c2] gy _ [Hl Hall] Hs.
    destruct (gen_item_good _ _ _ _ _ _ _ _ _ _ _ HR Hp Hs) as (it & -> & Hid & Hgood).
    split.
    + rewrite !List.length_app, Hl. reflexivity.
    + intros it' Hit'. apply in_app_or in Hit' as [Hit'|[<-|[]]]; auto.
  - split; [reflexivity|]. intros it [].
Qed.

(** What the items loop leaves for the orders it has gone through. *)
Definition items_inv (pre : list Order.t) (its : list OrderItem.t) : Prop :=
  (forall it, In it its -> In (OrderItem.order_id it) (map Order.order_id pre) /\ good_item it) /\
  (forall o, In o pre -> (1 <= length (items_of (Order.order_id o) its) <= 6)%nat).

Lemma items_loop products pids orders0 its t c g g' :
  random_contract R -> good_products products -> (6 <= length pids)%nat ->
  List.NoDup (map Order.order_id orders0) ->
  foldM R F (gen_items_for R F products pids) orders0 ([], ∅, 1%nat) g = Some ((its, t, c), g') ->
  items_inv orders0 its.
Proof.
  intros HR Hp Hn Hnd H.
  refine (foldM_prefix _ orders0 (fun pre (b : list OrderItem.t * gmap nat dec * nat) => let '(its, _, _) := b in items_inv pre its) _ orders0 [] _ _ _ _
            eq_refl _ H).
  - intros pre x post [[its0 t0] c0] gx [[its1 t1] c1] gy Hxs [Hits Hcnt] Hs.
    destruct (gen_items_for_new _ _ _ _ _ _ _ _ _ _ _ HR Hp Hn Hs) as (new & -> & Hlen & Hnew).
    assert (Hx : ~ In (Order.order_id x) (map Order.order_id pre)).
    { rewrite Hxs, List.map_app in Hnd. cbn [map] in Hnd. apply NoDup_remove_2 in Hnd.
      intros Hin. apply Hnd. apply in_or_app. left. exact Hin. }
    split.
    + intros it Hit. rewrite List.map_app. apply in_app_or in Hit as [Hit|Hit].
      * destruct (Hits it Hit) as [Hin Hg]. split; [apply in_or_app; left; exact Hin | exact Hg].
      * destruct (Hnew it Hit) as [Hid Hg]. split; [|exact Hg].
        apply in_or_app. right. rewrite Hid. left. reflexivity.
    + intros o Ho. unfold items_of. rewrite List.filter_app. fold (items_of (Order.order_id o) its0).
      apply in_app_or in Ho as [Ho|[<-|[]]].
      * rewrite (filter_none_kept _ new), app_nil_r; [exact (Hcnt o Ho)|].
        intros it Hit. destruct (Hnew it Hit) as [Hid _]. rewrite Hid. apply Nat.eqb_neq.
        intros Heq. apply Hx. rewrite Heq. apply in_map. exact Ho.
      * unfold items_of. rewrite (filter_none_kept _ its0), (filter_every_kept _ new); [exact Hlen| |].
        -- intros it Hit. destruct (Hnew it Hit) as [Hid _]. rewrite Hid. apply Nat.eqb_refl.
        -- intros it Hit. destruct (Hits it Hit) as [Hin _]. apply Nat.eqb_neq.
           intros Heq. apply Hx. rewrite <- Heq. exact Hin.
  - split; [intros it []|intros o []].
Qed.

Lemma fold_amounts_pos l acc :
  scale acc = 2%nat -> (forall it, In it l -> good_item it) ->
  scale (fold_left dadd (map item_amount l) acc) = 2%nat /\
  coef acc + 999 * Z.of_nat (length l) <= coef (fold_left dadd (map item_amount l) acc).
Proof.
  revert acc; induction l as [|it l IH]; intros acc Hs Hg; cbn [map fold_left length].
  - split; [exact Hs | lia].
  - destruct (Hg it (or_introl eq_refl)) as [Hq (u & Hu & Hus & Huc)].
    assert (Ha : item_amount it = dmul_int u (OrderItem.quantity it)) by (unfold item_amount; rewrite Hu; reflexivity).
    destruct (IH (dadd acc (item_amount it))) as [IH1 IH2].
    + unfold dadd. rewrite Ha. cbn [scale dmul_int]. rewrite Hs, Hus. reflexivity.
    + intros it' Hit'. apply Hg. right. exact Hit'.
    + split; [exact IH1|].
      assert (coef acc + 999 <= coef (dadd acc (item_amount it))); [|lia].
      unfold dadd. rewrite Ha. cbn [scale dmul_int coef]. rewrite Hs, Hus. cbn. nia.
Qed.

Lemma quantize2_scale2 d : scale d = 2%nat -> quantize2 d = d.
Proof.
  destruct d as [c s]. cbn. intros ->. unfold quantize2. cbn. rewrite Z.mul_1_r. reflexivity.
Qed.

Lemma generated_items sz seed f0 ds :
  random_contract R -> (6 <= n_products sz)%nat ->
  generate_data_sized R F E sz seed f0 = Some ds ->
  forall o, In o (orders ds) ->
    (1 <= length (items_of (Order.order_id o) (order_items ds)) <= 6)%nat /\
    (forall it, In it (items_of (Order.order_id o) (order_items ds)) -> good_item it).
Proof.
  intros HR Hn Hrun o Ho.
  destruct (generate_phases sz seed f0 ds Hrun) as (g1 & g2 & g3 & g4 & orders0 & totals & c &
    _ & Hprod & Hord & Hitems & Hds).
  destruct (for_range_spec _ _ _ _ _ _
              (fun j g x g' H => proj1 (gen_order_placeholder _ j g x g' H)) Hord) as [_ Hid0].
  destruct (for_range_spec _ _ _ _ _ _ (gen_product_id) Hprod) as [Hplen _].
  assert (Hp : good_products (products ds)).
  { intros p Hin. exact (for_range_Forall _ _ _ _ _ _ (fun j g x g' H => gen_product_price j g x g' HR H)
                                           Hprod p Hin). }
  assert (H6 : (6 <= length (map Product.product_id (products ds)))%nat)
    by (rewrite List.length_map; lia).
  destruct (items_loop _ _ _ _ _ _ _ _ HR Hp H6 (NoDup_ids _ _ Hid0) Hitems) as [Hall Hcnt].
  rewrite Hds in Ho. apply in_update_totals in Ho as (o0 & Ho0 & Hid & _).
  rewrite Hid. split; [exact (Hcnt o0 Ho0)|].
  intros it Hit. unfold items_of in Hit. apply List.filter_In in Hit as [Hit _].
  exact (proj2 (Hall it Hit)).
Qed.

End Facts.
End GeneratorFacts.

(* ===================================================================== *)
(** ** Generator: claims                                                  *)
(* ===================================================================== *)

Module GeneratorClaims.
Import PyStr PyFormat PyFormatFacts Generator GeneratorFacts GeneratorRun.
Local Open Scope Z_scope.

(** [customer_id = str(uuid.uuid4())] of the first customer is the first
    thing the script computes, from the machine's entropy. *)
Lemma first_customer_id R F E sz seed f0 ds :
  (0 < n_customers sz)%nat ->
  generate_data_sized R F E sz seed f0 = Some ds ->
  exists c rest, customers ds = c :: rest /\
    Customer.customer_id c = uuid_str (uuid4_int (urandom16 E 0)).
Proof.
  intros Hn Hrun.
  destruct (generate_phases R F E sz seed f0 ds Hrun) as (g1 & _ & _ & _ & _ & _ & _ & Hc & _).
  destruct (n_customers sz) as [|n]; [lia|].
  unfold for_range in Hc. cbn [for_range_from] in Hc.
  apply gbind_Some in Hc as (c & gc & Hc0 & Hc). cbv beta in Hc.
  apply gbind_Some in Hc as (rest & gr & _ & Hc). apply gret_Some in Hc as [Hcs _].
  exists c, rest. split; [symmetry; exact Hcs|].
  unfold gen_customer in Hc0. apply gbind_Some in Hc0 as (cid & g' & Hu & Hc0). cbv beta zeta in Hc0.
  unfold uuid4 in Hu. cbn in Hu. injection Hu as <- <-.
  repeat (apply gbind_Some in Hc0 as (? & ? & _ & Hc0); cbv beta zeta in Hc0).
  apply gret_Some in Hc0 as [<- _]. reflexivity.
Qed.

Lemma rotate_length {A} k (xs : list A) : length (rotate k xs) = length xs.
Proof.
  revert xs; induction k as [|k IH]; intros [|x xs]; cbn [rotate]; try reflexivity.
  rewrite IH, List.length_app. simpl. lia.
Qed.

Lemma rotate_In {A} k (xs : list A) y : In y (rotate k xs) -> In y xs.
Proof.
  revert xs; induction k as [|k IH]; intros [|x xs] H; cbn [rotate] in H; try exact H.
  apply IH in H. apply in_app_or in H as [H|[<-|[]]]; [right; exact H | left; reflexivity].
Qed.

Lemma lcg_contract : random_contract lcg.
Proof.
  split; [|split].
  - intros n s Hn. cbn. destruct (Z.leb_spec n 0); [lia|]. apply Z.mod_pos_bound. lia.
  - intros s. cbn. pose proof (Z.mod_pos_bound (s / 65536) 1000 ltac:(lia)).
    unfold Qle, Qlt. cbn. lia.
  - intros A pop k s Hk. cbn. split.
    + rewrite List.length_firstn, rotate_length. lia.
    + intros x Hx. apply (rotate_In (Z.to_nat ((s / 65536) mod Z.of_nat (S (length pop))))).
      rewrite <- (List.firstn_skipn k (rotate _ pop)). apply in_or_app. left. exact Hx.
Qed.

(** C1. For every fixed seed, two runs of the generator produce the same
    collections. Refuted: the first customer's [customer_id] is
    [str(uuid.uuid4())], built from [os.urandom(16)] and not from the
    seeded [random]; two runs that read different bytes differ, whatever
    the seed. (The clock is read the same way by every [datetime.now()].) *)
Theorem C1_runs_differ_with_entropy R F E1 E2 sz seed f0 ds1 ds2 :
  (0 < n_customers sz)%nat ->
  generate_data_sized R F E1 sz seed f0 = Some ds1 ->
  generate_data_sized R F E2 sz seed f0 = Some ds2 ->
  uuid_str (uuid4_int (urandom16 E1 0)) <> uuid_str (uuid4_int (urandom16 E2 0)) ->
  ds1 <> ds2.
Proof.
  intros Hn H1 H2 Hu <-.
  destruct (first_customer_id R F E1 sz seed f0 ds1 Hn H1) as (c1 & r1 & Hc1 & Hid1).
  destruct (first_customer_id R F E2 sz seed f0 ds1 Hn H2) as (c2 & r2 & Hc2 & Hid2).
  rewrite Hc1 in Hc2. injection Hc2 as <- _. congruence.
Qed.

(** C2. After the totals pass, every order's [total_amount] is
    [str(t.quantize(Decimal('0.01'), ROUND_HALF_UP))] for [t] the exact sum
    of [quantity * unit_price] over the order's items; an order with no
    item keeps [0.00]. *)
Theorem C2_order_total_is_rounded_item_sum R F E sz seed f0 ds :
  generate_data_sized R F E sz seed f0 = Some ds ->
  forall o, In o (orders ds) ->
    Order.total_amount o = str_dec (quantize2 (order_sum (order_items ds) (Order.order_id o))) /\
    (items_of (Order.order_id o) (order_items ds) = [] -> Order.total_amount o = "0.00").
Proof.
  intros Hrun o Ho. pose proof (generated_totals R F E sz seed f0 ds Hrun o Ho) as H.
  split; [exact H|]. intros Hnil. rewrite H. unfold order_sum. rewrite Hnil. reflexivity.
Qed.

(** C8. The SKUs of the products are pairwise distinct: each ends in
    [f"{product_id:04d}"] and the ids are [1 .. 200], whatever the random
    parts. *)
Theorem C8_skus_pairwise_distinct R F E sz seed f0 ds :
  Z.of_nat (n_products sz) < 10000 ->
  generate_data_sized R F E sz seed f0 = Some ds ->
  List.NoDup (map Product.sku (products ds)).
Proof.
  intros Hn Hrun.
  destruct (generate_phases R F E sz seed f0 ds Hrun) as (g1 & g2 & _ & _ & _ & _ & _ & _ & Hp & _).
  destruct (for_range_spec R F _ _ _ _ _ _ (gen_product_sku R F E) Hp) as [Hlen Hsku].
  apply List.NoDup_nth_error. rewrite List.length_map. intros i j Hi Hij.
  rewrite !List.nth_error_map in Hij.
  destruct (nth_error (products ds) i) as [pi|] eqn:Ei; [|apply nth_error_None in Ei; lia].
  destruct (nth_error (products ds) j) as [pj|] eqn:Ej; [|discriminate].
  injection Hij as Hs.
  assert (Hj : (j < length (products ds))%nat) by (apply nth_error_Some; congruence).
  destruct (Hsku i pi Ei) as [prei Hi']. destruct (Hsku j pj Ej) as [prej Hj'].
  rewrite Hs, Hj' in Hi'.
  rewrite !fmt_0d_4 in Hi' by lia.
  apply app_eq_tail in Hi'; [|rewrite !pad_digits_length; reflexivity].
  apply (f_equal string_of_list_ascii) in Hi'. rewrite !string_of_list_ascii_of_string in Hi'.
  apply pad_digits_inj in Hi'. change (10 ^ Z.of_nat 4) with 10000 in Hi'.
  rewrite !Z.mod_small in Hi' by lia. lia.
Qed.

(** C9. With [random] keeping its contract and a pool of at least six
    products, every order gets one to six items, each with a quantity in
    [[1, 5]] and a unit price of at least [9.99], and its total parses to a
    positive two-place decimal. *)
Theorem C9_orders_have_items_and_positive_totals R F E sz seed f0 ds :
  random_contract R ->
  (6 <= n_products sz)%nat ->
  generate_data_sized R F E sz seed f0 = Some ds ->
  forall o, In o (orders ds) ->
    (1 <= length (items_of (Order.order_id o) (order_items ds)) <= 6)%nat /\
    (forall it, In it (items_of (Order.order_id o) (order_items ds)) ->
       1 <= OrderItem.quantity it <= 5 /\
       exists u, parse_dec (OrderItem.unit_price it) = Some u /\ scale u = 2%nat /\ 999 <= coef u) /\
    exists t, parse_dec (Order.total_amount o) = Some t /\ scale t = 2%nat /\ 0 < coef t.
Proof.
  intros HR Hn Hrun o Ho.
  destruct (generated_items R F E sz seed f0 ds HR Hn Hrun o Ho) as [Hcnt Hgood].
  split; [exact Hcnt|]. split; [exact Hgood|].
  rewrite (generated_totals R F E sz seed f0 ds Hrun o Ho), parse_str_dec.
  destruct (fold_amounts_pos (items_of (Order.order_id o) (order_items ds)) dec0 eq_refl Hgood)
    as [Hs Hc].
  unfold order_sum. rewrite quantize2_scale2 by exact Hs.
  eexists; split; [reflexivity|]. split; [exact Hs|]. cbn [coef dec0] in Hc. lia.
Qed.

Lemma run_a_ok : generate_data_sized lcg no_faker env_a small_sizes 42 None = Some dataset_a.
Proof. vm_compute. reflexivity. Qed.

Lemma run_b_ok : generate_data_sized lcg no_faker env_b small_sizes 42 None = Some dataset_b.
Proof. vm_compute. reflexivity. Qed.

Lemma first_order_in : In (hd placeholder_order (orders dataset_a)) (orders dataset_a).
Proof. vm_compute. left. reflexivity. Qed.

Lemma C1_witness :
  generate_data_sized lcg no_faker env_a small_sizes 42 None = Some dataset_a
  /\ generate_data_sized lcg no_faker env_b small_sizes 42 None = Some dataset_b
  /\ dataset_a <> dataset_b.
Proof.
  split; [exact run_a_ok|]. split; [exact run_b_ok|].
  refine (C1_runs_differ_with_entropy lcg no_faker env_a env_b small_sizes 42 None dataset_a dataset_b
            _ run_a_ok run_b_ok _).
  - cbn. lia.
  - vm_compute. discriminate.
Defined.

Lemma C2_witness :
  let o := hd placeholder_order (orders dataset_a) in
  generate_data_sized lcg no_faker env_a small_sizes 42 None = Some dataset_a
  /\ In o (orders dataset_a)
  /\ Order.total_amount o = str_dec (quantize2 (order_sum (order_items dataset_a) (Order.order_id o)))
  /\ (items_of (Order.order_id o) (order_items dataset_a) = [] -> Order.total_amount o = "0.00").
Proof.
  cbv zeta. split; [exact run_a_ok|]. split; [exact first_order_in|].
  exact (C2_order_total_is_rounded_item_sum lcg no_faker env_a small_sizes 42 None dataset_a run_a_ok
           _ first_order_in).
Defined.

Lemma C8_witness :
  Z.of_nat (n_products small_sizes) < 10000
  /\ generate_data_sized lcg no_faker env_a small_sizes 42 None = Some dataset_a
  /\ List.NoDup (map Product.sku (products dataset_a)).
Proof.
  assert (Hn : Z.of_nat (n_products small_sizes) < 10000) by (cbn; lia).
  split; [exact Hn|]. split; [exact run_a_ok|].
  exact (C8_skus_pairwise_distinct lcg no_faker env_a small_sizes 42 None dataset_a Hn run_a_ok).
Defined.

Lemma C9_witness :
  let o := hd placeholder_order (orders dataset_a) in
  random_contract lcg /\ (6 <= n_products small_sizes)%nat
  /\ generate_data_sized lcg no_faker env_a small_sizes 42 None = Some dataset_a
  /\ In o (orders dataset_a)
  /\ (1 <= length (items_of (Order.order_id o) (order_items dataset_a)) <= 6)%nat
  /\ exists t, parse_dec (Order.total_amount o) = Some t /\ scale t = 2%nat /\ 0 < coef t.
Proof.
  cbv zeta. assert (Hn : (6 <= n_products small_sizes)%nat) by (cbn; lia).
  split; [exact lcg_contract|]. split; [exact Hn|]. split; [exact run_a_ok|].
  split; [exact first_order_in|].
  destruct (C9_orders_have_items_and_positive_totals lcg no_faker env_a small_sizes 42 None dataset_a
              lcg_contract Hn run_a_ok _ first_order_in) as (H1 & _ & H3).
  split; [exact H1 | exact H3].
Defined.

End GeneratorClaims.

(* ===================================================================== *)
(** ** [run_queries.py]: further properties                               *)
(* ===================================================================== *)

Module RunQueriesExtra.
Import PyStr PyFormat RunQueries QueryOutput.
Local Open Scope Z_scope.

(** A line that ends up in a statement: not blank, not a [--] comment, and
    without [EXPLAIN QUERY PLAN]. *)
Definition keep_line (line : string) : bool :=
  negb (is_empty (strip line) || startswith "--" (strip line)) &&
  negb (contains "EXPLAIN QUERY PLAN" (upper line)).

(** How an entry of [queries] is made from a group of lines. *)
Definition built_from (q : string) (g : list string) : Prop :=
  g <> [] /\ (q = join nl g \/ q = strip (join nl g)).

Definition split_inv (seen : list string) (st : split_state) : Prop :=
  exists groups, Forall2 built_from (queries st) groups /\
    app (concat groups) (current_query st) = List.filter keep_line seen.

Lemma split_step_inv seen st line :
  split_inv seen st -> split_inv (app seen [line]) (split_step st line).
Proof.
  intros (groups & Hq & Hc). unfold split_inv. rewrite List.filter_app, <- Hc.
  unfold split_step, keep_line. cbn [List.filter].
  destruct (is_empty (strip line) || startswith "--" (strip line)) eqn:E1; cbn [negb andb].
  - rewrite app_nil_r.
    destruct (startswith "--" (strip line) && contains "Query" (strip line));
      [|exists groups; split; [exact Hq | reflexivity]].
    destruct (current_query st) as [|x cq] eqn:Ecq; [exists groups; rewrite Ecq; split; [exact Hq | reflexivity]|].
    exists (app groups [x :: cq]). cbn [queries current_query]. split.
    + apply Forall2_app; [exact Hq|]. constructor; [|constructor].
      split; [discriminate | left; reflexivity].
    + rewrite concat_app. cbn [concat]. rewrite !app_nil_r. reflexivity.
  - destruct (contains "EXPLAIN QUERY PLAN" (upper line)); cbn [negb].
    + rewrite app_nil_r. exists groups. split; [exact Hq | reflexivity].
    + destruct (endswith_char ";" (rstrip line) && negb (in_explain st)).
      * destruct (negb (is_empty (strip (join nl (app (current_query st) [line]))))).
        -- exists (app groups [app (current_query st) [line]]). cbn [queries current_query].
           split.
           ++ apply Forall2_app; [exact Hq|]. constructor; [|constructor].
              split; [destruct (current_query st); discriminate | right; reflexivity].
           ++ rewrite concat_app. cbn [concat]. rewrite !app_nil_r, app_assoc. reflexivity.
        -- exists groups. cbn [queries current_query]. split; [exact Hq|].
           rewrite app_assoc. reflexivity.
      * exists groups. cbn [queries current_query]. split; [exact Hq|].
        rewrite app_assoc. reflexivity.
Qed.

Lemma split_fold_inv lines : forall seen st,
  split_inv seen st -> split_inv (app seen lines) (fold_left split_step lines st).
Proof.
  induction lines as [|line lines IH]; intros seen st H; cbn [fold_left].
  - rewrite app_nil_r. exact H.
  - replace (app seen (line :: lines)) with (app (app seen [line]) lines)
      by (rewrite <- app_assoc; reflexivity).
    apply IH. apply split_step_inv. exact H.
Qed.

Lemma rev_str_rev_str (s : string) : rev_str (rev_str s) = s.
Proof.
  unfold rev_str. rewrite list_ascii_of_string_of_list_ascii, rev_involutive.
  apply string_of_list_ascii_of_string.
Qed.

Lemma lstrip_by_head (p : ascii -> bool) (s : string) :
  match lstrip_by p s with EmptyString => True | String c _ => p c = false end.
Proof.
  induction s as [|c s IH]; cbn [lstrip_by]; [exact I|].
  destruct (p c) eqn:E; [exact IH | exact E].
Qed.

Lemma rstrip_by_last (p : ascii -> bool) (s : string) :
  match rev (list_ascii_of_string (rstrip_by p s)) with [] => True | c :: _ => p c = false end.
Proof.
  unfold rstrip_by, rev_str at 1. rewrite list_ascii_of_string_of_list_ascii, rev_involutive.
  pose proof (lstrip_by_head p (rev_str s)) as H.
  destruct (lstrip_by p (rev_str s)); exact H.
Qed.

Lemma string_length_app (s1 s2 : string) :
  String.length (String.append s1 s2) = (String.length s1 + String.length s2)%nat.
Proof. induction s1 as [|c s1 IH]; simpl; [reflexivity | rewrite IH; reflexivity]. Qed.

Lemma string_length_of_list (l : list ascii) : String.length (string_of_list_ascii l) = length l.
Proof. induction l as [|c l IH]; cbn; [reflexivity | rewrite IH; reflexivity]. Qed.

Lemma fold_len_acc (xs : list string) (a : Z) :
  fold_left (fun acc c => (acc + Z.of_nat (String.length c))%Z) xs a =
  (a + fold_left (fun acc c => acc + Z.of_nat (String.length c)) xs 0)%Z.
Proof.
  revert a. induction xs as [|x xs IH]; intros a; cbn [fold_left]; [lia|].
  rewrite (IH (a + _)%Z), (IH (0 + _)%Z). lia.
Qed.

Lemma join_length (sep x : string) (xs : list string) :
  Z.of_nat (String.length (join sep (x :: xs))) =
  (fold_left (fun acc c => acc + Z.of_nat (String.length c)) (x :: xs) 0
   + Z.of_nat (String.length sep) * Z.of_nat (length xs))%Z.
Proof.
  revert x. induction xs as [|y xs IH]; intros x.
  - cbn [join fold_left length]. lia.
  - change (join sep (x :: y :: xs)) with (String.append x (String.append sep (join sep (y :: xs)))).
    rewrite !string_length_app, Nat2Z.inj_add, Nat2Z.inj_add, IH.
    cbn [fold_left length]. rewrite (fold_len_acc xs (0 + _ + _)%Z), (fold_len_acc xs (0 + _)%Z).
    lia.
Qed.

Lemma sep_width (columns : list string) :
  Z.to_nat (fold_left (fun acc c => acc + Z.of_nat (String.length c)) columns 0
            + 3 * (Z.of_nat (length columns) - 1))%Z =
  String.length (join " | " columns).
Proof.
  destruct columns as [|x xs]; [reflexivity|].
  pose proof (join_length " | " x xs) as H. cbn [length] in *.
  change (Z.of_nat (String.length " | ")) with 3%Z in H. lia.
Qed.

(** X1. Splitting loses and invents no line: taken in order, the lines of
    the entries of [queries] are exactly the lines of the text that are
    not blank, not [--] comments and do not hold [EXPLAIN QUERY PLAN];
    each entry joins a non-empty group of consecutive kept lines with
    newlines, stripped when a semicolon closed it. *)
Theorem split_queries_lines (content : string) :
  exists groups, Forall2 built_from (split_queries content) groups /\
    concat groups = List.filter keep_line (split_on (ascii_of_nat 10) content).
Proof.
  destruct (split_fold_inv (split_on (ascii_of_nat 10) content) [] split_init)
    as (groups & Hq & Hc).
  { exists []. split; [constructor | reflexivity]. }
  unfold split_queries. cbn [app] in Hc.
  set (st := fold_left split_step (split_on (ascii_of_nat 10) content) split_init) in *.
  destruct (current_query st) as [|x cq] eqn:E.
  - exists groups. split; [exact Hq|]. rewrite <- Hc, app_nil_r. reflexivity.
  - exists (app groups [x :: cq]). split.
    + apply Forall2_app; [exact Hq|]. constructor; [|constructor].
      split; [discriminate | left; reflexivity].
    + rewrite concat_app. cbn [concat]. rewrite app_nil_r. exact Hc.
Qed.

(** X2. What [cursor.execute] receives is never empty and never ends with
    a semicolon: trailing semicolons are removed, and an entry with
    nothing else is skipped. *)
Theorem prepare_nonempty_no_semicolon (q s : string) :
  prepare q = Some s -> s <> EmptyString /\ endswith_char ";" s = false.
Proof.
  unfold prepare.
  destruct (is_empty (strip q) || endswith_char ";" (strip q)) eqn:E.
  - destruct (is_empty (rstrip_semi (strip q))) eqn:Ee; intros H; [discriminate|].
    injection H as <-. split; [intros Hs; rewrite Hs in Ee; discriminate|].
    unfold endswith_char. unfold rstrip_semi.
    pose proof (rstrip_by_last (fun c => Ascii.eqb c ";"%char) (strip q)) as Hl.
    destruct (rev (list_ascii_of_string (rstrip_by _ (strip q)))) as [|c cs]; [reflexivity|].
    destruct (Ascii.eqb_spec ";"%char c) as [<-|Hne]; [|reflexivity].
    cbn in Hl. discriminate.
  - apply orb_false_iff in E as [_ E].
    destruct (is_empty (strip q)) eqn:Ee; intros H; [discriminate|].
    injection H as <-. split; [intros Hs; rewrite Hs in Ee; discriminate | exact E].
Qed.

Lemma prepare_nonempty_no_semicolon_witness :
  prepare "  SELECT 1;; " = Some "SELECT 1" /\
  "SELECT 1" <> EmptyString /\ endswith_char ";" "SELECT 1" = false.
Proof.
  assert (H : prepare "  SELECT 1;; " = Some "SELECT 1") by reflexivity.
  split; [exact H | exact (prepare_nonempty_no_semicolon _ _ H)].
Defined.

(** X3. When rows came back, the printed output is the header, a dashed
    line exactly as wide as the header, at most ten rows, and one
    [... (n more rows)] line exactly when there are more than ten. *)
Theorem result_lines_layout (columns : list string) (rows : list (list (option string))) :
  rows <> [] ->
  let ls := result_lines columns rows in
  nth 0 ls EmptyString = join " | " columns /\
  String.length (nth 1 ls EmptyString) = String.length (join " | " columns) /\
  length ls = (2 + Nat.min 10 (length rows) + (if (10 <? length rows)%nat then 1 else 0))%nat.
Proof.
  destruct rows as [|r rs]; [congruence|]. intros _ ls. subst ls.
  unfold result_lines. split; [reflexivity|]. split.
  - cbn [nth app]. unfold repeat_char.
    rewrite string_length_of_list, repeat_length, sep_width. reflexivity.
  - rewrite List.length_app. cbn [length]. rewrite List.length_map, List.length_firstn.
    cbn [length]. destruct (10 <? S (length rs))%nat; cbn [length]; lia.
Qed.

Lemma result_lines_layout_witness :
  let rows := repeat [Some "1"; None] 12 in
  rows <> [] /\
  let ls := result_lines ["order_id"; "total"] rows in
  nth 0 ls EmptyString = join " | " ["order_id"; "total"] /\
  String.length (nth 1 ls EmptyString) = String.length (join " | " ["order_id"; "total"]) /\
  length ls = (2 + Nat.min 10 (length rows) + (if (10 <? length rows)%nat then 1 else 0))%nat.
Proof.
  intros rows. assert (H : rows <> []) by discriminate.
  split; [exact H | exact (result_lines_layout ["order_id"; "total"] rows H)].
Defined.

End RunQueriesExtra.

(* ===================================================================== *)
(** ** [ingest_to_sqlite.py]: further properties                         *)
(* ===================================================================== *)

Module IngestExtra.
Import PyStr Binary64 Ingest IngestFacts IngestScenarios.

(** *** Inserting rows *)

Lemma rows_of_table (t : string) (d : db) (rs : list row) :
  table t d = Some rs -> rows_of t d = rs.
Proof. unfold rows_of. intros ->. reflexivity. Qed.

Lemma rows_of_put_table_found (t : string) (rs rs' : list row) (d : db) :
  table t d = Some rs -> rows_of t (put_table t rs' d) = rs'.
Proof.
  unfold rows_of, table, put_table. induction d as [|[k x] d IH]; simpl; [discriminate|].
  destruct (String.eqb k t) eqn:E; simpl.
  - intros _. rewrite String.eqb_refl. reflexivity.
  - rewrite E. exact IH.
Qed.

(** A successful INSERT: the table exists, every column check passed on
    the new row, and the row is put after the existing ones. *)
Lemma insert_row_ok (d : db) (t : string) (cols : list string) (vals : list (option string))
    (d' : db) :
  insert_row d t cols vals = inr d' ->
  exists tcols rs r, table_columns t = Some tcols /\ table t d = Some rs /\
    forallb (check_column d rs r) tcols = true /\ d' = put_table t (app rs [r]) d.
Proof.
  unfold insert_row. destruct (table_columns t) as [tcols|]; [|discriminate].
  destruct (table t d) as [rs|]; [|discriminate].
  destruct (fold_left _ tcols _) as [e|r]; [discriminate|].
  destruct (forallb _ tcols) eqn:E; [|discriminate]. intros H. injection H as <-.
  exists tcols, rs, r. auto.
Qed.

Lemma insert_row_rows (d : db) (t : string) (cols : list string) (vals : list (option string))
    (d' : db) :
  insert_row d t cols vals = inr d' ->
  exists r, rows_of t d' = app (rows_of t d) [r] /\
    forall t', t' <> t -> rows_of t' d' = rows_of t' d.
Proof.
  intros H. destruct (insert_row_ok d t cols vals d' H) as (tcols & rs & r & _ & Ht & _ & ->).
  exists r. split.
  - rewrite (rows_of_put_table_found t rs), (rows_of_table t d rs Ht) by exact Ht. reflexivity.
  - intros t' Hne. apply rows_of_put_table_other. congruence.
Qed.

Lemma executemany_ok (t : string) (cols : list string) (rows : list (list (option string)))
    (w w1 : world) :
  executemany t cols rows w = (inr tt, w1) ->
  frame w1 = frame w /\
  exists rs, length rs = length rows /\
    rows_of t (work w1) = app (rows_of t (work w)) rs /\
    forall t', t' <> t -> rows_of t' (work w1) = rows_of t' (work w).
Proof.
  intros H. pose proof (executemany_frame t cols rows w) as Hf. rewrite H in Hf.
  split; [exact Hf|]. clear Hf. revert w H.
  induction rows as [|vals rows IH]; intros w H; simpl in H.
  - unfold ret in H. injection H as <-. exists []. rewrite app_nil_r. auto.
  - unfold bind, read in H. simpl in H.
    destruct (insert_row (work w) t cols vals) as [e|d'] eqn:Ei; [discriminate|].
    unfold bind, write in H. simpl in H.
    destruct (IH _ H) as (rs & Hl & Ht & Ho). simpl in Hl, Ht, Ho.
    destruct (insert_row_rows _ _ _ _ _ Ei) as (r & Hr & Hro).
    exists (r :: rs). simpl. split; [congruence|]. split.
    + rewrite Ht, Hr, <- app_assoc. reflexivity.
    + intros t' Hne. rewrite Ho, Hro by exact Hne. reflexivity.
Qed.

Lemma map_err_length {A B} (f : A -> error + B) (l : list A) (ys : list B) :
  map_err f l = inr ys -> length ys = length l.
Proof.
  revert ys. induction l as [|x l IH]; intros ys; simpl.
  - intros H. injection H as <-. reflexivity.
  - destruct (f x) as [e|y]; [discriminate|].
    destruct (map_err f l) as [e|ys']; [discriminate|].
    intros H. injection H as <-. simpl. f_equal. apply IH. reflexivity.
Qed.

(** X5. When [load_csv_to_table] returns a count, the file exists, its
    header has exactly the expected fields, and the count is the number of
    non-blank records of the file. The dry run leaves the connection as it
    was. The mutating run commits, and leaves the table with its old rows
    followed by exactly that many new rows; no other table changes. *)
Theorem load_csv_to_table_count (DRY_RUN : bool) (fs : files) (p t : string)
    (cols : list string) (w w' : world) (n : nat) :
  load_csv_to_table DRY_RUN fs p t cols w = (inr n, w') ->
  exists h body, fs p = Some (h :: body) /\ (forall c, In c h <-> In c cols) /\
    n = length (List.filter (fun r => match r with [] => false | _ => true end) body) /\
    (DRY_RUN = true -> w' = w) /\
    (DRY_RUN = false ->
       committed w' = work w' /\ (tgt w = OnDisk -> disk w' = Some (work w')) /\
       exists rs, length rs = n /\ rows_of t (work w') = app (rows_of t (work w)) rs /\
         forall t', t' <> t -> rows_of t' (work w') = rows_of t' (work w)).
Proof.
  unfold load_csv_to_table.
  destruct (fs p) as [[|h body]|]; [discriminate| |discriminate].
  assert (Hchk : exists r, (if set_eqb h cols then ret tt
                 else match set_diff cols h, set_diff h cols with
                      | _ :: _, _ => raise (MissingColumns (set_diff cols h))
                      | [], _ :: _ => raise (ExtraColumns (set_diff h cols))
                      | [], [] => ret tt
                      end) w = (r, w) /\
                 (r = inr tt -> forall c, In c h <-> In c cols)).
  { destruct (set_eqb h cols) eqn:E.
    - eexists. split; [reflexivity|]. intros _. apply set_eqb_spec, E.
    - destruct (set_diff cols h) as [|m ms] eqn:Em, (set_diff h cols) as [|x xs] eqn:Ex;
        eexists; (split; [reflexivity|]); try discriminate.
      intros _ c. split; apply set_diff_nil; assumption. }
  destruct Hchk as (r & Hchk & Hset).
  unfold bind at 1. rewrite Hchk. destruct r as [e|[]]; [discriminate|].
  specialize (Hset eq_refl).
  destruct (map_err _ _) as [e|rows] eqn:Em; [discriminate|].
  apply map_err_length in Em.
  intros H. exists h, body. split; [reflexivity|]. split; [exact Hset|].
  destruct DRY_RUN.
  - unfold bind, ret in H. simpl in H. injection H as <- <-.
    split; [first [exact Em | symmetry; exact Em]|]. split; [reflexivity|discriminate].
  - unfold bind at 1 in H. unfold bind at 1 in H.
    destruct (executemany t cols rows w) as [[e|[]] w1] eqn:Ex; [discriminate|].
    unfold commit, ret in H. simpl in H. injection H as <- <-.
    destruct (executemany_ok t cols rows w w1 Ex) as [Hf (rs & Hl & Ht & Ho)].
    unfold frame in Hf. injection Hf as Hd Hc Htg.
    split; [first [exact Em | symmetry; exact Em]|]. split; [discriminate|]. intros _.
    simpl. split; [reflexivity|]. split; [rewrite Htg; intros ->; reflexivity|].
    exists rs. split; [congruence|]. split; assumption.
Qed.

Lemma load_csv_to_table_count_witness :
  let w := snd (prefix_run fs_mismatch None 0) in
  let w' := snd (load_csv_to_table false fs_mismatch "data/customers.csv" "customers"
                   (header "customers") w) in
  load_csv_to_table false fs_mismatch "data/customers.csv" "customers" (header "customers") w =
    (inr 1%nat, w') /\
  exists h body, fs_mismatch "data/customers.csv" = Some (h :: body) /\
    (forall c, In c h <-> In c (header "customers")) /\
    1%nat = length (List.filter (fun r => match r with [] => false | _ => true end) body) /\
    (false = true -> w' = w) /\
    (false = false ->
       committed w' = work w' /\ (tgt w = OnDisk -> disk w' = Some (work w')) /\
       exists rs, length rs = 1%nat /\
         rows_of "customers" (work w') = app (rows_of "customers" (work w)) rs /\
         forall t', t' <> "customers" -> rows_of t' (work w') = rows_of t' (work w)).
Proof.
  intros w w'.
  assert (H : load_csv_to_table false fs_mismatch "data/customers.csv" "customers"
                (header "customers") w = (inr 1%nat, w')) by (vm_compute; reflexivity).
  exact (conj H (load_csv_to_table_count _ _ _ _ _ _ _ _ H)).
Defined.

(** *** The constraints of the schema *)

(** Column [c] holds for row [r] in database [d]: NOT NULL, the rating
    CHECK ([rating_ok]), and the FOREIGN KEY (a non-NULL value is found in the
    referenced column). *)
Definition row_ok (d : db) (r : row) (c : column) : Prop :=
  (cnotnull c = true -> get (cname c) r <> VNull) /\
  (crating c = true -> rating_ok (get (cname c) r) = true) /\
  (forall pt pc, cfk c = Some (pt, pc) -> get (cname c) r <> VNull ->
     exists pr, In pr (rows_of pt d) /\ sql_eqb (get pc pr) (get (cname c) r) = true).

(** PRIMARY KEY / UNIQUE: no two rows of [rs] have equal values in [n]. *)
Definition unique_in (rs : list row) (n : string) : Prop :=
  forall i j ri rj, (i < j)%nat -> nth_error rs i = Some ri -> nth_error rs j = Some rj ->
    sql_eqb (get n ri) (get n rj) = false.

(** Every row of every table of the schema satisfies every constraint of
    its columns. *)
Definition db_ok (d : db) : Prop :=
  forall t tcols, table_columns t = Some tcols ->
  forall c, In c tcols ->
    (forall r, In r (rows_of t d) -> row_ok d r c) /\
    (cpk c || cunique c = true -> unique_in (rows_of t d) (cname c)).

Definition grows (d d' : db) : Prop :=
  forall t r, In r (rows_of t d) -> In r (rows_of t d').

Lemma row_ok_grows (d d' : db) (r : row) (c : column) :
  grows d d' -> row_ok d r c -> row_ok d' r c.
Proof.
  intros Hg (H1 & H2 & H3). split; [exact H1|]. split; [exact H2|].
  intros pt pc Hf Hv. destruct (H3 pt pc Hf Hv) as (pr & Hin & Heq).
  exists pr. split; [apply Hg, Hin | exact Heq].
Qed.

Lemma check_column_ok (d : db) (rs : list row) (r : row) (c : column) :
  check_column d rs r c = true ->
  row_ok d r c /\
  (cpk c || cunique c = true ->
     forall r', In r' rs -> sql_eqb (get (cname c) r') (get (cname c) r) = false).
Proof.
  unfold check_column, row_ok. cbv zeta. intros H.
  apply andb_true_iff in H as [H H4]. apply andb_true_iff in H as [H H3].
  apply andb_true_iff in H as [H1 H2].
  split; [split; [|split]|].
  - intros Hn. rewrite Hn in H1. simpl in H1. destruct (get (cname c) r); congruence.
  - intros Hr. rewrite Hr in H3. exact H3.
  - intros pt pc Hf Hv. rewrite Hf in H4.
    destruct (get (cname c) r) eqn:E; [congruence| | |]; apply existsb_exists in H4; exact H4.
  - intros Hu r' Hr'. rewrite Hu in H2. simpl in H2. rewrite forallb_forall in H2.
    specialize (H2 r' Hr'). destruct (sql_eqb _ _); [discriminate|reflexivity].
Qed.

Lemma unique_in_snoc (rs : list row) (r : row) (n : string) :
  unique_in rs n ->
  (forall r', In r' rs -> sql_eqb (get n r') (get n r) = false) ->
  unique_in (app rs [r]) n.
Proof.
  intros Hu Hnew i j ri rj Hij Hi Hj.
  destruct (Nat.lt_ge_cases j (length rs)) as [Hjl|Hjl].
  - rewrite nth_error_app1 in Hi, Hj by lia. exact (Hu i j ri rj Hij Hi Hj).
  - rewrite nth_error_app2 in Hj by exact Hjl.
    destruct (j - length rs)%nat as [|k] eqn:Ejk; [|destruct k; discriminate].
    injection Hj as <-. rewrite nth_error_app1 in Hi by lia.
    apply Hnew. exact (nth_error_In _ _ Hi).
Qed.

Lemma insert_row_db_ok (d : db) (t : string) (cols : list string) (vals : list (option string))
    (d' : db) :
  db_ok d -> insert_row d t cols vals = inr d' -> db_ok d'.
Proof.
  intros Hok H. destruct (insert_row_ok _ _ _ _ _ H) as (tcols & rs & r & Htc & Ht & Hc & ->).
  pose proof (rows_of_table t d rs Ht) as Hrs.
  pose proof (rows_of_put_table_found t rs (app rs [r]) d Ht) as Hnew.
  assert (Hg : grows d (put_table t (app rs [r]) d)).
  { intros t' r' Hr'. destruct (String.eqb_spec t t') as [<-|Hne].
    - rewrite Hnew. rewrite Hrs in Hr'. apply in_or_app. left. exact Hr'.
    - rewrite rows_of_put_table_other by exact Hne. exact Hr'. }
  intros t' tcols' Htc' c Hcin.
  destruct (String.eqb_spec t t') as [<-|Hne].
  - rewrite Htc in Htc'. injection Htc' as <-. rewrite Hnew.
    pose proof (proj1 (forallb_forall _ _) Hc c Hcin) as Hcc.
    apply check_column_ok in Hcc as [Hrow Huniq].
    destruct (Hok t tcols Htc c Hcin) as [Hall Hu]. rewrite Hrs in Hall, Hu.
    split.
    + intros r' Hr'. apply in_app_or in Hr' as [Hr'|[<-|[]]];
        eapply row_ok_grows; eauto.
    + intros Hpk. apply unique_in_snoc; auto.
  - rewrite rows_of_put_table_other by exact Hne.
    destruct (Hok t' tcols' Htc' c Hcin) as [Hall Hu]. split; [|exact Hu].
    intros r' Hr'. eapply row_ok_grows; eauto.
Qed.

Lemma executemany_db_ok (t : string) (cols : list string) (rows : list (list (option string)))
    (w w1 : world) :
  db_ok (work w) -> executemany t cols rows w = (inr tt, w1) -> db_ok (work w1).
Proof.
  revert w. induction rows as [|vals rows IH]; intros w Hok H; simpl in H.
  - unfold ret in H. injection H as <-. exact Hok.
  - unfold bind, read in H. simpl in H.
    destruct (insert_row (work w) t cols vals) as [e|d'] eqn:Ei; [discriminate|].
    unfold bind, write in H. simpl in H.
    exact (IH _ (insert_row_db_ok (work w) t cols vals d' Hok Ei : db_ok (work (mk_world (disk w) (committed w) d' (tgt w)))) H).
Qed.

Lemma load_all_db_ok (fs : files) (steps : list (string * string * list string)) (w w1 : world) :
  db_ok (work w) -> load_all false fs steps w = (inr tt, w1) -> db_ok (work w1).
Proof.
  revert w. induction steps as [|[[p t] cols] steps IH]; intros w Hok H; simpl in H.
  - unfold ret in H. injection H as <-. exact Hok.
  - unfold bind in H. destruct (load_csv_to_table false fs p t cols w) as [[e|n] w'] eqn:E;
      [discriminate|].
    apply (IH w'); [|exact H].
    destruct (load_step_cases fs p t cols w) as
      [[e' H']|[(rows & e' & w2 & H' & Hx)|(rows & m & w2 & H' & Hx)]];
      rewrite H' in E; inversion E; subst.
    exact (executemany_db_ok t cols rows w w2 Hok Hx).
Qed.

Lemma rows_of_empty_schema (t : string) : rows_of t empty_schema = [].
Proof.
  change empty_schema with [("customers", @nil row); ("products", []); ("orders", []);
                           ("order_items", []); ("reviews", [])].
  unfold rows_of, table. cbn [find fst snd].
  repeat match goal with |- context [String.eqb ?a t] => destruct (String.eqb a t) end;
    reflexivity.
Qed.

Lemma empty_schema_ok : db_ok empty_schema.
Proof.
  intros t tcols _ c _. rewrite rows_of_empty_schema. split; [intros r []|].
  intros _ i j ri rj _ Hi. destruct i; discriminate.
Qed.

Lemma create_schema_connect (disk0 : option db) :
  create_schema false (connect false disk0) =
  (inr tt, mk_world (Some empty_schema) empty_schema empty_schema OnDisk).
Proof. reflexivity. Qed.

(** The report from the state of the connection when it is made. *)
Lemma generate_integrity_report_fields (DRY_RUN : bool) (w w' : world) (r : report) :
  generate_integrity_report DRY_RUN w = (inr r, w') ->
  fix_order_totals DRY_RUN w = (inr (mismatch_count r, fixed_count r), w') /\
  null_order_customer r = count_rows (fun o => is_null (get "customer_id" o)) "orders" (work w) /\
  null_order_items r = count_rows (fun oi => is_null (get "order_id" oi) ||
                                             is_null (get "product_id" oi)) "order_items" (work w) /\
  null_reviews r = count_rows (fun rv => is_null (get "product_id" rv) ||
                                         is_null (get "customer_id" rv)) "reviews" (work w) /\
  violations r = flat_map (fun e => let '(name, (c, fk, p, pk)) := e in
                                    let n := orphan_count c fk p pk (work w) in
                                    if (0 <? n)%nat then [(name, n)] else []) fk_checks.
Proof.
  unfold generate_integrity_report, validate_foreign_keys, bind, read, ret. cbn -[fix_order_totals].
  destruct (fix_order_totals DRY_RUN w) as [[e|[m f]] w1]; [discriminate|].
  intros H. injection H as <- <-. simpl. auto 6.
Qed.

(** The mutating run up to the report: schema, the five loads, and the
    state the report starts from. *)
Lemma main_false_ok (fs : files) (disk0 : option db) (r : report) (d : option db) :
  main false fs disk0 = (inr r, d) ->
  exists w1 w2, clean w1 /\ db_ok (work w1) /\
    generate_integrity_report false w1 = (inr r, w2) /\ d = disk w2.
Proof.
  unfold main, main_body. unfold bind at 1 2. rewrite create_schema_connect.
  destruct (load_all false fs load_steps _) as [[e|[]] w1] eqn:Hl.
  - simpl. intros H. discriminate.
  - destruct (generate_integrity_report false w1) as [[e|r'] w2] eqn:Hr; simpl; [discriminate|].
    intros H. injection H as <- <-. exists w1, w2. split; [|split; [|split; [exact Hr|reflexivity]]].
    + refine (load_all_ok_clean fs load_steps _ w1 tt _ Hl).
      unfold clean. simpl. auto.
    + refine (load_all_db_ok fs load_steps _ w1 _ Hl). exact empty_schema_ok.
Qed.

Lemma table_columns_in (t : string) (tcols : list column) :
  table_columns t = Some tcols -> In (t, tcols) schema.
Proof.
  unfold table_columns. destruct (find _ schema) as [[t' cs]|] eqn:E; [|discriminate].
  simpl. intros H. injection H as <-. apply find_some in E as [Hin Heq].
  simpl in Heq. apply String.eqb_eq in Heq. subst t'. exact Hin.
Qed.

Lemma orphan_count_ok (d : db) (c fk p pk : string) (col : column) :
  db_ok d -> In col (match table_columns c with Some cs => cs | None => [] end) ->
  cname col = fk -> cnotnull col = true -> cfk col = Some (p, pk) ->
  orphan_count c fk p pk d = 0%nat.
Proof.
  intros Hok Hin Hn Hnn Hf. unfold orphan_count.
  destruct (table_columns c) as [tcols|] eqn:Htc; [|destruct Hin].
  destruct (Hok c tcols Htc col Hin) as [Hall _].
  rewrite filter_all_false; [reflexivity|]. intros r Hr.
  destruct (Hall r Hr) as (H1 & _ & H3). subst fk.
  destruct (H3 p pk Hf (H1 Hnn)) as (pr & Hpr & Heq).
  apply negb_false_iff, existsb_exists. eauto.
Qed.

Lemma null_count_ok (d : db) (t : string) (cs : list string) :
  db_ok d ->
  Forall (fun n => exists col, In col (match table_columns t with Some l => l | None => [] end) /\
                               cname col = n /\ cnotnull col = true) cs ->
  count_rows (fun r => existsb (fun n => is_null (get n r)) cs) t d = 0%nat.
Proof.
  intros Hok Hcs. unfold count_rows.
  destruct (table_columns t) as [tcols|] eqn:Htc.
  - rewrite filter_all_false; [reflexivity|]. intros r Hr.
    apply Bool.not_true_iff_false. intros He. apply existsb_exists in He as (n & Hn & Hnull).
    rewrite List.Forall_forall in Hcs. destruct (Hcs n Hn) as (col & Hin & <- & Hnn).
    destruct (Hok t tcols Htc col Hin) as [Hall _]. destruct (Hall r Hr) as (H1 & _).
    apply (H1 Hnn). destruct (get (cname col) r); [reflexivity|discriminate..].
  - destruct cs as [|n cs]; [rewrite filter_all_false; [reflexivity|]; intros; reflexivity|].
    inversion Hcs as [|? ? (col & [] & _) _].
Qed.

Ltac pick_col := cbn; repeat (first [left; reflexivity | right]).

Lemma report_counts_zero (d : db) :
  db_ok d ->
  count_rows (fun o => is_null (get "customer_id" o)) "orders" d = 0%nat /\
  count_rows (fun oi => is_null (get "order_id" oi) || is_null (get "product_id" oi))
    "order_items" d = 0%nat /\
  count_rows (fun rv => is_null (get "product_id" rv) || is_null (get "customer_id" rv))
    "reviews" d = 0%nat /\
  flat_map (fun e => let '(name, (c, fk, p, pk)) := e in
                     let n := orphan_count c fk p pk d in
                     if (0 <? n)%nat then [(name, n)] else []) fk_checks = [].
Proof.
  intros Hok. split; [|split; [|split]].
  - pose proof (null_count_ok d "orders" ["customer_id"] Hok) as H.
    cbn [existsb] in H. rewrite <- H.
    + unfold count_rows. f_equal. apply filter_ext. intros r. rewrite orb_false_r. reflexivity.
    + repeat constructor. exists (fkcol "customer_id" TEXT "customers" "customer_id").
      split; [pick_col|]. split; reflexivity.
  - pose proof (null_count_ok d "order_items" ["order_id"; "product_id"] Hok) as H.
    cbn [existsb] in H. rewrite <- H.
    + unfold count_rows. f_equal. apply filter_ext. intros r. rewrite orb_false_r. reflexivity.
    + constructor; [exists (fkcol "order_id" INTEGER "orders" "order_id")|
                    constructor; [exists (fkcol "product_id" INTEGER "products" "product_id")|
                                  constructor]];
        (split; [pick_col|]); split; reflexivity.
  - pose proof (null_count_ok d "reviews" ["product_id"; "customer_id"] Hok) as H.
    cbn [existsb] in H. rewrite <- H.
    + unfold count_rows. f_equal. apply filter_ext. intros r. rewrite orb_false_r. reflexivity.
    + constructor; [exists (fkcol "product_id" INTEGER "products" "product_id")|
                    constructor; [exists (fkcol "customer_id" TEXT "customers" "customer_id")|
                                  constructor]];
        (split; [pick_col|]); split; reflexivity.
  - unfold fk_checks. cbn [flat_map].
    rewrite (orphan_count_ok d "orders" "customer_id" "customers" "customer_id"
               (fkcol "customer_id" TEXT "customers" "customer_id")) by (auto; pick_col).
    rewrite (orphan_count_ok d "order_items" "order_id" "orders" "order_id"
               (fkcol "order_id" INTEGER "orders" "order_id")) by (auto; pick_col).
    rewrite (orphan_count_ok d "order_items" "product_id" "products" "product_id"
               (fkcol "product_id" INTEGER "products" "product_id")) by (auto; pick_col).
    rewrite (orphan_count_ok d "reviews" "product_id" "products" "product_id"
               (fkcol "product_id" INTEGER "products" "product_id")) by (auto; pick_col).
    rewrite (orphan_count_ok d "reviews" "customer_id" "customers" "customer_id"
               (fkcol "customer_id" TEXT "customers" "customer_id")) by (auto; pick_col).
    reflexivity.
Qed.

(** X6. A mutating run that completes always reports no foreign-key
    violation and no NULL in the checked columns: every row got into the
    database through an INSERT that enforces NOT NULL and the foreign
    keys. *)
Theorem main_report_clean (fs : files) (disk0 : option db) (r : report) (d : option db) :
  main false fs disk0 = (inr r, d) ->
  violations r = [] /\ null_order_customer r = 0%nat /\ null_order_items r = 0%nat /\
  null_reviews r = 0%nat.
Proof.
  intros H. destruct (main_false_ok fs disk0 r d H) as (w1 & w2 & _ & Hok & Hr & _).
  destruct (generate_integrity_report_fields false w1 w2 r Hr) as (_ & H1 & H2 & H3 & H4).
  destruct (report_counts_zero (work w1) Hok) as (Z1 & Z2 & Z3 & Z4).
  rewrite H1, H2, H3, H4. auto.
Qed.

Lemma main_report_clean_witness :
  let res := main false fs_mismatch None in
  let r := match fst res with inr r => r | inl _ => dry_report end in
  main false fs_mismatch None = (inr r, snd res) /\
  (violations r = [] /\ null_order_customer r = 0%nat /\ null_order_items r = 0%nat /\
   null_reviews r = 0%nat).
Proof.
  intros res r.
  assert (H : main false fs_mismatch None = (inr r, snd res)) by (vm_compute; reflexivity).
  exact (conj H (main_report_clean _ _ _ _ H)).
Defined.

(** *** What the reconciliation changes *)

Lemma get_set_cases (c : string) (v : sqlval) (r : row) :
  get c (set c v r) = v \/ get c (set c v r) = get c r.
Proof.
  unfold get, set. induction r as [|[k x] r IH]; simpl; [right; reflexivity|].
  destruct (String.eqb k c) eqn:E; simpl.
  - rewrite String.eqb_refl. left. reflexivity.
  - rewrite E. exact IH.
Qed.

Lemma get_set_same (c : string) (v : sqlval) (r : row) :
  get c r <> VNull -> get c (set c v r) = v.
Proof.
  unfold get, set. induction r as [|[k x] r IH]; simpl; [congruence|].
  destruct (String.eqb k c) eqn:E; simpl.
  - rewrite String.eqb_refl. reflexivity.
  - rewrite E. exact IH.
Qed.

Lemma fold_fix_get (ms : list (sqlval * sqlval * num)) (r : row) (c : string) :
  c <> "total_amount" -> get c (fold_left (fun r m => apply_fix m r) ms r) = get c r.
Proof.
  intros Hc. revert r. induction ms as [|m ms IH]; intros r; simpl; [reflexivity|].
  rewrite IH. unfold apply_fix. destruct (sql_eqb _ _); [|reflexivity].
  apply get_set_other. exact Hc.
Qed.

Lemma store_real_not_null (r : real) : store_real r <> VNull.
Proof.
  unfold store_real. destruct r as [q|]; [|discriminate].
  destruct (_ =? 0)%Z; [|discriminate]. destruct (_ && _); discriminate.
Qed.

Lemma fold_fix_total (ms : list (sqlval * sqlval * num)) (r : row) :
  get "total_amount" (fold_left (fun r m => apply_fix m r) ms r) = get "total_amount" r \/
  get "total_amount" (fold_left (fun r m => apply_fix m r) ms r) <> VNull.
Proof.
  revert r. induction ms as [|m ms IH]; intros r; simpl; [left; reflexivity|].
  destruct (IH (apply_fix m r)) as [->|H]; [|right; exact H].
  unfold apply_fix. destruct (sql_eqb _ _); [|left; reflexivity].
  destruct (get_set_cases "total_amount" (store_real (sql_round2 (py_float (snd m)))) r)
    as [E|E]; rewrite E; [right; apply store_real_not_null|left; reflexivity].
Qed.

Lemma fold_fix_other (ms : list (sqlval * sqlval * num)) (d : db) (k : nat) (t : string) :
  t <> "orders" ->
  rows_of t
    (fst (fold_left (fun acc m => let '(order_id, _, calculated_total) := m in
                                  (update_total order_id (py_float calculated_total) (fst acc),
                                   S (snd acc)))
                    ms (d, k))) = rows_of t d.
Proof.
  intros Ht. revert d k. induction ms as [|[[i c0] c] ms IH]; intros d k; simpl; auto.
  rewrite IH. unfold update_total. apply rows_of_put_table_other. congruence.
Qed.

Lemma schema_columns (P : column -> Prop) :
  Forall (fun e => Forall P (snd e)) schema ->
  forall t tcols c, table_columns t = Some tcols -> In c tcols -> P c.
Proof.
  intros HP t tcols c Ht Hc. apply table_columns_in in Ht.
  rewrite List.Forall_forall in HP. specialize (HP _ Ht).
  rewrite List.Forall_forall in HP. exact (HP c Hc).
Qed.

(** [total_amount] is a plain NOT NULL column: no key, no CHECK, no
    reference. *)
Lemma schema_total_amount (t : string) (tcols : list column) (c : column) :
  table_columns t = Some tcols -> In c tcols -> cname c = "total_amount" ->
  crating c = false /\ cfk c = None /\ cpk c || cunique c = false.
Proof.
  intros Ht Hc.
  refine (schema_columns (fun c => cname c = "total_amount" ->
                                  crating c = false /\ cfk c = None /\ cpk c || cunique c = false)
           _ t tcols c Ht Hc).
  repeat (first [apply List.Forall_nil | apply List.Forall_cons]);
    cbn; intros H; first [discriminate H | repeat split].
Qed.

(** No foreign key refers to [total_amount]. *)
Lemma schema_fk_target (t : string) (tcols : list column) (c : column) (pt pc : string) :
  table_columns t = Some tcols -> In c tcols -> cfk c = Some (pt, pc) -> pc <> "total_amount".
Proof.
  intros Ht Hc. revert pt pc.
  refine (schema_columns (fun c => forall pt pc, cfk c = Some (pt, pc) -> pc <> "total_amount")
           _ t tcols c Ht Hc).
  repeat (first [apply List.Forall_nil | apply List.Forall_cons]);
    cbn; intros pt pc H; first [discriminate H | injection H as <- <-; discriminate].
Qed.

(** Changing only [total_amount] of order rows, to its old value or to a
    value other than NULL, keeps every constraint. *)
Lemma db_ok_update_orders (d d' : db) (f : row -> row) :
  (forall r c, c <> "total_amount" -> get c (f r) = get c r) ->
  (forall r, get "total_amount" (f r) = get "total_amount" r \/
             get "total_amount" (f r) <> VNull) ->
  rows_of "orders" d' = map f (rows_of "orders" d) ->
  (forall t, t <> "orders" -> rows_of t d' = rows_of t d) ->
  db_ok d -> db_ok d'.
Proof.
  intros Hg Ht Hord Hoth Hok.
  assert (Hfk : forall pt pc v, pc <> "total_amount" ->
            (exists pr, In pr (rows_of pt d) /\ sql_eqb (get pc pr) v = true) ->
            exists pr, In pr (rows_of pt d') /\ sql_eqb (get pc pr) v = true).
  { intros pt pc v Hpc (pr & Hin & Heq). destruct (String.eqb_spec pt "orders") as [->|Hne].
    - exists (f pr). rewrite Hord. split; [apply in_map, Hin|]. rewrite Hg by exact Hpc. exact Heq.
    - exists pr. rewrite Hoth by exact Hne. auto. }
  assert (Hrow : forall t tcols c r r', table_columns t = Some tcols -> In c tcols ->
            (cname c <> "total_amount" -> get (cname c) r' = get (cname c) r) ->
            (cname c = "total_amount" ->
               get (cname c) r' = get (cname c) r \/ get (cname c) r' <> VNull) ->
            row_ok d r c -> row_ok d' r' c).
  { intros t tcols c r r' Htc Hc Hsame Htot (H1 & H2 & H3). unfold row_ok.
    destruct (string_dec (cname c) "total_amount") as [Heq|Hne].
    - destruct (schema_total_amount t tcols c Htc Hc Heq) as (Hr & Hf & _).
      split; [|split].
      + intros Hn. destruct (Htot Heq) as [->|Hnn]; [exact (H1 Hn)|exact Hnn].
      + rewrite Hr. intros Hx. discriminate Hx.
      + intros pt pc Hf'. rewrite Hf in Hf'. discriminate Hf'.
    - rewrite (Hsame Hne). split; [exact H1|]. split; [exact H2|].
      intros pt pc Hf Hv. apply Hfk; [exact (schema_fk_target t tcols c pt pc Htc Hc Hf)|].
      exact (H3 pt pc Hf Hv). }
  intros t tcols Htc c Hc. destruct (Hok t tcols Htc c Hc) as [Hall Hu].
  destruct (String.eqb_spec t "orders") as [->|Hne].
  - rewrite Hord. split.
    + intros r' Hr'. apply in_map_iff in Hr' as (r & <- & Hr).
      apply (Hrow "orders" tcols c r (f r) Htc Hc).
      * apply Hg.
      * intros Heq. rewrite Heq. apply Ht.
      * apply Hall, Hr.
    + intros Hpk i j ri rj Hij Hi Hj.
      rewrite nth_error_map in Hi, Hj.
      destruct (nth_error _ i) as [ri0|] eqn:Ei; [|discriminate].
      destruct (nth_error _ j) as [rj0|] eqn:Ej; [|discriminate].
      simpl in Hi, Hj. injection Hi as <-. injection Hj as <-.
      assert (Hne : cname c <> "total_amount")
        by (intros Heq; destruct (schema_total_amount _ _ c Htc Hc Heq) as (_ & _ & Hf); congruence).
      rewrite !Hg by exact Hne. exact (Hu Hpk i j ri0 rj0 Hij Ei Ej).
  - rewrite Hoth by exact Hne. split; [|exact Hu].
    intros r Hr. apply (Hrow t tcols c r r Htc Hc); auto.
Qed.

Lemma fix_order_totals_db_ok (DRY_RUN : bool) (w w' : world) (mf : nat * nat) :
  db_ok (work w) -> fix_order_totals DRY_RUN w = (inr mf, w') ->
  db_ok (work w') /\ (clean w -> clean w').
Proof.
  intros Hok. unfold fix_order_totals, bind, read. cbv beta iota.
  destruct (select_mismatches (work w)) as [e|[|m ms]].
  - unfold raise. discriminate.
  - unfold ret. intros H. injection H as _ <-. auto.
  - destruct DRY_RUN; cbn [negb].
    + unfold ret. intros H. injection H as _ <-. auto.
    + pose proof (fold_fix_rows (m :: ms) (work w) 0%nat) as [Hr _].
      pose proof (fold_fix_other (m :: ms) (work w) 0%nat) as Ho.
      destruct (fold_left _ (m :: ms) (work w, 0%nat)) as [d' k] eqn:Ef.
      cbn [fst snd] in Hr, Ho. unfold write, commit, ret. cbv beta iota.
      intros H. injection H as _ <-. cbn [work].
      split.
      * apply (db_ok_update_orders (work w) d'
                 (fun r => fold_left (fun r m => apply_fix m r) (m :: ms) r)); auto.
        -- intros r c Hc. apply fold_fix_get, Hc.
        -- intros r. apply fold_fix_total.
      * intros (Htg & _ & _). unfold clean. simpl. rewrite Htg. auto.
Qed.

(** X7. After a mutating run that completes, the database file exists and
    every row of every table satisfies the constraints of the schema: NOT
    NULL, PRIMARY KEY and UNIQUE, the rating CHECK and the foreign keys,
    also after the reconciler rewrote order totals. *)
Theorem main_file_satisfies_schema (fs : files) (disk0 : option db) (r : report)
    (d : option db) :
  main false fs disk0 = (inr r, d) -> exists dd, d = Some dd /\ db_ok dd.
Proof.
  intros H. destruct (main_false_ok fs disk0 r d H) as (w1 & w2 & Hc & Hok & Hr & ->).
  destruct (generate_integrity_report_fields false w1 w2 r Hr) as (Hf & _).
  destruct (fix_order_totals_db_ok false w1 w2 _ Hok Hf) as [Hok2 Hc2].
  destruct (Hc2 Hc) as (_ & Hd & _). exists (work w2). auto.
Qed.

Lemma main_file_satisfies_schema_witness :
  let res := main false fs_mismatch None in
  let r := match fst res with inr r => r | inl _ => dry_report end in
  main false fs_mismatch None = (inr r, snd res) /\
  exists dd, snd res = Some dd /\ db_ok dd.
Proof.
  intros res r.
  assert (H : main false fs_mismatch None = (inr r, snd res)) by (vm_compute; reflexivity).
  exact (conj H (main_file_satisfies_schema _ _ _ _ H)).
Defined.

End IngestExtra.

(* ===================================================================== *)
(** ** [generate_data.py]: further properties                             *)
(* ===================================================================== *)

Module GeneratorExtra.
Import PyStr PyFormat PyFormatFacts Generator GeneratorFacts GeneratorRun GeneratorChecks.
Local Open Scope Z_scope.

Ltac gen_inv :=
  repeat match goal with
  | H : gbind _ _ _ _ _ = Some _ |- _ =>
      let a := fresh "a" in let g := fresh "g" in let H1 := fresh "Hm" in
      apply gbind_Some in H; destruct H as (a & g & H1 & H); cbv beta zeta in H
  | H : glift _ _ _ _ = Some _ |- _ =>
      let E1 := fresh "Ho" in let E2 := fresh "Hg" in
      apply glift_Some in H; destruct H as [E1 E2]
  | H : gret _ _ _ _ = Some _ |- _ =>
      let E2 := fresh "Hg" in
      apply gret_Some in H; destruct H as [H E2]
  end.

Section Runs.
Variable R : PyRandom.
Variable F : FakerLib.
Variable E : env.

(** All the phases of a successful run, the reviews included. *)
Lemma run_phases sz seed f0 ds :
  generate_data_sized R F E sz seed f0 = Some ds ->
  exists g1 g2 g3 g4 g5 g6 g7 orders0 totals c rc rp,
    for_range R F (n_customers sz) (gen_customer R F E) (mk_g R F seed f0 0 0)
      = Some (customers ds, g1) /\
    for_range R F (n_products sz) (gen_product R F E) g1 = Some (products ds, g2) /\
    for_range R F (n_orders sz) (gen_order R F E (customers ds)) g2 = Some (orders0, g3) /\
    foldM R F (gen_items_for R F (products ds) (map Product.product_id (products ds))) orders0
      ([], ∅, 1%nat) g3 = Some ((order_items ds, totals, c), g4) /\
    orders ds = update_totals totals orders0 /\
    sampleM R F (map Customer.customer_id (customers ds))
      (Nat.min 400 (length (map Customer.customer_id (customers ds)))) g4 = Some (rc, g5) /\
    sampleM R F (map Product.product_id (products ds))
      (Nat.min 150 (length (map Product.product_id (products ds)))) g5 = Some (rp, g6) /\
    for_range R F (n_reviews sz) (gen_review R F E rc rp) g6 = Some (reviews ds, g7).
Proof.
  unfold generate_data_sized. destruct (generate_all_sized R F E sz _) as [[ds' g']|] eqn:Hrun;
    [|discriminate].
  intros H; injection H as <-. unfold generate_all_sized in Hrun. gen_inv.
  destruct a2 as [[its tot] c]. gen_inv. subst. cbn.
  do 12 eexists. repeat split; first [eassumption | reflexivity].
Qed.

Lemma choice_In {A} (xs : list A) g a g' : choice R F xs g = Some (a, g') -> In a xs.
Proof.
  unfold choice. destruct xs as [|x xs']; [discriminate|]. intros H. gen_inv.
  exact (nth_error_In _ _ Ho).
Qed.

Lemma choices_weighted_In {A} (xs : list A) ws g a g' :
  choices_weighted R F xs ws g = Some (a, g') -> In a xs.
Proof. unfold choices_weighted. intros H. gen_inv. exact (nth_error_In _ _ Ho). Qed.

Lemma gen_customer_premium j g c g' :
  gen_customer R F E j g = Some (c, g') -> In (Customer.is_premium c) ["True"; "False"].
Proof.
  unfold gen_customer. intros H. gen_inv. subst. cbn [Customer.is_premium].
  destruct a5; [left | right; left]; reflexivity.
Qed.

Lemma gen_product_category j g p g' :
  gen_product R F E j g = Some (p, g') -> In (Product.category p) CATEGORIES.
Proof.
  unfold gen_product. intros H. cbv zeta in H. gen_inv. subst. cbn [Product.category].
  eapply choice_In; eassumption.
Qed.

Lemma gen_product_price_str j g p g' :
  gen_product R F E j g = Some (p, g') -> exists d, Product.price p = str_dec d.
Proof.
  unfold gen_product. intros H. cbv zeta in H. gen_inv. subst. eexists. reflexivity.
Qed.

(** The fields of an order the first loop writes. *)
Lemma gen_order_fields customers j g o g' :
  gen_order R F E customers j g = Some (o, g') ->
  Order.order_id o = S j /\ In (Order.status o) ORDER_STATUSES /\
  exists c, In c customers /\ Customer.customer_id c = Order.customer_id o /\
            Customer.country c = Order.shipping_country o.
Proof.
  unfold gen_order. intros H. cbv zeta in H. gen_inv. subst.
  cbn [Order.order_id Order.status Order.customer_id Order.shipping_country].
  split; [reflexivity|]. split; [eapply choices_weighted_In; eassumption|].
  match goal with
  | Hc : choice _ _ (map Customer.country _) _ = Some _ |- _ => apply choice_In in Hc
  end.
  apply in_map_iff in Hm3 as (c & <- & Hc). apply List.filter_In in Hc as [Hc Heq].
  apply String.eqb_eq in Heq. exists c. auto.
Qed.

Lemma gen_review_fields rc rp j g r g' :
  gen_review R F E rc rp j g = Some (r, g') ->
  Review.review_id r = S j /\ In (Review.rating r) [5; 4; 3; 2; 1]%nat /\
  In (Review.product_id r) rp /\ In (Review.customer_id r) rc.
Proof.
  unfold gen_review. intros H. gen_inv. subst.
  cbn [Review.review_id Review.rating Review.product_id Review.customer_id].
  split; [reflexivity|]. split; [eapply choices_weighted_In; eassumption|].
  split; eapply choice_In; eassumption.
Qed.

(** [update_totals] only rewrites [total_amount]. *)
Lemma update_totals_nth totals orders0 j o :
  nth_error (update_totals totals orders0) j = Some o ->
  exists o0, nth_error orders0 j = Some o0 /\ Order.order_id o = Order.order_id o0 /\
    Order.customer_id o = Order.customer_id o0 /\ Order.status o = Order.status o0 /\
    Order.shipping_country o = Order.shipping_country o0.
Proof.
  unfold update_totals. rewrite List.nth_error_map.
  destruct (nth_error orders0 j) as [o0|]; [|discriminate]. intros H; injection H as <-.
  exists o0. split; [reflexivity|].
  destruct (totals !! Order.order_id o0); repeat split; reflexivity.
Qed.

Lemma update_totals_In totals orders0 o :
  In o (update_totals totals orders0) ->
  exists o0, In o0 orders0 /\ Order.order_id o = Order.order_id o0 /\
    Order.customer_id o = Order.customer_id o0 /\ Order.status o = Order.status o0 /\
    Order.shipping_country o = Order.shipping_country o0.
Proof.
  intros Ho. destruct (In_nth_error _ _ Ho) as [j Hj].
  destruct (update_totals_nth _ _ _ _ Hj) as (o0 & H0 & Hrest).
  exists o0. split; [exact (nth_error_In _ _ H0) | exact Hrest].
Qed.

Lemma update_totals_ids totals orders0 :
  map Order.order_id (update_totals totals orders0) = map Order.order_id orders0.
Proof.
  unfold update_totals. rewrite List.map_map. apply map_ext. intros o.
  destruct (totals !! Order.order_id o); reflexivity.
Qed.

(** *** line items *)

(** What every line item carries: the id of the order being filled, and
    the id and price of a product found in [products]. *)
Definition item_refs (products : list Product.t) (order_ids : list nat) (it : OrderItem.t) : Prop :=
  In (OrderItem.order_id it) order_ids /\
  exists p, In p products /\ Product.product_id p = OrderItem.product_id it /\
            OrderItem.unit_price it = Product.price p.

Lemma gen_item_refs products oid pid its t c g its' t' c' g' :
  (forall p, In p products -> exists d, Product.price p = str_dec d) ->
  gen_item R F products oid pid (its, t, c) g = Some ((its', t', c'), g') ->
  exists it, its' = app its [it] /\ OrderItem.order_id it = oid /\
    exists p, In p products /\ Product.product_id p = OrderItem.product_id it /\
              OrderItem.unit_price it = Product.price p.
Proof.
  intros Hp H. unfold gen_item in H. gen_inv. injection H as <- _ _.
  eexists; split; [reflexivity|]. split; [reflexivity|].
  match goal with Hf : find _ _ = Some ?p |- _ =>
    apply find_some in Hf as [Hin Heq]; apply Nat.eqb_eq in Heq; exists p end.
  split; [exact Hin|]. split; [exact Heq|]. cbn [OrderItem.unit_price].
  destruct (Hp _ Hin) as [d Hd].
  match goal with Hu : parse_dec _ = Some _ |- _ => rewrite Hd, parse_str_dec in Hu; injection Hu as <- end.
  symmetry. exact Hd.
Qed.

Lemma gen_items_for_refs products pids o its t c g its' t' c' g' :
  (forall p, In p products -> exists d, Product.price p = str_dec d) ->
  gen_items_for R F products pids o (its, t, c) g = Some ((its', t', c'), g') ->
  exists new, its' = app its new /\
    forall it, In it new -> OrderItem.order_id it = Order.order_id o /\
      exists p, In p products /\ Product.product_id p = OrderItem.product_id it /\
                OrderItem.unit_price it = Product.price p.
Proof.
  intros Hp H. unfold gen_items_for in H. cbv zeta in H. gen_inv.
  destruct a1 as [[ifo t1] c1]. gen_inv. injection H as <- _ _.
  exists ifo. split; [reflexivity|].
  refine (foldM_inv R F _ a0
            (fun b : list OrderItem.t * gmap nat dec * nat => let '(ifo, _, _) := b in
               forall it, In it ifo -> OrderItem.order_id it = Order.order_id o /\
                 exists p, In p products /\ Product.product_id p = OrderItem.product_id it /\
                           OrderItem.unit_price it = Product.price p)
            _ _ _ _ _ _ Hm1).
  - intros pid [[ifo0 t0] c0] gx [[ifo2 t2] c2] gy Hall Hs.
    destruct (gen_item_refs _ _ _ _ _ _ _ _ _ _ _ Hp Hs) as (it & -> & Hid & Hrest).
    intros it' Hit'. apply in_app_or in Hit' as [Hit'|[<-|[]]]; [exact (Hall it' Hit')|].
    split; [exact Hid | exact Hrest].
  - intros it [].
Qed.

Lemma items_refs_loop products pids orders0 its t c g g' :
  (forall p, In p products -> exists d, Product.price p = str_dec d) ->
  foldM R F (gen_items_for R F products pids) orders0 ([], ∅, 1%nat) g = Some ((its, t, c), g') ->
  forall it, In it its -> item_refs products (map Order.order_id orders0) it.
Proof.
  intros Hp H.
  refine (foldM_prefix R F _ orders0
            (fun pre (b : list OrderItem.t * gmap nat dec * nat) => let '(its, _, _) := b in
               forall it, In it its -> item_refs products (map Order.order_id pre) it)
            _ orders0 [] _ _ _ _ eq_refl _ H).
  - intros pre x post [[its0 t0] c0] gx [[its1 t1] c1] gy _ Hall Hs.
    destruct (gen_items_for_refs _ _ _ _ _ _ _ _ _ _ _ Hp Hs) as (new & -> & Hnew).
    intros it Hit. rewrite List.map_app. apply in_app_or in Hit as [Hit|Hit].
    + destruct (Hall it Hit) as [Hin Hrest]. split; [apply in_or_app; left; exact Hin | exact Hrest].
    + destruct (Hnew it Hit) as [Hid Hrest]. split; [|exact Hrest].
      apply in_or_app. right. rewrite Hid. left. reflexivity.
  - intros it [].
Qed.

Lemma generated_item_refs sz seed f0 ds :
  generate_data_sized R F E sz seed f0 = Some ds ->
  forall it, In it (order_items ds) -> item_refs (products ds) (map Order.order_id (orders ds)) it.
Proof.
  intros Hrun.
  destruct (run_phases sz seed f0 ds Hrun) as (g1 & g2 & g3 & g4 & g5 & g6 & g7 & orders0 &
    totals & c & rc & rp & _ & Hprod & _ & Hitems & Hds & _).
  rewrite Hds, update_totals_ids. refine (items_refs_loop _ _ _ _ _ _ _ _ _ Hitems).
  exact (for_range_Forall R F _ _ _ _ _ _ gen_product_price_str Hprod).
Qed.

(** The counter [order_item_id_counter] numbers the items [1, 2, ...]. *)
Definition items_numbered (its : list OrderItem.t) (c : nat) : Prop :=
  c = S (length its) /\ forall j it, nth_error its j = Some it -> OrderItem.order_item_id it = S j.

Lemma numbered_snoc its it :
  items_numbered its (OrderItem.order_item_id it) -> items_numbered (app its [it]) (S (OrderItem.order_item_id it)).
Proof.
  intros [Hc Hn]. split; [rewrite List.length_app, Hc; cbn; lia|].
  intros j x Hj. destruct (Nat.lt_ge_cases j (length its)) as [Hlt|Hge].
  - rewrite nth_error_app1 in Hj by exact Hlt. exact (Hn j x Hj).
  - rewrite nth_error_app2 in Hj by exact Hge.
    destruct (j - length its)%nat as [|k] eqn:Ek; cbn in Hj.
    + injection Hj as <-. rewrite Hc. lia.
    + destruct k; discriminate.
Qed.

Lemma gen_items_for_numbered products pids o its t c g its' t' c' g' :
  items_numbered its c ->
  gen_items_for R F products pids o (its, t, c) g = Some ((its', t', c'), g') ->
  items_numbered its' c'.
Proof.
  intros Hn H. unfold gen_items_for in H. cbv zeta in H. gen_inv.
  destruct a1 as [[ifo t1] c1]. gen_inv. injection H as <- _ <-.
  refine (foldM_inv R F _ a0
            (fun b : list OrderItem.t * gmap nat dec * nat => let '(ifo, _, c1) := b in
               items_numbered (app its ifo) c1) _ _ _ _ _ _ Hm1).
  - intros pid [[ifo0 t0] c0] gx [[ifo2 t2] c2] gy Hi Hs.
    unfold gen_item in Hs. gen_inv. injection Hs as <- _ <-.
    rewrite app_assoc. exact (numbered_snoc _ (OrderItem.mk c0 _ _ _ _) Hi).
  - rewrite app_nil_r. exact Hn.
Qed.

(** *** prices and costs *)

Lemma quantize2_Q_coef x : (0 <= x)%Q ->
  (inject_Z (coef (quantize2_Q x)) <= x * 100 + (1 # 2))%Q /\
  (x * 100 + (1 # 2) < inject_Z (coef (quantize2_Q x)) + 1)%Q.
Proof.
  intros Hx. unfold quantize2_Q. cbn [coef].
  replace (Qle_bool 0 x) with true by (symmetry; apply Qle_bool_iff; exact Hx).
  split; [apply Qfloor_le|].
  pose proof (Qlt_floor (x * 100 + (1 # 2))) as H. rewrite inject_Z_plus in H. exact H.
Qed.

Lemma gen_product_price_cost j g p g' :
  random_contract R -> gen_product R F E j g = Some (p, g') ->
  exists dp dc, Product.price p = str_dec dp /\ Product.cost p = str_dec dc /\
    scale dp = 2%nat /\ scale dc = 2%nat /\
    999 <= coef dp <= 99999 /\ 0 < coef dc < coef dp.
Proof.
  intros HR H. unfold gen_product in H. cbv zeta in H. gen_inv. subst.
  cbn [Product.price Product.cost]. unfold uniform in *. gen_inv. subst.
  repeat match goal with
  | H : random01 _ _ _ = Some _ |- _ => apply random01_spec in H; [|exact HR]
  end.
  set (u := ((999 # 100) + ((99999 # 100) - (999 # 100)) * _)%Q).
  set (v := ((3 # 10) + ((7 # 10) - (3 # 10)) * _)%Q).
  exists (quantize2_Q u), (quantize2_Q (dec_Q (quantize2_Q u) * v)).
  split; [reflexivity|]. split; [reflexivity|].
  split; [reflexivity|]. split; [reflexivity|].
  assert (Hu0 : (999 # 100 <= u)%Q) by (subst u; nra).
  assert (Hu1 : (u < 99999 # 100)%Q) by (subst u; nra).
  assert (Hv0 : (3 # 10 <= v)%Q) by (subst v; nra).
  assert (Hv1 : (v < 7 # 10)%Q) by (subst v; nra).
  destruct (quantize2_Q_ge u Hu0) as [_ Hp0].
  destruct (quantize2_Q_coef u) as [_ Hp1]; [lra|].
  destruct (quantize2_Q_coef u) as [Hp2 _]; [lra|].
  set (cp := coef (quantize2_Q u)) in *.
  assert (Hdq : dec_Q (quantize2_Q u) = (inject_Z cp * (1 # 100))%Q).
  { unfold dec_Q. cbn [scale]. fold cp. reflexivity. }
  assert (Hcp : cp <= 99999).
  { assert (Hq : (inject_Z cp < inject_Z 100000)%Q).
    { assert (inject_Z cp <= u * 100 + (1 # 2))%Q as Hle by exact Hp2.
      change (inject_Z 100000) with (100000 # 1). lra. }
    rewrite <- Zlt_Qlt in Hq. lia. }
  assert (Hcpq : (999 # 1 <= inject_Z cp)%Q) by (change (999 # 1) with (inject_Z 999); rewrite <- Zle_Qle; exact Hp0).
  rewrite Hdq. set (x := (inject_Z cp * (1 # 100) * v)%Q).
  assert (Hx0 : (0 <= x)%Q) by (subst x; nra).
  destruct (quantize2_Q_coef x Hx0) as [Hc1 Hc2].
  set (cc := coef (quantize2_Q x)) in *.
  assert (Hx100 : (x * 100 == inject_Z cp * v)%Q) by (subst x; field).
  split; [split; [exact Hp0 | exact Hcp]|]. split.
  - assert (Hq : (inject_Z 0 < inject_Z cc)%Q).
    { change (inject_Z 0) with 0%Q. nra. }
    rewrite <- Zlt_Qlt in Hq. exact Hq.
  - assert (Hq : (inject_Z cc < inject_Z cp)%Q) by nra.
    rewrite <- Zlt_Qlt in Hq. exact Hq.
Qed.

End Runs.

(** *** the checks at the end of the script *)

Lemma count_if_zero {A} (p : A -> bool) xs :
  (forall x, In x xs -> p x = false) -> count_if p xs = 0%nat.
Proof. intros H. unfold count_if. rewrite (filter_none_kept p xs H). reflexivity. Qed.

Lemma existsb_In_eqb (x : string) xs : In x xs -> existsb (String.eqb x) xs = true.
Proof. intros H. apply existsb_exists. exists x. split; [exact H | apply String.eqb_refl]. Qed.

Lemma existsb_In_nat (x : nat) xs : In x xs -> existsb (Nat.eqb x) xs = true.
Proof. intros H. apply existsb_exists. exists x. split; [exact H | apply Nat.eqb_refl]. Qed.

Lemma item_term_good it : good_item it -> item_term it = Some (item_amount it).
Proof.
  intros [_ (u & Hu & _)]. unfold item_term, item_amount. rewrite Hu.
  unfold dmul, dmul_int, dec_of_int. cbn [coef scale]. rewrite Z.mul_comm. reflexivity.
Qed.

Lemma map_opt_good l :
  (forall it, In it l -> good_item it) -> map_opt item_term l = Some (map item_amount l).
Proof.
  induction l as [|it l IH]; intros H; [reflexivity|]. cbn [map_opt map].
  rewrite item_term_good by (apply H; left; reflexivity).
  rewrite IH by (intros it' Hit'; apply H; right; exact Hit'). reflexivity.
Qed.

Lemma dadd_int0 a : scale a = 2%nat -> dadd (dec_of_int 0) a = dadd dec0 a.
Proof.
  destruct a as [c s]. cbn [scale]. intros ->. unfold dadd, dec_of_int, dec0. cbn. reflexivity.
Qed.

Lemma good_item_amount_scale it : good_item it -> scale (item_amount it) = 2%nat.
Proof.
  intros [_ (u & Hu & Hs & _)]. unfold item_amount. rewrite Hu. exact Hs.
Qed.

Lemma Qabs_self_small (q : Q) : Qle_bool (Qabs (q - q)) (1 # 100) = true.
Proof.
  apply Qle_bool_iff. assert (H : (q - q == 0)%Q) by ring. rewrite H. cbn. discriminate.
Qed.

Lemma validate_fold_false (items : list OrderItem.t) (os : list Order.t) n :
  (forall o, In o os -> order_mismatch items o = Some false) ->
  fold_left (fun acc order =>
               match acc with
               | Some mismatches =>
                   match order_mismatch items order with
                   | Some true => Some (S mismatches)
                   | Some false => Some mismatches
                   | None => None
                   end
               | None => None
               end) os (Some n) = Some n.
Proof.
  revert n; induction os as [|o os IH]; intros n H; [reflexivity|]. cbn [fold_left].
  rewrite (H o (or_introl eq_refl)). apply IH. intros o' Ho'. apply H. right. exact Ho'.
Qed.

Lemma validate_fold_none (items : list OrderItem.t) (os : list Order.t) :
  fold_left (fun acc order =>
               match acc with
               | Some mismatches =>
                   match order_mismatch items order with
                   | Some true => Some (S mismatches)
                   | Some false => Some mismatches
                   | None => None
                   end
               | None => None
               end) os None = None.
Proof. induction os as [|o os IH]; [reflexivity|]. cbn [fold_left]. exact IH. Qed.

Lemma validate_fold_no_items (os : list Order.t) n :
  os <> [] ->
  fold_left (fun acc order =>
               match acc with
               | Some mismatches =>
                   match order_mismatch [] order with
                   | Some true => Some (S mismatches)
                   | Some false => Some mismatches
                   | None => None
                   end
               | None => None
               end) os (Some n) = None.
Proof.
  destruct os as [|o os]; intros H; [congruence|]. cbn [fold_left].
  assert (Hm : order_mismatch [] o = None) by reflexivity. rewrite Hm.
  apply validate_fold_none.
Qed.

Section Checks.
Variable R : PyRandom.
Variable F : FakerLib.
Variable E : env.

Lemma orders_from_customers sz seed f0 ds :
  generate_data_sized R F E sz seed f0 = Some ds ->
  forall o, In o (orders ds) ->
    exists c, In c (customers ds) /\ Customer.customer_id c = Order.customer_id o /\
              Customer.country c = Order.shipping_country o.
Proof.
  intros Hrun o Ho.
  destruct (run_phases R F E sz seed f0 ds Hrun) as (g1 & g2 & g3 & g4 & g5 & g6 & g7 & orders0 &
    totals & c & rc & rp & _ & _ & Hord & _ & Hds & _).
  rewrite Hds in Ho. apply update_totals_In in Ho as (o0 & Ho0 & _ & Hcid & _ & Hsc).
  rewrite Hcid, Hsc.
  exact (for_range_Forall R F
    (fun x => exists c, In c (customers ds) /\ Customer.customer_id c = Order.customer_id x /\
                        Customer.country c = Order.shipping_country x) _ _ _ _ _
    (fun j g x g' H => proj2 (proj2 (gen_order_fields R F E (customers ds) j g x g' H))) Hord o0 Ho0).
Qed.

Lemma reviews_from_samples sz seed f0 ds :
  random_contract R ->
  generate_data_sized R F E sz seed f0 = Some ds ->
  forall r, In r (reviews ds) ->
    In (Review.product_id r) (map Product.product_id (products ds)) /\
    In (Review.customer_id r) (map Customer.customer_id (customers ds)).
Proof.
  intros HR Hrun r Hr.
  destruct (run_phases R F E sz seed f0 ds Hrun) as (g1 & g2 & g3 & g4 & g5 & g6 & g7 & orders0 &
    totals & c & rc & rp & _ & _ & _ & _ & _ & Hrc & Hrp & Hrev).
  apply sampleM_spec in Hrc as [_ Hrc]; [|exact HR|apply Nat.le_min_r].
  apply sampleM_spec in Hrp as [_ Hrp]; [|exact HR|apply Nat.le_min_r].
  destruct (for_range_Forall R F (fun r => In (Review.product_id r) rp /\ In (Review.customer_id r) rc)
              _ _ _ _ _ (fun j g x g' H => proj2 (proj2 (gen_review_fields R F E rc rp j g x g' H)))
              Hrev r Hr) as [Hp Hc].
  split; [exact (Hrp _ Hp) | exact (Hrc _ Hc)].
Qed.

End Checks.


(** X10. Every enumerated field holds one of the values the script lists:
    [is_premium] is ["True"] or ["False"], a category is one of
    [CATEGORIES], a status one of [ORDER_STATUSES] (the totals pass keeps
    it) and a rating one of [5, 4, 3, 2, 1]. *)
Theorem generated_enum_fields R F E sz seed f0 ds :
  generate_data_sized R F E sz seed f0 = Some ds ->
  (forall c, In c (customers ds) -> In (Customer.is_premium c) ["True"; "False"]) /\
  (forall p, In p (products ds) -> In (Product.category p) CATEGORIES) /\
  (forall o, In o (orders ds) -> In (Order.status o) ORDER_STATUSES) /\
  (forall r, In r (reviews ds) -> In (Review.rating r) [5; 4; 3; 2; 1]%nat).
Proof.
  intros Hrun.
  destruct (run_phases R F E sz seed f0 ds Hrun) as (g1 & g2 & g3 & g4 & g5 & g6 & g7 & orders0 &
    totals & c & rc & rp & Hcus & Hprod & Hord & _ & Hds & _ & _ & Hrev).
  split; [exact (for_range_Forall R F _ _ _ _ _ _ (gen_customer_premium R F E) Hcus)|].
  split; [exact (for_range_Forall R F _ _ _ _ _ _ (gen_product_category R F E) Hprod)|].
  split.
  - intros o Ho. rewrite Hds in Ho. apply update_totals_In in Ho as (o0 & Ho0 & _ & _ & Hst & _).
    rewrite Hst.
    exact (for_range_Forall R F (fun x => In (Order.status x) ORDER_STATUSES) _ _ _ _ _
      (fun j g x g' H => proj1 (proj2 (gen_order_fields R F E (customers ds) j g x g' H))) Hord o0 Ho0).
  - exact (for_range_Forall R F (fun x => In (Review.rating x) [5; 4; 3; 2; 1]%nat) _ _ _ _ _
      (fun j g x g' H => proj1 (proj2 (gen_review_fields R F E rc rp j g x g' H))) Hrev).
Qed.

(** X11. Each loop writes as many records as its [range] and numbers them
    from 1 in order: the [i]-th product, order and review has id [i + 1],
    and the [i]-th line item has [order_item_id] [i + 1]; the ids are
    therefore distinct. *)
Theorem generated_ids R F E sz seed f0 ds :
  generate_data_sized R F E sz seed f0 = Some ds ->
  length (customers ds) = n_customers sz /\ length (products ds) = n_products sz /\
  length (orders ds) = n_orders sz /\ length (reviews ds) = n_reviews sz /\
  (forall j p, nth_error (products ds) j = Some p -> Product.product_id p = S j) /\
  (forall j o, nth_error (orders ds) j = Some o -> Order.order_id o = S j) /\
  (forall j it, nth_error (order_items ds) j = Some it -> OrderItem.order_item_id it = S j) /\
  (forall j r, nth_error (reviews ds) j = Some r -> Review.review_id r = S j).
Proof.
  intros Hrun.
  destruct (run_phases R F E sz seed f0 ds Hrun) as (g1 & g2 & g3 & g4 & g5 & g6 & g7 & orders0 &
    totals & c & rc & rp & Hcus & Hprod & Hord & Hitems & Hds & _ & _ & Hrev).
  destruct (for_range_spec R F (fun _ _ => True) _ _ _ _ _ (fun _ _ _ _ _ => I) Hcus) as [Hlc _].
  destruct (for_range_spec R F _ _ _ _ _ _ (gen_product_id R F E) Hprod) as [Hlp Hp].
  destruct (for_range_spec R F (fun j x => Order.order_id x = S j) _ _ _ _ _
              (fun j g x g' H => proj1 (gen_order_fields R F E (customers ds) j g x g' H)) Hord)
    as [Hlo Ho].
  destruct (for_range_spec R F (fun j x => Review.review_id x = S j) _ _ _ _ _
              (fun j g x g' H => proj1 (gen_review_fields R F E rc rp j g x g' H)) Hrev)
    as [Hlr Hr].
  assert (Hn : items_numbered (order_items ds) c).
  { refine (foldM_inv R F _ orders0
              (fun b : list OrderItem.t * gmap nat dec * nat => let '(its, _, c) := b in
                 items_numbered its c) _ _ _ _ _ _ Hitems).
    - intros o [[its0 t0] c0] gx [[its1 t1] c1] gy Hi Hs.
      exact (gen_items_for_numbered R F _ _ _ _ _ _ _ _ _ _ _ Hi Hs).
    - split; [reflexivity|]. intros [|j] x Hx; discriminate. }
  split; [exact Hlc|]. split; [exact Hlp|].
  split; [rewrite Hds; unfold update_totals; rewrite List.length_map; exact Hlo|].
  split; [exact Hlr|]. split; [exact Hp|]. split; [|split; [exact (proj2 Hn) | exact Hr]].
  intros j o Hj. rewrite Hds in Hj. apply update_totals_nth in Hj as (o0 & Hj & Hid & _).
  rewrite Hid. exact (Ho j o0 Hj).
Qed.

(** X12. Every order names a generated customer, and its
    [shipping_country] is the country of that customer. *)
Theorem order_customer_and_country R F E sz seed f0 ds :
  generate_data_sized R F E sz seed f0 = Some ds ->
  forall o, In o (orders ds) ->
    exists c, In c (customers ds) /\ Customer.customer_id c = Order.customer_id o /\
              Customer.country c = Order.shipping_country o.
Proof. exact (orders_from_customers R F E sz seed f0 ds). Qed.

(** X13. Every line item belongs to a generated order, and carries the
    [product_id] of a generated product whose [price] string it copies as
    its [unit_price]. *)
Theorem item_order_product_price R F E sz seed f0 ds :
  generate_data_sized R F E sz seed f0 = Some ds ->
  forall it, In it (order_items ds) ->
    In (OrderItem.order_id it) (map Order.order_id (orders ds)) /\
    exists p, In p (products ds) /\ Product.product_id p = OrderItem.product_id it /\
              OrderItem.unit_price it = Product.price p.
Proof. exact (generated_item_refs R F E sz seed f0 ds). Qed.

(** X14. With [random] keeping its contract, the script's own foreign key
    validation counts no invalid reference: all five counters are 0, so
    no warning is printed. *)
Theorem fk_validation_clean R F E sz seed f0 ds :
  random_contract R ->
  generate_data_sized R F E sz seed f0 = Some ds ->
  validate_foreign_keys ds = mk_fk_counts 0 0 0 0 0.
Proof.
  intros HR Hrun. unfold validate_foreign_keys.
  pose proof (orders_from_customers R F E sz seed f0 ds Hrun) as Hord.
  pose proof (generated_item_refs R F E sz seed f0 ds Hrun) as Hit.
  pose proof (reviews_from_samples R F E sz seed f0 ds HR Hrun) as Hrev.
  f_equal; apply count_if_zero; intros x Hx; apply negb_false_iff.
  - destruct (Hord x Hx) as (c & Hc & Hid & _). apply existsb_In_eqb.
    rewrite <- Hid. apply in_map. exact Hc.
  - apply existsb_In_nat. exact (proj1 (Hit x Hx)).
  - destruct (proj2 (Hit x Hx)) as (p & Hp & Hid & _). apply existsb_In_nat.
    rewrite <- Hid. apply in_map. exact Hp.
  - apply existsb_In_nat. exact (proj1 (Hrev x Hx)).
  - apply existsb_In_eqb. exact (proj2 (Hrev x Hx)).
Qed.

(** X15. With [random] keeping its contract and at least six products,
    the script's own check of the order totals raises nothing and counts
    0 mismatches: it prints that all totals match. *)
Theorem totals_validation_clean R F E sz seed f0 ds :
  random_contract R -> (6 <= n_products sz)%nat ->
  generate_data_sized R F E sz seed f0 = Some ds ->
  validate_totals ds = Some 0%nat.
Proof.
  intros HR Hn Hrun. unfold validate_totals. apply validate_fold_false.
  intros o Ho.
  destruct (generated_items R F E sz seed f0 ds HR Hn Hrun o Ho) as [Hcnt Hgood].
  pose proof (generated_totals R F E sz seed f0 ds Hrun o Ho) as Htot.
  unfold order_mismatch, expected_total. fold (items_of (Order.order_id o) (order_items ds)).
  rewrite (map_opt_good _ Hgood), Htot, parse_str_dec.
  unfold order_sum.
  destruct (items_of (Order.order_id o) (order_items ds)) as [|it its] eqn:Eits;
    [cbn in Hcnt; lia|].
  cbn [map fold_left].
  rewrite dadd_int0 by (apply good_item_amount_scale, Hgood; left; reflexivity).
  rewrite Qabs_self_small. reflexivity.
Qed.

(** X16. When the product loop runs zero times and at least one order is
    written, a run that completes has no line item, and the script's own
    check of the order totals raises: [sum] over no item is the [int] [0],
    which has no [quantize]. *)
Theorem totals_validation_raises_without_products R F E sz seed f0 ds :
  n_products sz = 0%nat -> (0 < n_orders sz)%nat ->
  generate_data_sized R F E sz seed f0 = Some ds ->
  order_items ds = [] /\ validate_totals ds = None.
Proof.
  intros Hp0 Ho Hrun.
  destruct (run_phases R F E sz seed f0 ds Hrun) as (g1 & g2 & g3 & g4 & g5 & g6 & g7 & orders0 &
    totals & c & rc & rp & _ & Hprod & Hord & _ & Hds & _ & _ & _).
  destruct (for_range_spec R F _ _ _ _ _ _ (gen_product_id R F E) Hprod) as [Hlp _].
  destruct (for_range_spec R F (fun _ _ => True) _ _ _ _ _ (fun _ _ _ _ _ => I) Hord) as [Hlo _].
  assert (Hnil : order_items ds = []).
  { destruct (order_items ds) as [|it its] eqn:Eits; [reflexivity|].
    destruct (generated_item_refs R F E sz seed f0 ds Hrun it) as [_ (p & Hp & _)].
    - rewrite Eits. left. reflexivity.
    - destruct (products ds); [destruct Hp | cbn in Hlp; lia]. }
  split; [exact Hnil|].
  unfold validate_totals. rewrite Hds, Hnil. apply validate_fold_no_items.
  destruct orders0 as [|o os]; [cbn in Hlo; lia|]. unfold update_totals. cbn [map]. discriminate.
Qed.

(** X17. With [random] keeping its contract, every product's [price] and
    [cost] are written with two decimal places, the price between [9.99]
    and [999.99], and the cost positive and below the price. *)
Theorem product_price_cost_bounds R F E sz seed f0 ds :
  random_contract R ->
  generate_data_sized R F E sz seed f0 = Some ds ->
  forall p, In p (products ds) ->
    exists dp dc, Product.price p = str_dec dp /\ Product.cost p = str_dec dc /\
      scale dp = 2%nat /\ scale dc = 2%nat /\
      999 <= coef dp <= 99999 /\ 0 < coef dc < coef dp.
Proof.
  intros HR Hrun.
  destruct (run_phases R F E sz seed f0 ds Hrun) as (g1 & g2 & g3 & g4 & g5 & g6 & g7 & orders0 &
    totals & c & rc & rp & _ & Hprod & _).
  exact (for_range_Forall R F _ _ _ _ _ _
           (fun j g x g' H => gen_product_price_cost R F E j g x g' HR H) Hprod).
Qed.

(** *** Runs of the script on a concrete generator *)

Definition no_products_sizes : sizes := mk_sizes 2 0 2 0.

Definition run_no_products : option dataset :=
  generate_data_sized lcg no_faker env_a no_products_sizes 42 None.

Definition dataset_no_products : dataset := dataset_of run_no_products.

Lemma generated_enum_fields_witness :
  generate_data_sized lcg no_faker env_a small_sizes 42 None = Some dataset_a /\
  (forall c, In c (customers dataset_a) -> In (Customer.is_premium c) ["True"; "False"]) /\
  (forall p, In p (products dataset_a) -> In (Product.category p) CATEGORIES) /\
  (forall o, In o (orders dataset_a) -> In (Order.status o) ORDER_STATUSES) /\
  (forall r, In r (reviews dataset_a) -> In (Review.rating r) [5; 4; 3; 2; 1]%nat).
Proof.
  split; [exact GeneratorClaims.run_a_ok|].
  exact (generated_enum_fields lcg no_faker env_a small_sizes 42 None dataset_a GeneratorClaims.run_a_ok).
Defined.

Lemma generated_ids_witness :
  generate_data_sized lcg no_faker env_a small_sizes 42 None = Some dataset_a /\
  length (customers dataset_a) = 3%nat /\ length (products dataset_a) = 8%nat /\
  length (orders dataset_a) = 4%nat /\ length (reviews dataset_a) = 2%nat /\
  (forall j it, nth_error (order_items dataset_a) j = Some it -> OrderItem.order_item_id it = S j).
Proof.
  destruct (generated_ids lcg no_faker env_a small_sizes 42 None dataset_a GeneratorClaims.run_a_ok)
    as (H1 & H2 & H3 & H4 & _ & _ & H7 & _).
  split; [exact GeneratorClaims.run_a_ok|].
  split; [exact H1|]. split; [exact H2|]. split; [exact H3|]. split; [exact H4 | exact H7].
Defined.

Lemma order_customer_and_country_witness :
  let o := hd placeholder_order (orders dataset_a) in
  generate_data_sized lcg no_faker env_a small_sizes 42 None = Some dataset_a /\
  In o (orders dataset_a) /\
  exists c, In c (customers dataset_a) /\ Customer.customer_id c = Order.customer_id o /\
            Customer.country c = Order.shipping_country o.
Proof.
  cbv zeta. split; [exact GeneratorClaims.run_a_ok|]. split; [exact GeneratorClaims.first_order_in|].
  exact (order_customer_and_country lcg no_faker env_a small_sizes 42 None dataset_a
           GeneratorClaims.run_a_ok _ GeneratorClaims.first_order_in).
Defined.

Lemma first_item_in : In (hd (OrderItem.mk 0 0 0 0 "") (order_items dataset_a)) (order_items dataset_a).
Proof. vm_compute. left. reflexivity. Qed.

Lemma item_order_product_price_witness :
  let it := hd (OrderItem.mk 0 0 0 0 "") (order_items dataset_a) in
  generate_data_sized lcg no_faker env_a small_sizes 42 None = Some dataset_a /\
  In it (order_items dataset_a) /\
  In (OrderItem.order_id it) (map Order.order_id (orders dataset_a)) /\
  exists p, In p (products dataset_a) /\ Product.product_id p = OrderItem.product_id it /\
            OrderItem.unit_price it = Product.price p.
Proof.
  cbv zeta. split; [exact GeneratorClaims.run_a_ok|]. split; [exact first_item_in|].
  exact (item_order_product_price lcg no_faker env_a small_sizes 42 None dataset_a
           GeneratorClaims.run_a_ok _ first_item_in).
Defined.

Lemma fk_validation_clean_witness :
  random_contract lcg /\
  generate_data_sized lcg no_faker env_a small_sizes 42 None = Some dataset_a /\
  validate_foreign_keys dataset_a = mk_fk_counts 0 0 0 0 0.
Proof.
  split; [exact GeneratorClaims.lcg_contract|]. split; [exact GeneratorClaims.run_a_ok|].
  exact (fk_validation_clean lcg no_faker env_a small_sizes 42 None dataset_a
           GeneratorClaims.lcg_contract GeneratorClaims.run_a_ok).
Defined.

Lemma totals_validation_clean_witness :
  random_contract lcg /\ (6 <= n_products small_sizes)%nat /\
  generate_data_sized lcg no_faker env_a small_sizes 42 None = Some dataset_a /\
  validate_totals dataset_a = Some 0%nat.
Proof.
  assert (Hn : (6 <= n_products small_sizes)%nat) by (cbn; lia).
  split; [exact GeneratorClaims.lcg_contract|]. split; [exact Hn|].
  split; [exact GeneratorClaims.run_a_ok|].
  exact (totals_validation_clean lcg no_faker env_a small_sizes 42 None dataset_a
           GeneratorClaims.lcg_contract Hn GeneratorClaims.run_a_ok).
Defined.

Lemma totals_validation_raises_without_products_witness :
  n_products no_products_sizes = 0%nat /\ (0 < n_orders no_products_sizes)%nat /\
  generate_data_sized lcg no_faker env_a no_products_sizes 42 None = Some dataset_no_products /\
  order_items dataset_no_products = [] /\ validate_totals dataset_no_products = None.
Proof.
  assert (H0 : n_products no_products_sizes = 0%nat) by reflexivity.
  assert (H1 : (0 < n_orders no_products_sizes)%nat) by (cbn; lia).
  assert (H2 : generate_data_sized lcg no_faker env_a no_products_sizes 42 None = Some dataset_no_products)
    by (vm_compute; reflexivity).
  split; [exact H0|]. split; [exact H1|]. split; [exact H2|].
  exact (totals_validation_raises_without_products lcg no_faker env_a no_products_sizes 42 None
           dataset_no_products H0 H1 H2).
Defined.

Lemma first_product_in : In (hd (Product.mk 0 "" "" "" "" "" "") (products dataset_a)) (products dataset_a).
Proof. vm_compute. left. reflexivity. Qed.

Lemma product_price_cost_bounds_witness :
  let p := hd (Product.mk 0 "" "" "" "" "" "") (products dataset_a) in
  random_contract lcg /\
  generate_data_sized lcg no_faker env_a small_sizes 42 None = Some dataset_a /\
  In p (products dataset_a) /\
  exists dp dc, Product.price p = str_dec dp /\ Product.cost p = str_dec dc /\
    scale dp = 2%nat /\ scale dc = 2%nat /\
    999 <= coef dp <= 99999 /\ 0 < coef dc < coef dp.
Proof.
  cbv zeta. split; [exact GeneratorClaims.lcg_contract|]. split; [exact GeneratorClaims.run_a_ok|].
  split; [exact first_product_in|].
  exact (product_price_cost_bounds lcg no_faker env_a small_sizes 42 None dataset_a
           GeneratorClaims.lcg_contract GeneratorClaims.run_a_ok _ first_product_in).
Defined.

End GeneratorExtra.

Module GeneratorSummaryFacts.
Import Generator GeneratorFacts GeneratorSummary.

(** The number of products of category [c]. *)
Definition cnt (c : string) (products : list Product.t) : nat :=
  length (List.filter (fun p => String.eqb (Product.category p) c) products).

(** Largest count first: every entry's count is at least those of the
    entries after it. *)
Fixpoint counts_desc (l : list (string * nat)) : Prop :=
  match l with
  | [] => True
  | x :: l' => (forall y, In y l' -> (snd y <= snd x)%nat) /\ counts_desc l'
  end.

Lemma counts_add_keys c cs k :
  In k (map fst (counts_add c cs)) <-> In k (map fst cs) \/ k = c.
Proof.
  induction cs as [|[k0 n0] cs IH]; cbn [counts_add map fst].
  - cbn. intuition.
  - destruct (String.eqb_spec k0 c) as [<-|Hne]; cbn [map fst In].
    + intuition.
    + rewrite IH. intuition.
Qed.

Lemma counts_add_nodup c cs :
  List.NoDup (map fst cs) -> List.NoDup (map fst (counts_add c cs)).
Proof.
  induction cs as [|[k0 n0] cs IH]; cbn [counts_add map fst]; intros Hnd.
  - constructor; [intros []|constructor].
  - inversion Hnd as [|? ? Hk Hnd']; subst.
    destruct (String.eqb_spec k0 c) as [<-|Hne]; cbn [map fst].
    + constructor; assumption.
    + constructor; [|exact (IH Hnd')].
      rewrite counts_add_keys. intros [H|H]; [exact (Hk H) | exact (Hne H)].
Qed.

Lemma counts_add_In c cs k n :
  List.NoDup (map fst cs) -> In (k, n) (counts_add c cs) ->
  (k <> c /\ In (k, n) cs) \/
  (k = c /\ ((exists m, In (c, m) cs /\ n = S m) \/ (~ In c (map fst cs) /\ n = 1%nat))).
Proof.
  induction cs as [|[k0 n0] cs IH]; cbn [counts_add map fst]; intros Hnd Hin.
  - destruct Hin as [Hin|[]]. injection Hin as <- <-. right. split; [reflexivity|].
    right. split; [intros []|reflexivity].
  - inversion Hnd as [|? ? Hk Hnd']; subst.
    destruct (String.eqb_spec k0 c) as [<-|Hne].
    + destruct Hin as [Hin|Hin].
      * injection Hin as <- <-. right. split; [reflexivity|]. left. exists n0.
        split; [left; reflexivity | reflexivity].
      * assert (Hkk : k <> k0).
        { intros ->. apply Hk. apply (in_map fst) in Hin. exact Hin. }
        left. split; [exact Hkk | right; exact Hin].
    + destruct Hin as [Hin|Hin].
      * injection Hin as <- <-. left. split; [exact Hne | left; reflexivity].
      * destruct (IH Hnd' Hin) as [[Hkc Hi]|[Hkc [(m & Hm & ->)|[Hni ->]]]].
        -- left. split; [exact Hkc | right; exact Hi].
        -- right. split; [exact Hkc|]. left. exists m. split; [right; exact Hm | reflexivity].
        -- right. split; [exact Hkc|]. right. split; [|reflexivity].
           intros [H|H]; [exact (Hne H) | exact (Hni H)].
Qed.

Lemma cnt_snoc c ps p :
  cnt c (app ps [p]) = (cnt c ps + if String.eqb (Product.category p) c then 1 else 0)%nat.
Proof.
  unfold cnt. rewrite List.filter_app, List.length_app. cbn [List.filter].
  destruct (String.eqb (Product.category p) c); reflexivity.
Qed.

(** What the counting loop keeps: one entry per category met, holding its
    number of products. *)
Definition counts_ok (cs : list (string * nat)) (ps : list Product.t) : Prop :=
  List.NoDup (map fst cs) /\
  (forall k n, In (k, n) cs -> n = cnt k ps /\ (0 < n)%nat) /\
  (forall p, In p ps -> In (Product.category p) (map fst cs)).

Lemma counts_ok_step cs ps p :
  counts_ok cs ps -> counts_ok (counts_add (Product.category p) cs) (app ps [p]).
Proof.
  intros (Hnd & Hcnt & Hcov). split; [exact (counts_add_nodup _ _ Hnd)|]. split.
  - intros k n Hin. rewrite cnt_snoc.
    destruct (counts_add_In _ _ _ _ Hnd Hin) as [[Hkc Hi]|[-> [(m & Hm & ->)|[Hni ->]]]].
    + destruct (Hcnt k n Hi) as [-> Hpos]. split; [|exact Hpos].
      destruct (String.eqb_spec (Product.category p) k) as [E|_]; [congruence | lia].
    + destruct (Hcnt _ m Hm) as [-> _]. rewrite String.eqb_refl. split; lia.
    + rewrite String.eqb_refl. split; [|lia].
      unfold cnt. rewrite (filter_none_kept _ ps); [reflexivity|].
      intros q Hq. apply String.eqb_neq. intros E. apply Hni. rewrite <- E. exact (Hcov q Hq).
  - intros q Hq. apply counts_add_keys. apply in_app_or in Hq as [Hq|[<-|[]]].
    + left. exact (Hcov q Hq).
    + right. reflexivity.
Qed.

Lemma category_counts_ok products : counts_ok (category_counts products) products.
Proof.
  unfold category_counts.
  assert (H : forall pre cs, counts_ok cs pre ->
            counts_ok (fold_left (fun cs p => counts_add (Product.category p) cs) products cs)
                      (app pre products)).
  { induction products as [|p ps IH]; intros pre cs Hok; cbn [fold_left].
    - rewrite app_nil_r. exact Hok.
    - replace (app pre (p :: ps)) with (app (app pre [p]) ps) by (rewrite <- app_assoc; reflexivity).
      apply IH. apply counts_ok_step. exact Hok. }
  apply (H [] []). split; [constructor|]. split; [intros k n []|intros p []].
Qed.

Lemma insert_desc_perm x l : Permutation (insert_desc x l) (x :: l).
Proof.
  induction l as [|y l IH]; cbn [insert_desc]; [reflexivity|].
  destruct (snd y <? snd x)%nat; [reflexivity|].
  rewrite IH. apply perm_swap.
Qed.

Lemma insert_desc_sorted x l : counts_desc l -> counts_desc (insert_desc x l).
Proof.
  induction l as [|y l IH]; cbn [insert_desc counts_desc]; intros Hs.
  - split; [intros z []|exact I].
  - destruct Hs as [Hy Hl]. destruct (Nat.ltb_spec (snd y) (snd x)) as [Hlt|Hge].
    + cbn [counts_desc]. split; [|split; [exact Hy | exact Hl]].
      intros z [<-|Hz]; [lia|]. pose proof (Hy z Hz). lia.
    + cbn [counts_desc]. split; [|exact (IH Hl)].
      intros z Hz. apply (Permutation_in _ (insert_desc_perm x l)) in Hz as [<-|Hz];
        [exact Hge | exact (Hy z Hz)].
Qed.

Lemma sort_by_count_desc_spec items :
  Permutation (sort_by_count_desc items) items /\ counts_desc (sort_by_count_desc items).
Proof.
  unfold sort_by_count_desc.
  assert (H : forall acc, counts_desc acc ->
            Permutation (fold_left (fun acc x => insert_desc x acc) items acc) (app acc items) /\
            counts_desc (fold_left (fun acc x => insert_desc x acc) items acc)).
  { induction items as [|x items IH]; intros acc Hs; cbn [fold_left].
    - rewrite app_nil_r. split; [reflexivity | exact Hs].
    - destruct (IH (insert_desc x acc) (insert_desc_sorted x acc Hs)) as [Hp Hs'].
      split; [|exact Hs']. rewrite Hp, insert_desc_perm.
      cbn [app]. apply Permutation_middle. }
  exact (H [] I).
Qed.

Lemma counts_desc_app a b :
  counts_desc (app a b) -> counts_desc a /\ forall x y, In x a -> In y b -> (snd y <= snd x)%nat.
Proof.
  induction a as [|z a IH]; cbn [app counts_desc]; intros H.
  - split; [exact I | intros x y []].
  - destruct H as [Hz Hr]. destruct (IH Hr) as [Ha Hab]. split.
    + split; [|exact Ha]. intros y Hy. apply Hz. apply in_or_app. left. exact Hy.
    + intros x y [<-|Hx] Hy; [apply Hz; apply in_or_app; right; exact Hy | exact (Hab x y Hx Hy)].
Qed.

(** X18. The summary lists at most three categories, each once, largest
    count first, each with its true number of products (at least one).
    A category of some product is left out only when three are listed,
    and then it has no more products than any listed one. *)
Theorem top_categories_spec (products : list Product.t) :
  let top := top_categories products in
  (length top <= 3)%nat /\ List.NoDup (map fst top) /\ counts_desc top /\
  (forall c n, In (c, n) top -> n = cnt c products /\ (0 < n)%nat) /\
  (forall p, In p products ->
     In (Product.category p) (map fst top) \/
     (length top = 3%nat /\
      forall e, In e top -> (cnt (Product.category p) products <= snd e)%nat)).
Proof.
  cbv zeta. unfold top_categories.
  destruct (category_counts_ok products) as (Hnd & Hcnt & Hcov).
  destruct (sort_by_count_desc_spec (category_counts products)) as [Hperm Hs].
  set (s := sort_by_count_desc (category_counts products)) in *.
  pose proof (List.firstn_skipn 3 s) as Hsplit.
  assert (Hin : forall e, In e s -> In e (category_counts products)).
  { intros e He. exact (Permutation_in _ Hperm He). }
  rewrite <- Hsplit in Hs. destruct (counts_desc_app _ _ Hs) as [Htop Hrest].
  assert (Hnds : List.NoDup (map fst s)).
  { apply (Permutation_NoDup (Permutation_map fst (Permutation_sym Hperm))). exact Hnd. }
  split; [rewrite List.length_firstn; lia|].
  split.
  { rewrite <- Hsplit, List.map_app in Hnds. exact (NoDup_app_remove_r _ _ Hnds). }
  split; [exact Htop|].
  split.
  { intros c n Hcn. apply Hcnt. apply Hin. rewrite <- Hsplit. apply in_or_app. left. exact Hcn. }
  intros p Hp. pose proof (Hcov p Hp) as Hk.
  apply in_map_iff in Hk as ([k n] & Hk & Hkn). cbn [fst] in Hk. subst k.
  assert (Hks : In (Product.category p, n) s).
  { apply (Permutation_in _ (Permutation_sym Hperm)). exact Hkn. }
  rewrite <- Hsplit in Hks. apply in_app_or in Hks as [Ht|Hr].
  - left. apply (in_map fst) in Ht. exact Ht.
  - right. split.
    + rewrite List.length_firstn. assert (H3 : (3 < length s)%nat).
      { destruct (Nat.le_gt_cases (length s) 3) as [Hle|Hgt]; [|exact Hgt].
        rewrite skipn_all2 in Hr by exact Hle. destruct Hr. }
      lia.
    + intros e He. destruct (Hcnt _ _ Hkn) as [Hn _]. rewrite <- Hn.
      exact (Hrest e _ He Hr).
Qed.

Lemma top_categories_spec_witness :
  let top := top_categories (products GeneratorRun.dataset_a) in
  (length top <= 3)%nat /\ List.NoDup (map fst top) /\ counts_desc top /\
  (forall c n, In (c, n) top -> n = cnt c (products GeneratorRun.dataset_a) /\ (0 < n)%nat) /\
  (forall p, In p (products GeneratorRun.dataset_a) ->
     In (Product.category p) (map fst top) \/
     (length top = 3%nat /\
      forall e, In e top -> (cnt (Product.category p) (products GeneratorRun.dataset_a) <= snd e)%nat)).
Proof. exact (top_categories_spec (products GeneratorRun.dataset_a)). Defined.

End GeneratorSummaryFacts.
